(** * lepton/aws.go: the AWS provider of ops

    A shallow embedding of the two workflows of [lepton/aws.go]
    ([CreateImage] and [CreateInstance]) and of the helpers they call.

    The file talks to three remote services (EC2, S3, Route53).  Every
    remote call, every reading of the clock and every sleep is an event
    of type [Call]; a program is a tree of such events ([Prog]) and is
    run against an environment ([Oracle]) that answers each call from
    the history of the calls answered so far.  The transcript of a run is
    the list of the calls issued with their answers, so that a statement
    such as "no terminate call is issued" is a statement about the
    transcript.

    Conventions.  A Go slice is a list and the nil slice is [[]]; a
    [*string] of the SDK is an [option string] and [aws.StringValue]
    reads it; a pointer the source dereferences without a test is taken
    to be set.  Messages written with [fmt.Print*] are not modelled. *)

From Stdlib Require Import String ZArith List Bool Lia.
From Stdlib Require Import DecimalString.
From Stdlib Require DecimalZ DecimalPos.
Import ListNotations.
Local Open Scope string_scope.
Local Open Scope list_scope.
Local Open Scope Z_scope.

Set Implicit Arguments.

(** ** Go standard library *)

Module strconv.
  (** [strconv.Itoa] and [strconv.FormatInt(_, 10)]: decimal rendering. *)
Definition Itoa (i : Z) : string := NilZero.string_of_int (Z.to_int i).
Definition FormatInt10 (i : Z) : string := Itoa i.
End strconv.

Module time.
  (** An instant is its number of nanoseconds since the Unix epoch. *)
Definition Time := Z.
Definition UnixNano (t : Time) : Z := t.
Definition Unix (t : Time) : Z := t / 1000000000.
  (** [a.Before(b)] *)
Definition Before (a b : Time) : bool := a <? b.
  (** The zero [Time] (January 1, year 1, 00:00 UTC). *)
Definition zero : Time := -62135596800000000000.
End time.

(** ** The AWS SDK: values *)

Module aws.
Definition String (s : string) : option string := Some s.
Definition StringValue (p : option string) : string :=
    match p with Some s => s | None => "" end.
Definition StringSlice (l : list string) : list (option string) :=
    map String l.
End aws.

(** An error of the SDK or of a collaborator.  [awserr.Error] carries a
    code; any other error only a message. *)
Inductive sdkerr : Type :=
| AwsError (code message : string)
| PlainError (message : string).

Module ec2.
Record Tag := { Key : option string; Value : option string }.

Record Filter := { Name : option string; Values : list (option string) }.

Record InstanceNetworkInterfaceAssociation := { PublicIp : option string }.

Record InstanceNetworkInterface := {
    PrivateIpAddress : option string;
    Association : option InstanceNetworkInterfaceAssociation
  }.

Record Instance := {
    InstanceId : option string;
    Tags : list Tag;
    StateName : option string;          (* State.Name *)
    LaunchTime : option time.Time;
    NetworkInterfaces : list InstanceNetworkInterface
  }.

Record Image := {
    ImageId : option string;
    ImageName : option string;
    ImageTags : list Tag;
    CreationDate : option string
  }.

Record Vpc := { VpcId : string; IsDefault : bool }.

Record Subnet := {
    SubnetId : string;
    SubnetVpcId : string;
    DefaultForAz : bool
  }.

Record SecurityGroup := { GroupId : option string; GroupVpcId : string }.

Record IpPermission := {
    IpProtocol : string;
    FromPort : Z;
    ToPort : Z;
    IpRanges : list string              (* CidrIp of each range *)
  }.

Record SnapshotTaskDetail := {
    Status : option string;
    SnapshotId : option string
  }.

Record ImportSnapshotTask := {
    ImportTaskId : option string;
    SnapshotTaskDetail_ : SnapshotTaskDetail
  }.

Record TagSpecification := { ResourceType : string; SpecTags : list Tag }.

Record RunInstancesInput := {
    RunImageId : string;
    InstanceType : string;
    MinCount : Z;
    MaxCount : Z;
    RunSubnetId : string;
    SecurityGroupIds : list string;
    TagSpecifications : list TagSpecification
  }.

Record RegisterImageInput := {
    RegName : string;
    Architecture : string;
    DeviceName : string;
    DeleteOnTermination : bool;
    RegSnapshotId : option string;
    VolumeType : string;
    Description : string;
    RootDeviceName : string;
    VirtualizationType : string;
    EnaSupport : bool
  }.
End ec2.

(** ** Types of the [lepton] package declared outside [aws.go] *)

Record Tag := { Key : string; Value : string }.

Record CloudConfig := {
  Zone : string;
  BucketName : string;
  ImageName : string;
  Flavor : string
}.

Record RunConfig := {
  SecurityGroup : string;
  VPC : string;
  Subnet : string;
  Tags : list Tag;
  DomainName : string;
  Ports : list Z;
  UDPPorts : list Z
}.

Record Config := { cloudConfig : CloudConfig; runConfig : RunConfig }.

Record CloudInstance := {
  ID : string;
  Name : string;
  Status : string;
  Created : option time.Time;   (* the source keeps its rendering as text *)
  PrivateIps : list string;
  PublicIps : list string
}.

(** ** Errors

    One constructor for each place where [aws.go] makes an error; the
    comment gives the text of the source. *)
Inductive error : Type :=
| ErrSDK (e : sdkerr)
    (* an error of a call, returned as it is *)
| ErrCantFindAmi
    (* "can't find ami" *)
| ErrTimeParse (value : string)
    (* the error of time.Parse *)
| ErrGetSecurityGroup (sg : string) (cause : sdkerr)
    (* "get security group with id '%s': %s" *)
| ErrVpcMismatch (sg expected got : string)
    (* "vpc mismatch: expected '%s' to have vpc '%s', got '%s'" *)
| ErrSecurityGroupNotFound (sg : string)
    (* "security group '%s' not found" *)
| ErrNoSubnetsNamed (name : string)
    (* "No Subnets with name '%v' found to associate security group with" *)
| ErrNoSubnets
    (* "No Subnets found to associate security group with" *)
| ErrDescribeVpcs (cause : sdkerr)
    (* "Unable to describe VPCs, %v" *)
| ErrNoVpcsNamed (name : string)
    (* "No VPCs with name '%v' found to associate security group with" *)
| ErrNoVpcs
    (* "No VPCs found to associate security group with" *)
| ErrVpcIDNotFound (vpcID : string)
    (* "Unable to find VPC with ID %q." *)
| ErrSecurityGroupExists (imgName : string)
    (* "Security group %q already exists." *)
| ErrCreateSecurityGroup (imgName : string) (cause : sdkerr)
    (* "Unable to create security group %q, %v" *)
| ErrSecurityGroupIngress (imgName : string) (cause : sdkerr)
    (* "Unable to set security group %q ingress, %v" *)
| ErrInstanceNotFound (id : string)
    (* ErrInstanceNotFound(id), declared elsewhere in the package *)
| ErrOperationTimedOut (tries : Z)
    (* "\nOperation timed out. No of tries %d" *)
| ErrNotSupported.
    (* "Operation not supported" *)

(** The taxonomy of failures. *)
Inductive Kind : Type :=
| NotFound | Conflict | AlreadyExists | Timeout | ProviderError | NotSupported.

Definition kind (e : error) : Kind :=
  match e with
  | ErrCantFindAmi | ErrSecurityGroupNotFound _ | ErrNoSubnetsNamed _
  | ErrNoSubnets | ErrNoVpcsNamed _ | ErrNoVpcs | ErrVpcIDNotFound _
  | ErrInstanceNotFound _ => NotFound
  | ErrVpcMismatch _ _ _ => Conflict
  | ErrSecurityGroupExists _ => AlreadyExists
  | ErrOperationTimedOut _ => Timeout
  | ErrNotSupported => NotSupported
  | ErrSDK _ | ErrTimeParse _ | ErrGetSecurityGroup _ _ | ErrDescribeVpcs _
  | ErrCreateSecurityGroup _ _ | ErrSecurityGroupIngress _ _ => ProviderError
  end.

(** How a function of the file ends: with a value, with an error it
    returns, by leaving the process ([exitWithError]) or by a run-time
    panic (an index out of range). *)
Inductive outcome (A : Type) : Type :=
| Ok (a : A)
| Err (e : error)
| Exit (msg : string)
| Panic.
Arguments Err {A} e.
Arguments Exit {A} msg.
Arguments Panic {A}.

(** ** Remote calls

    [Call] lists the operations of the compute API, of the object store
    and of the DNS collaborator that [aws.go] uses, with the clock and
    the sleep of the Go run time; [Resp c] is what call [c] answers. *)
Inductive Call : Type :=
| NewSession (region : string)
| ImportSnapshot (bucket key : string)
| DescribeImportSnapshotTasks (importTaskIds : list (option string))
| DeleteFromBucket (config : Config) (key : string)
| CreateTags (resources : list (option string)) (tags : list ec2.Tag)
| RegisterImage (input : ec2.RegisterImageInput)
| DescribeImages (owners : list (option string))
| DescribeVpcs (input : option (list ec2.Filter))
| DescribeSecurityGroups (groupIds : list (option string))
| CreateSecurityGroup (groupName description vpcId : string)
| AuthorizeSecurityGroupIngress
    (groupId : option string) (ipPermissions : list ec2.IpPermission)
| DescribeSubnets (filters : list ec2.Filter)
| RunInstances (input : ec2.RunInstancesInput)
| DescribeInstances (filters : list ec2.Filter)
| TerminateInstances (instanceIds : list (option string))
| CreateDNSRecord (config : Config) (ip : string)
| Now
| Sleep (seconds : Z).

Definition Resp (c : Call) : Type :=
  match c with
  | NewSession _ => option sdkerr
  | ImportSnapshot _ _ => (sdkerr + option string)%type
  | DescribeImportSnapshotTasks _ => (sdkerr + list ec2.ImportSnapshotTask)%type
  | DeleteFromBucket _ _ => option sdkerr
  | CreateTags _ _ => option sdkerr
  | RegisterImage _ => (sdkerr + option string)%type
  | DescribeImages _ => (sdkerr + list ec2.Image)%type
  | DescribeVpcs _ => (sdkerr + list ec2.Vpc)%type
  | DescribeSecurityGroups _ => (sdkerr + list ec2.SecurityGroup)%type
  | CreateSecurityGroup _ _ _ => (sdkerr + option string)%type
  | AuthorizeSecurityGroupIngress _ _ => option sdkerr
  | DescribeSubnets _ => (sdkerr + list ec2.Subnet)%type
  | RunInstances _ => (sdkerr + list ec2.Instance)%type
  | DescribeInstances _ => (sdkerr + list (list ec2.Instance))%type
  | TerminateInstances _ => option sdkerr
  | CreateDNSRecord _ _ => option error
  | Now => time.Time
  | Sleep _ => unit
  end.

(** ** Programs *)

Inductive Prog (A : Type) : Type :=
| Ret (a : A)
| Vis (c : Call) (k : Resp c -> Prog A).
Arguments Ret {A} a.
Arguments Vis {A} c k.

Fixpoint bind {A B : Type} (p : Prog A) (f : A -> Prog B) : Prog B :=
  match p with
  | Ret a => f a
  | Vis c k => Vis c (fun r => bind (k r) f)
  end.

Definition call (c : Call) : Prog (Resp c) := Vis c Ret.

(** [x, err := f(...); if err != nil { return err }]: an error, an exit
    or a panic of [p] ends the caller with it. *)
Definition andThen {A B : Type}
    (p : Prog (outcome A)) (f : A -> Prog (outcome B)) : Prog (outcome B) :=
  bind p (fun r =>
    match r with
    | Ok a => f a
    | Err e => Ret (Err e)
    | Exit m => Ret (Exit m)
    | Panic => Ret Panic
    end).

Notation "'let*' x ':=' p 'in' q" := (bind p (fun x => q))
  (at level 10, x pattern, p at level 100, q at level 200, only parsing).
Notation "'try' x ':=' p 'in' q" := (andThen p (fun x => q))
  (at level 10, x pattern, p at level 100, q at level 200, only parsing).

(** ** Running a program *)

Definition Entry : Type := { c : Call & Resp c }.
Definition entry (c : Call) (r : Resp c) : Entry := existT Resp c r.
Definition callOf (e : Entry) : Call := projT1 e.

(** The environment: it answers a call knowing all that happened. *)
Definition Oracle : Type := list Entry -> forall c : Call, Resp c.

(** The calls [p] issues after history [h], with their answers. *)
Fixpoint transcript {A : Type} (o : Oracle) (h : list Entry) (p : Prog A)
  : list Entry :=
  match p with
  | Ret _ => []
  | Vis c k => entry c (o h c)
               :: transcript o (h ++ [entry c (o h c)]) (k (o h c))
  end.

(** What [p] returns after history [h]. *)
Fixpoint result {A : Type} (o : Oracle) (h : list Entry) (p : Prog A) : A :=
  match p with
  | Ret a => a
  | Vis c k => result o (h ++ [entry c (o h c)]) (k (o h c))
  end.

(** Every call that [p] can issue, whatever the answers, satisfies [P]. *)
Inductive Issues {A : Type} (P : Call -> Prop) : Prog A -> Prop :=
| Issues_Ret : forall a, Issues P (Ret a)
| Issues_Vis : forall c k,
    P c -> (forall r, Issues P (k r)) -> Issues P (Vis c k).

(** ** The waiter of the SDK ([aws/request/waiter.go])

    [WaitWithContext] sends the request up to [MaxAttempts] times; after
    each answer the acceptors are tried in order and the first that
    matches ends the wait, with no error for a success state and with
    [ResourceNotReady] for a failure state; between two attempts it
    sleeps [Delay].  When the attempts are used up it returns
    [ResourceNotReady] ("exceeded wait attempts").  [MaxAttempts] is
    taken to be at least 1. *)
Module request.
Inductive WaiterState : Type := SuccessWaiterState | FailureWaiterState.
Inductive WaiterMatchMode : Type := PathAllWaiterMatch | PathAnyWaiterMatch.

Record WaiterAcceptor := {
  State : WaiterState;
  Matcher : WaiterMatchMode;
  Expected : string
}.

Record Waiter := {
  Delay : Z;                           (* seconds *)
  MaxAttempts : nat;
  Acceptors : list WaiterAcceptor
}.

Definition WaiterResourceNotReady (message : string) : sdkerr :=
  AwsError "ResourceNotReady" message.

(** The values at the path
    [ImportSnapshotTasks[].SnapshotTaskDetail.Status] of an answer; an
    answer that is an error has none. *)
Definition valuesAtPath
    (r : sdkerr + list ec2.ImportSnapshotTask) : list string :=
  match r with
  | inl _ => []
  | inr tasks =>
      flat_map (fun t =>
        match ec2.Status (ec2.SnapshotTaskDetail_ t) with
        | Some s => [s]
        | None => []
        end) tasks
  end.

Definition matches (a : WaiterAcceptor) (vals : list string) : bool :=
  match Matcher a with
  | PathAllWaiterMatch =>
      negb (Nat.eqb (length vals) 0)
      && forallb (fun v => String.eqb v (Expected a)) vals
  | PathAnyWaiterMatch =>
      existsb (fun v => String.eqb v (Expected a)) vals
  end.

(** The verdict of the first acceptor that matches, if any. *)
Fixpoint accept (acceptors : list WaiterAcceptor) (vals : list string)
  : option (option sdkerr) :=
  match acceptors with
  | [] => None
  | a :: rest =>
      if matches a vals then
        match State a with
        | SuccessWaiterState => Some None
        | FailureWaiterState =>
            Some (Some (WaiterResourceNotReady
                          "failed waiting for successful resource state"))
        end
      else accept rest vals
  end.

Fixpoint attempts (w : Waiter) (taskFilter : list (option string))
    (remaining : nat) : Prog (option sdkerr) :=
  match remaining with
  | O => Ret (Some (WaiterResourceNotReady "exceeded wait attempts"))
  | S n =>
      let* r := call (DescribeImportSnapshotTasks taskFilter) in
      match accept (Acceptors w) (valuesAtPath r) with
      | Some verdict => Ret verdict
      | None =>
          match n with
          | O => Ret (Some (WaiterResourceNotReady "exceeded wait attempts"))
          | S _ =>
              let* _ := call (Sleep (Delay w)) in
              attempts w taskFilter n
          end
      end
  end.

Definition WaitWithContext (w : Waiter) (taskFilter : list (option string))
  : Prog (option sdkerr) :=
  attempts w taskFilter (MaxAttempts w).
End request.

(** ** Image import: [CreateImage] and [waitSnapshotToBeReady] *)

Definition getEc2Service (config : Config) : Prog (outcome unit) :=
  let* err := call (NewSession (Zone (cloudConfig config))) in
  match err with
  | Some e => Ret (Err (ErrSDK e))
  | None => Ret (Ok tt)
  end.

(** The waiter that [waitSnapshotToBeReady] builds. *)
Definition snapshotWaiter : request.Waiter :=
  {| request.Delay := 15;
     request.MaxAttempts := 60;
     request.Acceptors :=
       [ {| request.State := request.SuccessWaiterState;
            request.Matcher := request.PathAllWaiterMatch;
            request.Expected := "completed" |};
         {| request.State := request.FailureWaiterState;
            request.Matcher := request.PathAnyWaiterMatch;
            request.Expected := "deleted" |};
         {| request.State := request.FailureWaiterState;
            request.Matcher := request.PathAnyWaiterMatch;
            request.Expected := "deleting" |} ] |}.

(** [waitSnapshotToBeReady]: the value of [w.WaitWithContext(ct)] is not
    bound to anything; the clock is read before and after the wait for
    the message only. *)
Definition waitSnapshotToBeReady
    (config : Config) (importTaskID : option string)
  : Prog (outcome (option string)) :=
  try _ := getEc2Service config in
  let taskFilter := [importTaskID] in
  let* r := call (DescribeImportSnapshotTasks taskFilter) in
  match r with
  | inl e => Ret (Err (ErrSDK e))
  | inr _ =>
      let* waitStartTime := call Now in
      let* _ := request.WaitWithContext snapshotWaiter taskFilter in
      let* _ := call Now in
      let* describeOutput := call (DescribeImportSnapshotTasks taskFilter) in
      match describeOutput with
      | inl e => Ret (Err (ErrSDK e))
      | inr [] => Ret Panic
      | inr (task :: _) =>
          Ret (Ok (ec2.SnapshotId (ec2.SnapshotTaskDetail_ task)))
      end
  end.

Definition nameTag (value : string) : ec2.Tag :=
  {| ec2.Key := aws.String "Name"; ec2.Value := aws.String value |}.

Definition registerImageInput
    (amiName key : string) (snapshotID : option string)
  : ec2.RegisterImageInput :=
  {| ec2.RegName := amiName;
     ec2.Architecture := "x86_64";
     ec2.DeviceName := "/dev/sda1";
     ec2.DeleteOnTermination := false;
     ec2.RegSnapshotId := snapshotID;
     ec2.VolumeType := "gp2";
     ec2.Description := ("nanos image " ++ key)%string;
     ec2.RootDeviceName := "/dev/sda1";
     ec2.VirtualizationType := "hvm";
     ec2.EnaSupport := false |}.

Definition CreateImage (config : Config) : Prog (outcome unit) :=
  try _ := getEc2Service config in
  let bucket := BucketName (cloudConfig config) in
  let key := ImageName (cloudConfig config) in
  let* res := call (ImportSnapshot bucket key) in
  match res with
  | inl e => Ret (Err (ErrSDK e))
  | inr importTaskId =>
  try snapshotID := waitSnapshotToBeReady config importTaskId in
  (* delete the tmp s3 image *)
  let* err := call (DeleteFromBucket config key) in
  match err with
  | Some e => Ret (Err (ErrSDK e))
  | None =>
  (* tag the volume *)
  let* err := call (CreateTags [snapshotID] [nameTag key]) in
  match err with
  | Some e => Ret (Err (ErrSDK e))
  | None =>
  let* t := call Now in
  let s := strconv.FormatInt10 (time.UnixNano t) in
  let amiName := (key ++ s)%string in
  (* register ami *)
  let* resreg := call (RegisterImage (registerImageInput amiName key snapshotID)) in
  match resreg with
  | inl e => Ret (Err (ErrSDK e))
  | inr imageId =>
  (* Add name tag to the created ami; [err] is assigned and not read *)
  let* err := call (CreateTags [imageId] [nameTag key]) in
  Ret (Ok tt)
  end end end end.

(** ** Instances: listing and lookup *)

Definition getAWSImages (region : string) : Prog (outcome (list ec2.Image)) :=
  let* _ := call (NewSession region) in
  let* r := call (DescribeImages [aws.String "self"]) in
  match r with
  | inl e => Ret (Err (ErrSDK e))
  | inr images => Ret (Ok images)
  end.

(** The two loops of [formalizeAWSInstance]. *)
Definition instanceNameOf (tags : list ec2.Tag) : string :=
  fold_left
    (fun instanceName tag =>
       if String.eqb (aws.StringValue (ec2.Key tag)) "Name"
       then aws.StringValue (ec2.Value tag)
       else instanceName)
    tags "unknown".

Definition addInterface
    (ips : list string * list string) (ninterface : ec2.InstanceNetworkInterface)
  : list string * list string :=
  let (privateIps, publicIps) := ips in
  let privateIps :=
    privateIps ++ [aws.StringValue (ec2.PrivateIpAddress ninterface)] in
  match ec2.Association ninterface with
  | Some assoc =>
      match ec2.PublicIp assoc with
      | Some ip => (privateIps, publicIps ++ [ip])
      | None => (privateIps, publicIps)
      end
  | None => (privateIps, publicIps)
  end.

Definition formalizeAWSInstance (instance : ec2.Instance) : CloudInstance :=
  let instanceName := instanceNameOf (ec2.Tags instance) in
  let (privateIps, publicIps) :=
    fold_left addInterface (ec2.NetworkInterfaces instance) ([], []) in
  {| ID := aws.StringValue (ec2.InstanceId instance);
     Name := instanceName;
     Status := aws.StringValue (ec2.StateName instance);
     Created := ec2.LaunchTime instance;
     PublicIps := publicIps;
     PrivateIps := privateIps |}.

Definition getAWSInstances (region : string) (filter : list ec2.Filter)
  : Prog (outcome (list CloudInstance)) :=
  let* _ := call (NewSession region) in
  let* result := call (DescribeInstances filter) in
  match result with
  | inl _ => Ret (Exit "invalid region")
  | inr reservations =>
      Ret (Ok (flat_map (map formalizeAWSInstance) reservations))
  end.

Definition nameFilter (name : string) : ec2.Filter :=
  {| ec2.Name := aws.String "tag:Name"; ec2.Values := aws.StringSlice [name] |}.

Definition GetInstanceByID (config : Config) (id : string)
  : Prog (outcome CloudInstance) :=
  let filters := [nameFilter id] in
  try instances := getAWSInstances (Zone (cloudConfig config)) filters in
  match instances with
  | [] => Ret (Err (ErrInstanceNotFound id))
  | instance :: _ => Ret (Ok instance)
  end.

Definition DeleteInstance (config : Config) (instancename : string)
  : Prog (outcome unit) :=
  let* _ := call (NewSession (Zone (cloudConfig config))) in
  let* err := call (TerminateInstances [aws.String instancename]) in
  match err with
  | Some e => Ret (Err (ErrSDK e))
  | None => Ret (Ok tt)
  end.

(** ** Tags *)

Definition toAWSTag (tag : Tag) : ec2.Tag :=
  {| ec2.Key := aws.String (Key tag); ec2.Value := aws.String (Value tag) |}.

(** The state of the loop of [parseToAWSTags]:
    [tags], [nameSpecified], [name]. *)
Definition parseToAWSTags_step
    (st : list ec2.Tag * bool * string) (tag : Tag)
  : list ec2.Tag * bool * string :=
  let '(tags, nameSpecified, name) := st in
  let tags := tags ++ [toAWSTag tag] in
  if String.eqb (Key tag) "Name"
  then (tags, true, Value tag)
  else (tags, nameSpecified, name).

Definition parseToAWSTags (configTags : list Tag) (defaultName : string)
  : list ec2.Tag * string :=
  let '(tags, nameSpecified, name) :=
    fold_left parseToAWSTags_step configTags ([], false, defaultName) in
  if negb nameSpecified
  then (tags ++ [nameTag name], name)
  else (tags, name).

(** ** Network and security group *)

Definition CheckValidSecurityGroup (config : Config) : Prog (outcome unit) :=
  let sg := SecurityGroup (runConfig config) in
  let vpc := VPC (runConfig config) in
  let* result := call (DescribeSecurityGroups [aws.String sg]) in
  match result with
  | inl e => Ret (Err (ErrGetSecurityGroup sg e))
  | inr groups =>
      match groups with
      | [g] =>
          if negb (String.eqb (ec2.GroupVpcId g) vpc)
          then Ret (Err (ErrVpcMismatch sg vpc (ec2.GroupVpcId g)))
          else Ret (Ok tt)
      | [] => Ret (Err (ErrSecurityGroupNotFound sg))
      | _ => Ret (Ok tt)
      end
  end.

Definition vpcFilter (vpcID : string) : ec2.Filter :=
  {| ec2.Name := aws.String "vpc-id"; ec2.Values := aws.StringSlice [vpcID] |}.

Definition subnetFilter (subnet : string) : ec2.Filter :=
  {| ec2.Name := aws.String "subnet-id";
     ec2.Values := aws.StringSlice [subnet] |}.

Definition GetSubnet (config : Config) (vpcID : string)
  : Prog (outcome ec2.Subnet) :=
  let subnetName := Subnet (runConfig config) in
  let filters := [vpcFilter vpcID] in
  let filters :=
    if negb (String.eqb subnetName "")
    then filters ++ [subnetFilter (Subnet (runConfig config))]
    else filters in
  let* result := call (DescribeSubnets filters) in
  match result with
  | inl e => Ret (Err (ErrSDK e))
  | inr subnets =>
      match subnets with
      | [] =>
          if negb (String.eqb subnetName "")
          then Ret (Err (ErrNoSubnetsNamed subnetName))
          else Ret (Err ErrNoSubnets)
      | first :: _ =>
          if negb (String.eqb subnetName "") then
            match find ec2.DefaultForAz subnets with
            | Some subnet => Ret (Ok subnet)
            | None => Ret (Ok first)
            end
          else Ret (Ok first)
      end
  end.

(** The loop of [GetVPC] that selects the default VPC: each VPC flagged
    default is assigned to [vpc] in turn. *)
Definition selectDefaultVpc (vpcs : list ec2.Vpc) : option ec2.Vpc :=
  fold_left
    (fun vpc s => if ec2.IsDefault s then Some s else vpc)
    vpcs None.

Definition GetVPC (config : Config) : Prog (outcome ec2.Vpc) :=
  let vpcName := VPC (runConfig config) in
  let input :=
    if negb (String.eqb vpcName "")
    then Some [vpcFilter (VPC (runConfig config))]
    else None in
  let* result := call (DescribeVpcs input) in
  match result with
  | inl e => Ret (Err (ErrDescribeVpcs e))
  | inr vpcs =>
      match vpcs with
      | [] =>
          if negb (String.eqb vpcName "")
          then Ret (Err (ErrNoVpcsNamed vpcName))
          else Ret (Err ErrNoVpcs)
      | first :: _ =>
          if negb (String.eqb vpcName "") then Ret (Ok first)
          else
            match selectDefaultVpc vpcs with
            | Some vpc => Ret (Ok vpc)
            | None => Ret (Ok first)
            end
      end
  end.

Definition buildFirewallRule (protocol : string) (port : Z)
  : ec2.IpPermission :=
  {| ec2.IpProtocol := protocol;
     ec2.FromPort := port;
     ec2.ToPort := port;
     ec2.IpRanges := ["0.0.0.0/0"] |}.

Definition CreateSG (config : Config) (imgName vpcID : string)
  : Prog (outcome string) :=
  let* t := call Now in
  let s := strconv.FormatInt10 (time.UnixNano t) in
  let sgName := (imgName ++ s)%string in
  let* createRes :=
    call (CreateSecurityGroup
            sgName ("security group for " ++ imgName)%string vpcID) in
  match createRes with
  | inl (AwsError code msg) =>
      if String.eqb code "InvalidVpcID.NotFound"
      then Ret (Err (ErrVpcIDNotFound vpcID))
      else if String.eqb code "InvalidGroup.Duplicate"
      then Ret (Err (ErrSecurityGroupExists imgName))
      else Ret (Err (ErrCreateSecurityGroup imgName (AwsError code msg)))
  | inl e => Ret (Err (ErrCreateSecurityGroup imgName e))
  | inr groupId =>
      let ec2Permissions :=
        map (buildFirewallRule "tcp") (Ports (runConfig config))
        ++ map (buildFirewallRule "udp") (UDPPorts (runConfig config)) in
      match ec2Permissions with
      | _ :: _ =>
          let* err :=
            call (AuthorizeSecurityGroupIngress groupId ec2Permissions) in
          match err with
          | Some e => Ret (Err (ErrSecurityGroupIngress imgName e))
          | None => Ret (Ok (aws.StringValue groupId))
          end
      | [] => Ret (Ok (aws.StringValue groupId))
      end
  end.

(** ** [CreateInstance] *)

Section CreateInstance.

(** [time.Parse layout value] of the Go library: the instant, or no
    instant when [value] does not follow [layout]. *)
Variable time_Parse : string -> string -> option time.Time.

Definition layout : string := "2006-01-02T15:04:05.000Z".

(** The name an image is listed under: the value of its first tag. *)
Definition imageTagName (image : ec2.Image) : string :=
  match ec2.ImageTags image with
  | [] => ""
  | tag :: _ => aws.StringValue (ec2.Value tag)
  end.

Definition imageMatches (imgName : string) (image : ec2.Image) : bool :=
  let n := imageTagName image in
  negb (String.eqb n "") && String.eqb n imgName.

(** The loop over [result.Images], from the values [ami] and [last] have
    when it reaches [images]. *)
Fixpoint scanImages (imgName : string) (images : list ec2.Image)
    (ami : string) (last : time.Time) : outcome (string * time.Time) :=
  match images with
  | [] => Ok (ami, last)
  | image :: rest =>
      if imageMatches imgName image then
        let ami := aws.StringValue (ec2.ImageId image) in
        let ntime := aws.StringValue (ec2.CreationDate image) in
        match time_Parse layout ntime with
        | None => Err (ErrTimeParse ntime)
        | Some t =>
            scanImages imgName rest ami
              (if time.Before last t then t else last)
        end
      else scanImages imgName rest ami last
  end.

Definition withFlavor (config : Config) (flavor : string) : Config :=
  {| cloudConfig :=
       {| Zone := Zone (cloudConfig config);
          BucketName := BucketName (cloudConfig config);
          ImageName := ImageName (cloudConfig config);
          Flavor := flavor |};
     runConfig := runConfig config |}.

Definition runInstancesInput (config : Config) (ami sg : string)
    (subnet : ec2.Subnet) (tags : list ec2.Tag) : ec2.RunInstancesInput :=
  {| ec2.RunImageId := ami;
     ec2.InstanceType := Flavor (cloudConfig config);
     ec2.MinCount := 1;
     ec2.MaxCount := 1;
     ec2.RunSubnetId := ec2.SubnetId subnet;
     ec2.SecurityGroupIds := [sg];
     ec2.TagSpecifications :=
       [ {| ec2.ResourceType := "instance"; ec2.SpecTags := tags |};
         {| ec2.ResourceType := "volume"; ec2.SpecTags := tags |} ] |}.

(** The loop [for pollCount > 0] and the return that follows it. *)
Fixpoint pollPublicIp (config : Config) (tagInstanceName : string)
    (pollCount : nat) : Prog (outcome unit) :=
  match pollCount with
  | O => Ret (Err (ErrOperationTimedOut (Z.of_nat pollCount)))
  | S pollCount' =>
      let* _ := call (Sleep 2) in
      let* r := GetInstanceByID config tagInstanceName in
      match r with
      | Err _ => pollPublicIp config tagInstanceName pollCount'
      | Exit m => Ret (Exit m)
      | Panic => Ret Panic
      | Ok instance =>
          match PublicIps instance with
          | ip :: _ =>
              let* err := call (CreateDNSRecord config ip) in
              match err with
              | Some e => Ret (Err e)
              | None => Ret (Ok tt)
              end
          | [] => Ret (Ok tt)
          end
      end
  end.

(** The security group of the instance: the declared one once checked,
    or a new one. *)
Definition resolveSecurityGroup (config : Config) (imgName : string)
    (vpc : ec2.Vpc) : Prog (outcome string) :=
  if negb (String.eqb (SecurityGroup (runConfig config)) "")
     && negb (String.eqb (VPC (runConfig config)) "")
  then
    try _ := CheckValidSecurityGroup config in
    Ret (Ok (SecurityGroup (runConfig config)))
  else CreateSG config imgName (ec2.VpcId vpc).

(** From [parseToAWSTags] to the end of [CreateInstance]. *)
Definition launch (config : Config) (imgName ami sg : string)
    (subnet : ec2.Subnet) : Prog (outcome unit) :=
  let* now := call Now in
  let '(tags, tagInstanceName) :=
    parseToAWSTags (Tags (runConfig config))
      (imgName ++ "-" ++ strconv.Itoa (time.Unix now))%string in
  let* runResult :=
    call (RunInstances (runInstancesInput config ami sg subnet tags)) in
  match runResult with
  | inl e => Ret (Err (ErrSDK e))
  | inr [] => Ret Panic
  | inr (_ :: _) =>
      if negb (String.eqb (DomainName (runConfig config)) "")
      then pollPublicIp config tagInstanceName 60
      else Ret (Ok tt)
  end.

Definition CreateInstance (config : Config) : Prog (outcome unit) :=
  let* result := getAWSImages (Zone (cloudConfig config)) in
  match result with
  | Err _ | Exit _ | Panic => Ret (Exit "Invalid zone")
  | Ok images =>
  let imgName := ImageName (cloudConfig config) in
  match scanImages imgName images "" time.zero with
  | Err e => Ret (Err e)
  | Exit m => Ret (Exit m)
  | Panic => Ret Panic
  | Ok (ami, last) =>
  if String.eqb ami "" then Ret (Err ErrCantFindAmi) else
  let* _ := call (NewSession (Zone (cloudConfig config))) in
  try vpc := GetVPC config in
  try sg := resolveSecurityGroup config imgName vpc in
  try subnet := GetSubnet config (ec2.VpcId vpc) in
  let config :=
    if String.eqb (Flavor (cloudConfig config)) ""
    then withFlavor config "t2.micro"
    else config in
  launch config imgName ami sg subnet
  end end.

End CreateInstance.

(** ** Vocabulary of the properties *)

Definition isNameTag (tag : ec2.Tag) : bool :=
  String.eqb (aws.StringValue (ec2.Key tag)) "Name".

Definition declaresName (tag : Tag) : bool := String.eqb (Key tag) "Name".

(** The public address of an interface, when it has an association that
    carries one. *)
Definition publicIpOf (ninterface : ec2.InstanceNetworkInterface)
  : list string :=
  match ec2.Association ninterface with
  | Some assoc =>
      match ec2.PublicIp assoc with
      | Some ip => [ip]
      | None => []
      end
  | None => []
  end.

(** The request declares a security group and a network. *)
Definition declaresGroup (config : Config) : Prop :=
  SecurityGroup (runConfig config) <> "" /\ VPC (runConfig config) <> "".

(** The configuration [CreateInstance] launches with: the flavor
    defaults to "t2.micro". *)
Definition withDefaultFlavor (config : Config) : Config :=
  if String.eqb (Flavor (cloudConfig config)) ""
  then withFlavor config "t2.micro"
  else config.

(** The image [CreateInstance] is left with after the loop over the
    listed images: the last one, in list order, that matches. *)
Definition lastMatchingImage (imgName : string) (images : list ec2.Image)
  : option ec2.Image :=
  find (imageMatches imgName) (rev images).

(** ** Sorts of calls *)


Definition isAuthorizeIngress (c : Call) : Prop :=
  match c with AuthorizeSecurityGroupIngress _ _ => True | _ => False end.

Definition isCreateSecurityGroup (c : Call) : Prop :=
  match c with CreateSecurityGroup _ _ _ => True | _ => False end.

Definition isRunInstances (c : Call) : Prop :=
  match c with RunInstances _ => True | _ => False end.

Definition isDescribeVpcs (c : Call) : Prop :=
  match c with DescribeVpcs _ => True | _ => False end.

Definition isDescribeSubnets (c : Call) : Prop :=
  match c with DescribeSubnets _ => True | _ => False end.

Definition isDescribeSecurityGroups (c : Call) : Prop :=
  match c with DescribeSecurityGroups _ => True | _ => False end.

(** The calls of [CreateInstance] between the listing of the images and
    the launch. *)
Definition isSetup (c : Call) : Prop :=
  match c with
  | NewSession _ | DescribeVpcs _
  | DescribeSecurityGroups _ | CreateSecurityGroup _ _ _
  | AuthorizeSecurityGroupIngress _ _ | DescribeSubnets _ | Now => True
  | _ => False
  end.

(** The same calls when the security group is declared. *)
Definition isLookup (c : Call) : Prop :=
  match c with
  | NewSession _ | DescribeVpcs _
  | DescribeSecurityGroups _ | DescribeSubnets _ => True
  | _ => False
  end.

(** The calls of the wait for a public address of the instance tagged
    [name]. *)
Definition isPollCall (name : string) (c : Call) : Prop :=
  match c with
  | Sleep _ | NewSession _ | CreateDNSRecord _ _ => True
  | DescribeInstances filters => filters = [nameFilter name]
  | _ => False
  end.

(** The number of entries of a transcript whose call is of a given
    sort. *)
Definition count (sort : Call -> bool) (t : list Entry) : nat :=
  length (filter (fun e => sort (callOf e)) t).

Definition isDescribeTasks (c : Call) : bool :=
  match c with DescribeImportSnapshotTasks _ => true | _ => false end.

Definition isDeleteFromBucket (c : Call) : bool :=
  match c with DeleteFromBucket _ _ => true | _ => false end.

Definition isRegisterImage (c : Call) : bool :=
  match c with RegisterImage _ => true | _ => false end.

Definition isCreateDNSRecord (c : Call) : bool :=
  match c with CreateDNSRecord _ _ => true | _ => false end.


(** ** Answers recorded in a transcript *)

(** The entry is a [CreateSecurityGroup] answered with group [gid]. *)
Definition createdGroup (gid : option string) (e : Entry) : Prop :=
  match e with
  | existT _ (CreateSecurityGroup _ _ _) r => r = inr gid
  | _ => False
  end.

(** The entry is a [DescribeSecurityGroups] answered with [groups]. *)
Definition describedGroups (groups : list ec2.SecurityGroup) (e : Entry)
  : Prop :=
  match e with
  | existT _ (DescribeSecurityGroups _) r => r = inr groups
  | _ => False
  end.

(** The entry is a [DescribeImages] answered with [images]. *)
Definition describedImages (images : list ec2.Image) (e : Entry) : Prop :=
  match e with
  | existT _ (DescribeImages _) r => r = inr images
  | _ => False
  end.

(** The entry is a [RunInstances] the provider acknowledged with at
    least one instance. *)
Definition launched (e : Entry) : Prop :=
  match e with
  | existT _ (RunInstances _) r => exists i rest, r = inr (i :: rest)
  | _ => False
  end.



(** If the entry is a [RunInstances], it asks for image [ami]. *)
Definition launchesImage (ami : string) (e : Entry) : Prop :=
  match callOf e with
  | RunInstances input => ec2.RunImageId input = ami
  | _ => True
  end.

(** If the entry is a [RunInstances], the instance is put in the
    security group [sg] and in no other. *)
Definition launchesInGroup (sg : string) (e : Entry) : Prop :=
  match callOf e with
  | RunInstances input => ec2.SecurityGroupIds input = [sg]
  | _ => True
  end.


(** A listing of security groups among the setup calls [pre] is the
    listing [CheckValidSecurityGroup] asked for, and when the check did
    not pass, nothing follows the setup ([tl]) and [CreateInstance] ends
    as the check did ([R]). *)
Definition groupChecked (config : Config) (o : Oracle)
    (pre tl : list Entry) (R : outcome unit) : Prop :=
  forall groups,
    Exists (describedGroups groups) pre ->
    exists hg,
      o hg (DescribeSecurityGroups
              [aws.String (SecurityGroup (runConfig config))])
      = inr groups
      /\ match result o hg (CheckValidSecurityGroup config) with
         | Ok _ => True
         | r => tl = [] /\ R = r
         end.

(** ** Scenarios

    A provider with two networks, two subnets, one security group and
    two registered images, and the requests the examples are run on. *)

Definition vpcMain : ec2.Vpc := {| ec2.VpcId := "vpc-1"; ec2.IsDefault := true |}.
Definition vpcSide : ec2.Vpc := {| ec2.VpcId := "vpc-2"; ec2.IsDefault := false |}.

Definition subnetA : ec2.Subnet :=
  {| ec2.SubnetId := "subnet-a"; ec2.SubnetVpcId := "vpc-1";
     ec2.DefaultForAz := false |}.
Definition subnetB : ec2.Subnet :=
  {| ec2.SubnetId := "subnet-b"; ec2.SubnetVpcId := "vpc-1";
     ec2.DefaultForAz := true |}.

Definition groupWeb : ec2.SecurityGroup :=
  {| ec2.GroupId := Some "sg-web"; ec2.GroupVpcId := "vpc-1" |}.

(** Two images registered for "img-v3"; the provider lists the more
    recent one first. *)
Definition imageSeptember : ec2.Image :=
  {| ec2.ImageId := Some "ami-september";
     ec2.ImageName := Some "img-v31598954400";
     ec2.ImageTags := [nameTag "img-v3"];
     ec2.CreationDate := Some "2020-09-01T10:00:00.000Z" |}.
Definition imageJune : ec2.Image :=
  {| ec2.ImageId := Some "ami-june";
     ec2.ImageName := Some "img-v31591005600";
     ec2.ImageTags := [nameTag "img-v3"];
     ec2.CreationDate := Some "2020-06-01T10:00:00.000Z" |}.

(** A reading of the two creation dates above. *)
Definition parseDates (layout value : string) : option time.Time :=
  if String.eqb value "2020-09-01T10:00:00.000Z"
  then Some 1598954400000000000
  else if String.eqb value "2020-06-01T10:00:00.000Z"
  then Some 1591005600000000000
  else None.

Definition interfaceWith (publicIp : option string)
  : ec2.InstanceNetworkInterface :=
  {| ec2.PrivateIpAddress := Some "10.0.0.5";
     ec2.Association :=
       match publicIp with
       | Some ip => Some {| ec2.PublicIp := Some ip |}
       | None => None
       end |}.

Definition instanceWith (publicIp : option string) : ec2.Instance :=
  {| ec2.InstanceId := Some "i-0001";
     ec2.Tags := [nameTag "img-v3-1600000000"];
     ec2.StateName := Some "running";
     ec2.LaunchTime := Some 1600000000000000000;
     ec2.NetworkInterfaces := [interfaceWith publicIp] |}.

(** An instance without a "Name" tag. *)
Definition instanceUntagged : ec2.Instance :=
  {| ec2.InstanceId := Some "i-0002";
     ec2.Tags := [ {| ec2.Key := Some "env"; ec2.Value := Some "test" |} ];
     ec2.StateName := Some "running";
     ec2.LaunchTime := Some 1600000000000000000;
     ec2.NetworkInterfaces := [interfaceWith None] |}.

Definition importTask (status : string) (snapshot : option string)
  : ec2.ImportSnapshotTask :=
  {| ec2.ImportTaskId := Some "import-snap-1";
     ec2.SnapshotTaskDetail_ :=
       {| ec2.Status := Some status; ec2.SnapshotId := snapshot |} |}.

Definition hasValue (value : string) (f : ec2.Filter) : bool :=
  existsb (fun v => String.eqb (aws.StringValue v) value) (ec2.Values f).

Definition filterNamed (name : string) (f : ec2.Filter) : bool :=
  String.eqb (aws.StringValue (ec2.Name f)) name.

Definition vpcPasses (v : ec2.Vpc) (f : ec2.Filter) : bool :=
  if filterNamed "vpc-id" f then hasValue (ec2.VpcId v) f else true.

Definition subnetPasses (s : ec2.Subnet) (f : ec2.Filter) : bool :=
  if filterNamed "vpc-id" f then hasValue (ec2.SubnetVpcId s) f
  else if filterNamed "subnet-id" f then hasValue (ec2.SubnetId s) f
  else true.

(** The provider when every call succeeds: the import is completed at
    the first look, the instance has a public address at once. *)
Definition provider : Oracle := fun _ c =>
  match c as c' return Resp c' with
  | NewSession _ => None
  | ImportSnapshot _ _ => inr (Some "import-snap-1")
  | DescribeImportSnapshotTasks _ =>
      inr [importTask "completed" (Some "snap-1")]
  | DeleteFromBucket _ _ => None
  | CreateTags _ _ => None
  | RegisterImage _ => inr (Some "ami-1")
  | DescribeImages _ => inr [imageSeptember; imageJune]
  | DescribeVpcs None => inr [vpcSide; vpcMain]
  | DescribeVpcs (Some filters) =>
      inr (filter (fun v => forallb (vpcPasses v) filters) [vpcSide; vpcMain])
  | DescribeSecurityGroups ids =>
      inr (filter
             (fun g =>
                existsb
                  (fun id => String.eqb (aws.StringValue id)
                               (aws.StringValue (ec2.GroupId g)))
                  ids)
             [groupWeb])
  | CreateSecurityGroup _ _ _ => inr (Some "sg-new")
  | AuthorizeSecurityGroupIngress _ _ => None
  | DescribeSubnets filters =>
      inr (filter (fun s => forallb (subnetPasses s) filters)
             [subnetA; subnetB])
  | RunInstances _ => inr [instanceWith None]
  | DescribeInstances _ => inr [[instanceWith (Some "203.0.113.10")]]
  | TerminateInstances _ => None
  | CreateDNSRecord _ _ => None
  | Now => 1600000000000000000
  | Sleep _ => tt
  end.

(** The import task stays "active": it never reaches a terminal state. *)
Definition stalledImport : Oracle := fun h c =>
  match c as c' return Resp c' with
  | DescribeImportSnapshotTasks _ => inr [importTask "active" None]
  | c' => provider h c'
  end.

(** Every step succeeds but the tagging of the registered image. *)
Definition imageTagRefused : Oracle := fun h c =>
  match c as c' return Resp c' with
  | CreateTags resources _ =>
      if existsb (fun r => String.eqb (aws.StringValue r) "ami-1") resources
      then Some (AwsError "UnauthorizedOperation" "not authorized to tag")
      else None
  | c' => provider h c'
  end.



Definition request (tcp : list Z) (group vpc subnet domain : string)
    (tags : list Tag) : Config :=
  {| cloudConfig :=
       {| Zone := "us-west-1"; BucketName := "nanos-images";
          ImageName := "img-v3"; Flavor := "" |};
     runConfig :=
       {| SecurityGroup := group; VPC := vpc; Subnet := subnet;
          Tags := tags; DomainName := domain;
          Ports := tcp; UDPPorts := [] |} |}.

(** tcp 22 and 80, nothing else declared. *)
Definition requestA : Config := request [22; 80] "" "" "" "" [].

(** The same with a domain name. *)
Definition requestWithDomain : Config :=
  request [22; 80] "" "" "" "app.example.com" [].

(** A declared security group and network, no port. *)
Definition requestWithGroup : Config := request [] "sg-web" "vpc-1" "" "" [].

(** The declared security group exists, in another network than the
    declared one. *)
Definition requestOtherNetwork : Config :=
  request [] "sg-web" "vpc-2" "" "" [].

(** The declared security group does not exist. *)
Definition requestUnknownGroup : Config :=
  request [] "sg-gone" "vpc-1" "" "" [].


(** ** Vocabulary of the further properties *)

Module strconv_facts.
(** [strconv.Atoi] on what [strconv.Itoa] writes. *)
Definition Atoi (s : string) : option Z :=
  option_map Z.of_int (NilZero.int_of_string s).
End strconv_facts.

(** The entry is a [CreateSecurityGroup] refused with error [err]. *)
Definition groupRefused (err : sdkerr) (e : Entry) : Prop :=
  match e with
  | existT _ (CreateSecurityGroup _ _ _) r => r = inl err
  | _ => False
  end.

(** The entry is the authorization of the rules [perms] for the group
    [gid], answered [ans]. *)
Definition ingressAnswered (gid : option string)
    (perms : list ec2.IpPermission) (ans : option sdkerr) (e : Entry)
  : Prop :=
  match e with
  | existT _ (AuthorizeSecurityGroupIngress g p) r =>
      g = gid /\ p = perms /\ r = ans
  | _ => False
  end.

(** If the entry is an authorization of ingress, its rules are one per
    declared port, the TCP ports first, each for that port alone and
    open to every address. *)
Definition authorizesDeclaredPorts (config : Config) (e : Entry) : Prop :=
  match callOf e with
  | AuthorizeSecurityGroupIngress _ perms =>
      map ec2.FromPort perms
      = Ports (runConfig config) ++ UDPPorts (runConfig config)
      /\ map ec2.IpProtocol perms
         = repeat "tcp" (length (Ports (runConfig config)))
           ++ repeat "udp" (length (UDPPorts (runConfig config)))
      /\ Forall
           (fun rule =>
              ec2.ToPort rule = ec2.FromPort rule
              /\ ec2.IpRanges rule = ["0.0.0.0/0"])
           perms
      /\ perms <> []
  | _ => True
  end.

Definition isAuthorizeIngressCall (c : Call) : bool :=
  match c with AuthorizeSecurityGroupIngress _ _ => true | _ => false end.

(** The provider refuses to create a security group, with [err]. *)
Definition refusingGroups (err : sdkerr) : Oracle := fun h c =>
  match c as c' return Resp c' with
  | CreateSecurityGroup _ _ _ => inl err
  | c' => provider h c'
  end.

(** The lookup of a security group answers two groups. *)
Definition listingTwoGroups : Oracle := fun h c =>
  match c as c' return Resp c' with
  | DescribeSecurityGroups _ =>
      inr [ {| ec2.GroupId := Some "sg-web"; ec2.GroupVpcId := "vpc-9" |};
            groupWeb ]
  | c' => provider h c'
  end.

(** The same provider a second later. *)
Definition providerLater : Oracle := fun h c =>
  match c as c' return Resp c' with
  | Now => 1600000001000000000
  | c' => provider h c'
  end.


(** The calls [waitSnapshotToBeReady] issues once it has a session. *)
Definition isWaitCall (c : Call) : Prop :=
  match c with
  | DescribeImportSnapshotTasks _ | Now | Sleep _ => True
  | _ => False
  end.

(** The error a step of [CreateImage] is refused with, for the steps
    whose error [CreateImage] and [waitSnapshotToBeReady] test: opening
    a session, submitting the import, deleting the staging blob and
    registering the image. *)
Definition stepRefused (err : sdkerr) (e : Entry) : Prop :=
  match e with
  | existT _ (NewSession _) r => r = Some err
  | existT _ (ImportSnapshot _ _) r => r = inl err
  | existT _ (DeleteFromBucket _ _) r => r = Some err
  | existT _ (RegisterImage _) r => r = inl err
  | _ => False
  end.

Definition isRegisterImageCall (c : Call) : Prop :=
  match c with RegisterImage _ => True | _ => False end.

(** The import is refused at once. *)
Definition refusingImport (err : sdkerr) : Oracle := fun h c =>
  match c as c' return Resp c' with
  | ImportSnapshot _ _ => inl err
  | c' => provider h c'
  end.

(** [Checked p]: in [p], a step that is refused ends the program with
    the error of the step. *)
Inductive Checked {A : Type} : Prog (outcome A) -> Prop :=
| Checked_Ret : forall r, Checked (Ret r)
| Checked_Vis : forall c k,
    (forall r err,
        stepRefused err (entry c r) -> k r = Ret (Err (ErrSDK err))) ->
    (forall r,
        (forall err, ~ stepRefused err (entry c r)) -> Checked (k r)) ->
    Checked (Vis c k).

(** The seconds a transcript spends in [time.Sleep]. *)
Definition sleptSeconds (t : list Entry) : Z :=
  fold_right
    (fun e acc => match callOf e with Sleep d => d + acc | _ => acc end)
    0 t.

(** The calls of [waitSnapshotToBeReady] for the import task [id] of a
    request. *)
Definition isWaitCallFor (config : Config) (id : option string) (c : Call)
  : Prop :=
  match c with
  | NewSession region => region = Zone (cloudConfig config)
  | DescribeImportSnapshotTasks ids => ids = [id]
  | Now => True
  | Sleep d => d = 15
  | _ => False
  end.

Definition isRunInstancesCall (c : Call) : bool :=
  match c with RunInstances _ => true | _ => false end.







(** The instance shows up in the second reservation of the answer, with
    two interfaces, the second one public. *)
Definition listedInSecondReservation : Oracle := fun h c =>
  match c as c' return Resp c' with
  | DescribeInstances _ =>
      inr [[];
           [ {| ec2.InstanceId := Some "i-0001";
                ec2.Tags := [nameTag "img-v3-1600000000"];
                ec2.StateName := Some "running";
                ec2.LaunchTime := Some 1600000000000000000;
                ec2.NetworkInterfaces :=
                  [interfaceWith None; interfaceWith (Some "203.0.113.10")] |};
             instanceWith (Some "198.51.100.7") ]]
  | c' => provider h c'
  end.

(** ** Further listings: [GetInstances] and [GetImages] *)


(** [CloudImage], declared outside [aws.go]. *)
Module CloudImage.
Record t := {
  Name : string;
  ID : string;
  Status : string;
  Created : string
}.
End CloudImage.

Section GetImages.

(** The field [State] of an image of the SDK, which [ec2.Image] above
    does not carry. *)
Variable image_State : ec2.Image -> option string.

(** The body of the loop of [GetImages]: [*image.Name], [*image.State]
    and [*image.CreationDate] are dereferenced. *)
Definition cloudImageOf (image : ec2.Image) : outcome CloudImage.t :=
  let name :=
    match ec2.ImageTags image with
    | tag :: _ => aws.StringValue (ec2.Value tag)
    | [] => "n/a"
    end in
  match ec2.ImageName image, image_State image, ec2.CreationDate image with
  | Some id, Some status, Some created =>
      Ok {| CloudImage.Name := name;
            CloudImage.ID := id;
            CloudImage.Status := status;
            CloudImage.Created := created |}
  | _, _, _ => Panic
  end.

(** The loop of [GetImages], from the value [cimages] has when it
    reaches [images]. *)
Fixpoint eachImage (images : list ec2.Image) (cimages : list CloudImage.t)
  : outcome (list CloudImage.t) :=
  match images with
  | [] => Ok cimages
  | image :: rest =>
      match cloudImageOf image with
      | Ok cimage => eachImage rest (cimages ++ [cimage])
      | Err e => Err e
      | Exit m => Exit m
      | Panic => Panic
      end
  end.

Definition GetImages (config : Config) : Prog (outcome (list CloudImage.t)) :=
  try images := getAWSImages (Zone (cloudConfig config)) in
  Ret (eachImage images []).

End GetImages.

(** ** The DNS client: [getAWSSession] and [getDNSService]

    A session and the client made from it are represented by the region
    the session was opened for. *)

Record AWS := { dnsService : option string }.

Definition getAWSSession (config : Config) : Prog (outcome string) :=
  let* err := call (NewSession (Zone (cloudConfig config))) in
  match err with
  | Some e => Ret (Err (ErrSDK e))
  | None => Ret (Ok (Zone (cloudConfig config)))
  end.

(** [getDNSService] returns the receiver as it leaves it and its
    result. *)
Definition getDNSService (p : AWS) (config : Config)
  : Prog (AWS * outcome string) :=
  match dnsService p with
  | Some svc => Ret (p, Ok svc)
  | None =>
      let* r := getAWSSession config in
      match r with
      | Ok sess =>
          let p := {| dnsService := Some sess |} in
          Ret (p, Ok sess)
      | Err e => Ret (p, Err e)
      | Exit m => Ret (p, Exit m)
      | Panic => Ret (p, Panic)
      end
  end.

(** ** Starting and stopping instances, deleting images

    [StartInstance], [StopInstance] and [DeleteImage] use operations of
    the compute API that the functions above do not; they are programs
    over these operations. *)
Module manage.

Record InstanceStateChange := { InstanceId : option string }.
Record EbsBlockDevice := { SnapshotId : option string }.
Record BlockDeviceMapping := { Ebs : option EbsBlockDevice }.
Record Image := {
  ImageId : option string;
  BlockDeviceMappings : list BlockDeviceMapping
}.

Inductive error : Type :=
| ErrSDK (e : sdkerr)
    (* an error of a call, returned as it is *)
| ErrImageNotFound (imagename : string)
    (* "Error running deregister image operation: image %v not found" *)
| ErrDeregisterImage (cause : sdkerr)
    (* "Error running deregister image operation: %s" *)
| ErrSnapshotDelete (cause : sdkerr).
    (* "Error running snapshot delete: %s" *)

Inductive outcome (A : Type) : Type :=
| Ok (a : A)
| Err (e : error)
| Exit (msg : string)
| Panic.
Arguments Err {A} e.
Arguments Exit {A} msg.
Arguments Panic {A}.

Inductive Call : Type :=
| NewSession (region : string)
| StartInstances (instanceIds : list (option string))
| StopInstances (instanceIds : list (option string))
| DescribeImages (filters : list ec2.Filter)
| DeregisterImage (imageId : option string) (dryRun : bool)
| DeleteSnapshot (snapshotId : option string) (dryRun : bool).

Definition Resp (c : Call) : Type :=
  match c with
  | NewSession _ => option sdkerr
  | StartInstances _ => (sdkerr + list InstanceStateChange)%type
  | StopInstances _ => (sdkerr + list InstanceStateChange)%type
  | DescribeImages _ => (sdkerr + list Image)%type
  | DeregisterImage _ _ => option sdkerr
  | DeleteSnapshot _ _ => option sdkerr
  end.

Inductive Prog (A : Type) : Type :=
| Ret (a : A)
| Vis (c : Call) (k : Resp c -> Prog A).
Arguments Ret {A} a.
Arguments Vis {A} c k.

Definition Entry : Type := { c : Call & Resp c }.
Definition entry (c : Call) (r : Resp c) : Entry := existT Resp c r.
Definition callOf (e : Entry) : Call := projT1 e.
Definition Oracle : Type := list Entry -> forall c : Call, Resp c.

Fixpoint transcript {A : Type} (o : Oracle) (h : list Entry) (p : Prog A)
  : list Entry :=
  match p with
  | Ret _ => []
  | Vis c k => entry c (o h c)
               :: transcript o (h ++ [entry c (o h c)]) (k (o h c))
  end.

Fixpoint result {A : Type} (o : Oracle) (h : list Entry) (p : Prog A) : A :=
  match p with
  | Ret a => a
  | Vis c k => result o (h ++ [entry c (o h c)]) (k (o h c))
  end.

(** [exitWithError(aerr.Message())] after [aerr, ok := err.(awserr.Error)]:
    when the assertion fails [aerr] is nil and the call of its method
    panics. *)
Definition exitWithMessageOf {A : Type} (err : sdkerr) : Prog (outcome A) :=
  match err with
  | AwsError _ message => Ret (Exit message)
  | PlainError _ => Ret Panic
  end.

Definition StartInstance (config : Config) (instanceID : string)
  : Prog (outcome unit) :=
  if String.eqb instanceID "" then Ret (Exit "Enter Instance ID") else
  Vis (NewSession (Zone (cloudConfig config))) (fun err =>
  match err with
  | Some _ => Ret (Exit "Invalid region")
  | None =>
  Vis (StartInstances [aws.String instanceID]) (fun result =>
  match result with
  | inl err => exitWithMessageOf err
  | inr [] => Ret Panic            (* result.StartingInstances[0] *)
  | inr (_ :: _) => Ret (Ok tt)
  end)
  end).

Definition StopInstance (config : Config) (instanceID : string)
  : Prog (outcome unit) :=
  if String.eqb instanceID "" then Ret (Exit "Enter InstanceID") else
  Vis (NewSession (Zone (cloudConfig config))) (fun err =>
  match err with
  | Some _ => Ret (Exit "Invalid region")
  | None =>
  Vis (StopInstances [aws.String instanceID]) (fun result =>
  match result with
  | inl err => exitWithMessageOf err
  | inr [] => Ret Panic            (* result.StoppingInstances[0] *)
  | inr (_ :: _) => Ret (Ok tt)
  end)
  end).

Definition imageNameFilter (imagename : string) : ec2.Filter :=
  {| ec2.Name := aws.String "name";
     ec2.Values := aws.StringSlice [imagename] |}.

Definition DeleteImage (config : Config) (imagename : string)
  : Prog (outcome unit) :=
  Vis (NewSession (Zone (cloudConfig config))) (fun _ =>
  Vis (DescribeImages [imageNameFilter imagename]) (fun result =>
  match result with
  | inl e => Ret (Err (ErrSDK e))
  | inr [] => Ret (Err (ErrImageNotFound imagename))
  | inr (image :: _) =>
      let amiID := aws.StringValue (ImageId image) in
      (* result.Images[0].BlockDeviceMappings[0].Ebs.SnapshotId *)
      match BlockDeviceMappings image with
      | [] => Ret Panic
      | mapping :: _ =>
          match Ebs mapping with
          | None => Ret Panic
          | Some ebs =>
              let snapID := aws.StringValue (SnapshotId ebs) in
              Vis (DeregisterImage (aws.String amiID) false) (fun err =>
              match err with
              | Some e => Ret (Err (ErrDeregisterImage e))
              | None =>
                  Vis (DeleteSnapshot (aws.String snapID) false) (fun err =>
                  match err with
                  | Some e => Ret (Err (ErrSnapshotDelete e))
                  | None => Ret (Ok tt)
                  end)
              end)
          end
      end
  end)).

(** *** Sorts of calls and scenarios *)

Definition isDeleteSnapshot (c : Call) : bool :=
  match c with DeleteSnapshot _ _ => true | _ => false end.

Definition imageWithSnapshot : Image :=
  {| ImageId := Some "ami-1";
     BlockDeviceMappings :=
       [ {| Ebs := Some {| SnapshotId := Some "snap-1" |} |} ] |}.

Definition imageWithoutMapping : Image :=
  {| ImageId := Some "ami-2"; BlockDeviceMappings := [] |}.

(** Every call is accepted; one image carries the name. *)
Definition provider : Oracle := fun _ c =>
  match c as c' return Resp c' with
  | NewSession _ => None
  | StartInstances ids =>
      inr (map (fun id => {| InstanceId := id |}) ids)
  | StopInstances ids =>
      inr (map (fun id => {| InstanceId := id |}) ids)
  | DescribeImages _ => inr [imageWithSnapshot; imageWithoutMapping]
  | DeregisterImage _ _ => None
  | DeleteSnapshot _ _ => None
  end.


End manage.

(** An image state for the scenarios. *)
Definition stateAvailable (image : ec2.Image) : option string :=
  Some "available".

(** The entry is a start or a stop that the provider answered with at
    least one instance. *)
Definition stateChangeAcknowledged (e : manage.Entry) : Prop :=
  match e with
  | existT _ (manage.StartInstances _) (inr (_ :: _)) => True
  | existT _ (manage.StopInstances _) (inr (_ :: _)) => True
  | _ => False
  end.

(** * Properties *)

Unset Implicit Arguments.

(** ** Running a sequence *)

Lemma transcript_bind {A B : Type} (o : Oracle) (p : Prog A)
    (f : A -> Prog B) :
  forall h,
    transcript o h (bind p f)
    = transcript o h p
      ++ transcript o (h ++ transcript o h p) (f (result o h p)).
Proof.
  induction p as [a | c k IH]; intros h; simpl.
  - now rewrite app_nil_r.
  - rewrite IH, <- app_assoc. reflexivity.
Qed.

Lemma result_bind {A B : Type} (o : Oracle) (p : Prog A) (f : A -> Prog B) :
  forall h,
    result o h (bind p f)
    = result o (h ++ transcript o h p) (f (result o h p)).
Proof.
  induction p as [a | c k IH]; intros h; simpl.
  - now rewrite app_nil_r.
  - rewrite IH, <- app_assoc. reflexivity.
Qed.

Lemma transcript_andThen {A B : Type} (o : Oracle)
    (p : Prog (outcome A)) (f : A -> Prog (outcome B)) (h : list Entry) :
  transcript o h (andThen p f)
  = transcript o h p
    ++ match result o h p with
       | Ok a => transcript o (h ++ transcript o h p) (f a)
       | _ => []
       end.
Proof.
  unfold andThen. rewrite transcript_bind.
  destruct (result o h p); reflexivity.
Qed.

Lemma result_andThen {A B : Type} (o : Oracle)
    (p : Prog (outcome A)) (f : A -> Prog (outcome B)) (h : list Entry) :
  result o h (andThen p f)
  = match result o h p with
    | Ok a => result o (h ++ transcript o h p) (f a)
    | Err e => Err e
    | Exit m => Exit m
    | Panic => Panic
    end.
Proof.
  unfold andThen. rewrite result_bind.
  destruct (result o h p); reflexivity.
Qed.

(** ** Calls a program can issue *)

Lemma Issues_impl {A : Type} (P Q : Call -> Prop) (p : Prog A) :
  (forall c, P c -> Q c) -> Issues P p -> Issues Q p.
Proof.
  intros HPQ H. induction H; constructor; auto.
Qed.

Lemma Issues_bind {A B : Type} (P : Call -> Prop) (p : Prog A)
    (f : A -> Prog B) :
  Issues P p -> (forall a, Issues P (f a)) -> Issues P (bind p f).
Proof.
  intros Hp Hf. induction Hp; simpl; [apply Hf | constructor; auto].
Qed.

Lemma Issues_andThen {A B : Type} (P : Call -> Prop)
    (p : Prog (outcome A)) (f : A -> Prog (outcome B)) :
  Issues P p -> (forall a, Issues P (f a)) -> Issues P (andThen p f).
Proof.
  intros Hp Hf. apply Issues_bind; [exact Hp |].
  intros [a | e | m |]; [apply Hf | constructor ..].
Qed.

Lemma Issues_transcript {A : Type} (P : Call -> Prop) (p : Prog A)
    (o : Oracle) :
  Issues P p -> forall h, Forall (fun e => P (callOf e)) (transcript o h p).
Proof.
  induction 1 as [a | c k Hc Hk IH]; intros h; simpl; constructor; auto.
Qed.

(** Solves [Issues P p] for a program [p] without loops, once [P] is
    unfolded enough for [auto] to prove it of each call. *)
Ltac issues :=
  repeat
    (match goal with
     | |- Issues _ (andThen _ _) => apply Issues_andThen
     | |- Issues _ (bind _ _) => apply Issues_bind
     | |- Issues _ (Vis _ _) => apply Issues_Vis
     | |- Issues _ (Ret _) => apply Issues_Ret
     | |- Issues _ (call _) => unfold call
     | |- Issues _ (match ?x with _ => _ end) => destruct x
     | |- Issues _ (if ?x then _ else _) => destruct x
     | |- forall _, _ => intro
     end; cbn beta iota).

(** ** Tags and the description of an instance *)

Lemma instanceName_fold (tags : list ec2.Tag) :
  forall init,
    fold_left
      (fun instanceName tag =>
         if String.eqb (aws.StringValue (ec2.Key tag)) "Name"
         then aws.StringValue (ec2.Value tag)
         else instanceName)
      tags init
    = match find isNameTag (rev tags) with
      | Some tag => aws.StringValue (ec2.Value tag)
      | None => init
      end.
Proof.
  induction tags as [| tag tags IH] using rev_ind; intros init.
  - reflexivity.
  - rewrite fold_left_app, rev_app_distr. simpl. unfold isNameTag at 1.
    destruct (String.eqb (aws.StringValue (ec2.Key tag)) "Name");
      [reflexivity | apply IH].
Qed.

Lemma addInterface_fold (interfaces : list ec2.InstanceNetworkInterface) :
  forall privateIps publicIps,
    fold_left addInterface interfaces (privateIps, publicIps)
    = (privateIps
         ++ map (fun n => aws.StringValue (ec2.PrivateIpAddress n)) interfaces,
       publicIps ++ flat_map publicIpOf interfaces).
Proof.
  induction interfaces as [| n interfaces IH]; intros privateIps publicIps.
  - simpl. now rewrite !app_nil_r.
  - simpl. unfold publicIpOf at 1.
    destruct (ec2.Association n) as [assoc |];
      [destruct (ec2.PublicIp assoc) |];
      rewrite IH, <- ?app_assoc; reflexivity.
Qed.

(** C10.  The name of the [CloudInstance] made from an instance is the
    value of the last tag, in tag order, whose key is "Name", and the
    literal "unknown" when the instance has no such tag.  Its private
    addresses are those of all the interfaces, in order; its public
    addresses are those of the interfaces that have an association with
    a public address. *)
Theorem formalizeAWSInstance_name_and_addresses (instance : ec2.Instance) :
  Name (formalizeAWSInstance instance)
  = match find isNameTag (rev (ec2.Tags instance)) with
    | Some tag => aws.StringValue (ec2.Value tag)
    | None => "unknown"
    end
  /\ (find isNameTag (ec2.Tags instance) = None ->
      Name (formalizeAWSInstance instance) = "unknown")
  /\ PrivateIps (formalizeAWSInstance instance)
     = map (fun n => aws.StringValue (ec2.PrivateIpAddress n))
         (ec2.NetworkInterfaces instance)
  /\ PublicIps (formalizeAWSInstance instance)
     = flat_map publicIpOf (ec2.NetworkInterfaces instance).
Proof.
  unfold formalizeAWSInstance.
  rewrite (addInterface_fold (ec2.NetworkInterfaces instance) [] []).
  simpl. unfold instanceNameOf. rewrite instanceName_fold.
  repeat split.
  intros Hnone.
  destruct (find isNameTag (rev (ec2.Tags instance))) as [tag |] eqn:Hrev;
    [| reflexivity].
  apply find_some in Hrev. destruct Hrev as [Hin Htag].
  apply in_rev in Hin.
  now rewrite (find_none _ _ Hnone _ Hin) in Htag.
Qed.

Lemma parseToAWSTags_fold (configTags : list Tag) :
  forall tags nameSpecified name,
    fold_left parseToAWSTags_step configTags (tags, nameSpecified, name)
    = (tags ++ map toAWSTag configTags,
       match find declaresName (rev configTags) with
       | Some _ => true
       | None => nameSpecified
       end,
       match find declaresName (rev configTags) with
       | Some tag => Value tag
       | None => name
       end).
Proof.
  induction configTags as [| tag configTags IH] using rev_ind;
    intros tags nameSpecified name.
  - simpl. now rewrite app_nil_r.
  - rewrite fold_left_app, rev_app_distr, IH, map_app, app_assoc.
    cbn [fold_left parseToAWSTags_step map rev app find].
    fold (declaresName tag).
    destruct (declaresName tag); reflexivity.
Qed.

(** What [parseToAWSTags] returns, by the last declared "Name" tag. *)
Lemma parseToAWSTags_by_last_name (configTags : list Tag) (defaultName : string) :
  parseToAWSTags configTags defaultName
  = match find declaresName (rev configTags) with
    | Some tag => (map toAWSTag configTags, Value tag)
    | None => (map toAWSTag configTags ++ [nameTag defaultName], defaultName)
    end.
Proof.
  unfold parseToAWSTags. rewrite parseToAWSTags_fold. simpl.
  destruct (find declaresName (rev configTags)); reflexivity.
Qed.

(** ** Network resolution *)

Lemma selectDefaultVpc_fold_none (vpcs : list ec2.Vpc) :
  Forall (fun v => ec2.IsDefault v = false) vpcs ->
  forall init,
    fold_left (fun vpc s => if ec2.IsDefault s then Some s else vpc) vpcs init
    = init.
Proof.
  induction 1 as [| v vpcs Hv _ IH]; intros init; simpl.
  - reflexivity.
  - rewrite Hv. apply IH.
Qed.

Lemma selectDefaultVpc_unique (before after : list ec2.Vpc) (d : ec2.Vpc) :
  ec2.IsDefault d = true ->
  Forall (fun v => ec2.IsDefault v = false) after ->
  selectDefaultVpc (before ++ d :: after) = Some d.
Proof.
  intros Hd Hafter. unfold selectDefaultVpc.
  rewrite fold_left_app. simpl. rewrite Hd.
  now apply selectDefaultVpc_fold_none.
Qed.

Lemma selectDefaultVpc_In (vpcs : list ec2.Vpc) (v : ec2.Vpc) :
  selectDefaultVpc vpcs = Some v -> In v vpcs.
Proof.
  unfold selectDefaultVpc.
  induction vpcs as [| s vpcs IH] using rev_ind; [discriminate |].
  rewrite fold_left_app. simpl. intros H. apply in_or_app.
  destruct (ec2.IsDefault s); [right; left; congruence | left; auto].
Qed.

(** C6.  With an explicit network id that the provider answers with the
    networks carrying that id, [GetVPC] returns a network with that id or
    fails with a NotFound error.  With no id, when the provider lists at
    least one network, [GetVPC] returns one of the listed networks (it
    does not fail), and it returns the network flagged default when
    exactly one is flagged. *)
Theorem GetVPC_resolution (config : Config) (o : Oracle) (h : list Entry)
    (nets : list ec2.Vpc) :
  let id := VPC (runConfig config) in
  (id <> "" ->
   o h (DescribeVpcs (Some [vpcFilter id]))
   = inr (filter (fun v => String.eqb (ec2.VpcId v) id) nets) ->
   (exists v, result o h (GetVPC config) = Ok v
              /\ In v nets /\ ec2.VpcId v = id)
   \/ (exists e, result o h (GetVPC config) = Err e /\ kind e = NotFound))
  /\ (id = "" ->
      o h (DescribeVpcs None) = inr nets ->
      nets <> [] ->
      (exists v, result o h (GetVPC config) = Ok v /\ In v nets)
      /\ forall before d after,
           nets = before ++ d :: after ->
           ec2.IsDefault d = true ->
           Forall (fun v => ec2.IsDefault v = false) (before ++ after) ->
           result o h (GetVPC config) = Ok d).
Proof.
  intros id. subst id. unfold GetVPC. split.
  - intros Hid Hans. apply String.eqb_neq in Hid. rewrite Hid. simpl.
    rewrite Hans.
    destruct (filter _ nets) as [| first rest] eqn:Hf.
    + right. eexists. split; reflexivity.
    + left. exists first.
      assert (Hin : In first (filter
                (fun v => String.eqb (ec2.VpcId v) (VPC (runConfig config)))
                nets)) by (rewrite Hf; now left).
      apply filter_In in Hin. destruct Hin as [Hin Heq].
      apply String.eqb_eq in Heq. auto.
  - intros Hid Hans Hne. rewrite Hid. simpl. rewrite Hans.
    destruct nets as [| first rest]; [contradiction |].
    split.
    + destruct (selectDefaultVpc (first :: rest)) as [v |] eqn:Hsel.
      * exists v. split; [reflexivity | now apply selectDefaultVpc_In].
      * exists first. split; [reflexivity | now left].
    + intros before d after Hnets Hd Hothers.
      apply Forall_app in Hothers. destruct Hothers as [_ Hafter].
      rewrite Hnets, selectDefaultVpc_unique by assumption.
      reflexivity.
Qed.

(** ** Selection of the image *)

Lemma find_after {A : Type} (f : A -> bool) (l1 l2 : list A) :
  find f (l1 ++ l2)
  = match find f l1 with
    | Some x => Some x
    | None => find f l2
    end.
Proof.
  induction l1 as [| x l1 IH]; simpl; [reflexivity |].
  destruct (f x); [reflexivity | exact IH].
Qed.

Lemma scanImages_last
    (parse : string -> string -> option time.Time) (imgName : string)
    (images : list ec2.Image) :
  forall ami0 last0 ami last,
    scanImages parse imgName images ami0 last0 = Ok (ami, last) ->
    ami = match lastMatchingImage imgName images with
          | Some image => aws.StringValue (ec2.ImageId image)
          | None => ami0
          end.
Proof.
  unfold lastMatchingImage.
  induction images as [| image images IH]; intros ami0 last0 ami last H.
  - simpl in *. congruence.
  - simpl in H. simpl rev. rewrite find_after.
    destruct (imageMatches imgName image) eqn:Hm.
    + destruct (parse layout _) as [t |]; [| discriminate].
      apply IH in H. rewrite H.
      destruct (find (imageMatches imgName) (rev images));
        [reflexivity | simpl; now rewrite Hm].
    + apply IH in H. rewrite H.
      destruct (find (imageMatches imgName) (rev images));
        [reflexivity | simpl; now rewrite Hm].
Qed.

Lemma Exists_Forall_absurd {A : Type} (P Q : A -> Prop) (l : list A) :
  Forall Q l -> (forall a, P a -> Q a -> False) -> ~ Exists P l.
Proof.
  intros HQ Habs HP. apply Exists_exists in HP.
  destruct HP as (a & Hin & Ha).
  rewrite Forall_forall in HQ. eauto.
Qed.

(** ** The stages of [CreateInstance] *)

Lemma getAWSImages_run (o : Oracle) (h : list Entry) (region : string) :
  let r0 := o h (NewSession region) in
  let ans :=
    o (h ++ [entry (NewSession region) r0])
      (DescribeImages [aws.String "self"]) in
  transcript o h (getAWSImages region)
  = [entry (NewSession region) r0;
     entry (DescribeImages [aws.String "self"]) ans]
  /\ result o h (getAWSImages region)
     = match ans with
       | inl e => Err (ErrSDK e)
       | inr images => Ok images
       end.
Proof.
  simpl. unfold getAWSImages. simpl.
  destruct (o _ (DescribeImages _)); split; reflexivity.
Qed.

Lemma GetVPC_issues (config : Config) : Issues isLookup (GetVPC config).
Proof. unfold GetVPC. issues; exact I. Qed.

Lemma GetSubnet_issues (config : Config) (vpcID : string) :
  Issues isLookup (GetSubnet config vpcID).
Proof. unfold GetSubnet. issues; exact I. Qed.

Lemma CheckValidSecurityGroup_issues (config : Config) :
  Issues isLookup (CheckValidSecurityGroup config).
Proof. unfold CheckValidSecurityGroup. issues; exact I. Qed.

Lemma CreateSG_issues (config : Config) (imgName vpcID : string) :
  Issues isSetup (CreateSG config imgName vpcID).
Proof. unfold CreateSG. issues; exact I. Qed.

Lemma isLookup_isSetup (c : Call) : isLookup c -> isSetup c.
Proof. destruct c; simpl; auto. Qed.

Lemma resolveSecurityGroup_issues (config : Config) (imgName : string)
    (vpc : ec2.Vpc) :
  Issues isSetup (resolveSecurityGroup config imgName vpc).
Proof.
  unfold resolveSecurityGroup.
  destruct (_ && _).
  - apply Issues_andThen; [| intros; constructor].
    eapply Issues_impl;
      [apply isLookup_isSetup | apply CheckValidSecurityGroup_issues].
  - apply CreateSG_issues.
Qed.

Lemma CheckValidSecurityGroup_run (config : Config) (o : Oracle)
    (h : list Entry) :
  let sg := SecurityGroup (runConfig config) in
  let vpc := VPC (runConfig config) in
  let ans := o h (DescribeSecurityGroups [aws.String sg]) in
  transcript o h (CheckValidSecurityGroup config)
  = [entry (DescribeSecurityGroups [aws.String sg]) ans]
  /\ result o h (CheckValidSecurityGroup config)
     = match ans with
       | inl e => Err (ErrGetSecurityGroup sg e)
       | inr [] => Err (ErrSecurityGroupNotFound sg)
       | inr [g] =>
           if String.eqb (ec2.GroupVpcId g) vpc
           then Ok tt
           else Err (ErrVpcMismatch sg vpc (ec2.GroupVpcId g))
       | inr (_ :: _ :: _) => Ok tt
       end.
Proof.
  unfold CheckValidSecurityGroup. simpl.
  destruct (o h _) as [e | [| g [| g' groups]]]; simpl; auto.
  destruct (String.eqb (ec2.GroupVpcId g) (VPC (runConfig config)));
    simpl; auto.
Qed.

Lemma GetVPC_issues_vpcs (config : Config) :
  Issues isDescribeVpcs (GetVPC config).
Proof. unfold GetVPC. issues; exact I. Qed.

Lemma GetSubnet_issues_subnets (config : Config) (vpcID : string) :
  Issues isDescribeSubnets (GetSubnet config vpcID).
Proof. unfold GetSubnet. issues; exact I. Qed.

Lemma resolveSecurityGroup_declared_run (config : Config) (imgName : string)
    (vpc : ec2.Vpc) (o : Oracle) (h : list Entry) :
  declaresGroup config ->
  transcript o h (resolveSecurityGroup config imgName vpc)
  = transcript o h (CheckValidSecurityGroup config)
  /\ result o h (resolveSecurityGroup config imgName vpc)
     = match result o h (CheckValidSecurityGroup config) with
       | Ok _ => Ok (SecurityGroup (runConfig config))
       | Err e => Err e
       | Exit m => Exit m
       | Panic => Panic
       end.
Proof.
  intros [Hsg Hvpc]. unfold resolveSecurityGroup.
  apply String.eqb_neq in Hsg, Hvpc. rewrite Hsg, Hvpc.
  cbn [negb andb]. rewrite transcript_andThen, result_andThen.
  destruct (result o h (CheckValidSecurityGroup config));
    cbn [transcript result]; rewrite app_nil_r; split; reflexivity.
Qed.

Lemma groupChecked_stage (config : Config) (o : Oracle) (zone : string)
    (r3 : Resp (NewSession zone)) (tv tg ts tl hg : list Entry)
    (R : outcome unit) :
  Forall (fun e => isDescribeVpcs (callOf e)) tv ->
  Forall (fun e => isDescribeSubnets (callOf e)) ts ->
  tg = [] \/
  (tg = transcript o hg (CheckValidSecurityGroup config)
   /\ match result o hg (CheckValidSecurityGroup config) with
      | Ok _ => True
      | r => tl = [] /\ R = r
      end) ->
  groupChecked config o (entry (NewSession zone) r3 :: tv ++ tg ++ ts) tl R.
Proof.
  intros Hv Hs Hg groups HE.
  apply Exists_cons in HE. destruct HE as [[] | HE].
  apply Exists_app in HE. destruct HE as [HE | HE].
  { exfalso. revert HE. apply (Exists_Forall_absurd _ _ _ Hv).
    intros [c r] Hd Hc. destruct c; simpl in *; contradiction. }
  apply Exists_app in HE. destruct HE as [HE | HE].
  - destruct Hg as [-> | [-> Hres]]; [inversion HE |].
    destruct (CheckValidSecurityGroup_run config o hg) as [Ht _].
    cbv zeta in Ht. rewrite Ht in HE.
    apply Exists_cons in HE. destruct HE as [HE | HE]; [| inversion HE].
    exists hg. split; [exact HE | exact Hres].
  - exfalso. revert HE. apply (Exists_Forall_absurd _ _ _ Hs).
    intros [c r] Hd Hc. destruct c; simpl in *; contradiction.
Qed.

Lemma resolveSecurityGroup_declared (config : Config) (imgName : string)
    (vpc : ec2.Vpc) (o : Oracle) (h : list Entry) :
  declaresGroup config ->
  Forall (fun e => isLookup (callOf e))
    (transcript o h (resolveSecurityGroup config imgName vpc))
  /\ forall sg,
       result o h (resolveSecurityGroup config imgName vpc) = Ok sg ->
       sg = SecurityGroup (runConfig config).
Proof.
  intros [Hsg Hvpc]. unfold resolveSecurityGroup.
  apply String.eqb_neq in Hsg, Hvpc. rewrite Hsg, Hvpc.
  cbn [negb andb]. split.
  - apply Issues_transcript.
    apply Issues_andThen;
      [apply CheckValidSecurityGroup_issues | intros; constructor].
  - intros sg. rewrite result_andThen.
    destruct (result o h (CheckValidSecurityGroup config));
      simpl; congruence.
Qed.

(** The calls of a prefix of the setup are setup calls. *)
Ltac setup_calls :=
  try (let D := fresh "D" in
       intros D;
       match goal with
       | Hd : declaresGroup _ -> _ /\ _ |- _ => destruct (Hd D) as [? _]
       | _ => idtac
       end);
  repeat first
    [ exact I | assumption | apply Forall_nil
    | apply Forall_cons | apply Forall_app; split
    | match goal with
      | Hweak' : forall t, Forall _ t -> Forall _ t |- _ =>
          apply Hweak'; assumption
      end ].

(** [CreateInstance] stopped before the launch. *)
(** The listing of the security groups, if [CreateInstance] came to it,
    is that of the check. *)
Ltac group_stage :=
  let D := fresh "D" in
  intros D;
  match goal with
  | |- groupChecked _ _ [] _ _ =>
      let HE := fresh "HE" in intros ? HE; inversion HE
  | Hsg : result ?o ?hist (resolveSecurityGroup ?config ?imgName ?vpc) = _
    |- groupChecked _ _ (?e :: ?tv ++ ?tg ++ ?ts) _ _ =>
      let Et := fresh "Et" in
      let Hrel := fresh "Hrel" in
      destruct (resolveSecurityGroup_declared_run config imgName vpc o hist D)
        as [Et Hrel];
      apply groupChecked_stage with (hg := hist);
      [ assumption
      | first [assumption | apply Forall_nil]
      | right; split; [congruence |];
        rewrite Hsg in Hrel;
        destruct (result o hist (CheckValidSecurityGroup config));
        try discriminate Hrel; try exact I;
        try (split; [reflexivity | congruence]) ]
  | |- groupChecked _ _ (?e :: ?tv ++ [] ++ []) _ _ =>
      apply groupChecked_stage with (hg := []);
      [assumption | apply Forall_nil | left; reflexivity]
  end.

(** [CreateInstance] stopped before the launch. *)
Ltac stopped :=
  split; [rewrite ?app_nil_r; reflexivity |];
  split; [rewrite ?app_nil_r; setup_calls |];
  split; [rewrite ?app_nil_r; setup_calls |];
  split; [group_stage |];
  left; split; [reflexivity | discriminate].

(** How [CreateInstance] runs: it lists the images, then issues setup
    calls only, and either stops there without success or goes on as
    [launch] does, with the image the scan of the list ended on. *)
Lemma CreateInstance_shape
    (parse : string -> string -> option time.Time) (config : Config)
    (o : Oracle) (h : list Entry) :
  let zone := Zone (cloudConfig config) in
  let imgName := ImageName (cloudConfig config) in
  exists r0 ans pre tl,
    transcript o h (CreateInstance parse config)
    = entry (NewSession zone) r0
      :: entry (DescribeImages [aws.String "self"]) ans :: pre ++ tl
    /\ Forall (fun e => isSetup (callOf e)) pre
    /\ (declaresGroup config -> Forall (fun e => isLookup (callOf e)) pre)
    /\ (declaresGroup config ->
        groupChecked config o pre tl
          (result o h (CreateInstance parse config)))
    /\ ((tl = [] /\ result o h (CreateInstance parse config) <> Ok tt)
        \/ exists images ami last sg subnet hl,
             ans = inr images
             /\ scanImages parse imgName images "" time.zero = Ok (ami, last)
             /\ (declaresGroup config -> sg = SecurityGroup (runConfig config))
             /\ tl = transcript o hl
                       (launch (withDefaultFlavor config) imgName ami sg subnet)
             /\ result o h (CreateInstance parse config)
                = result o hl
                    (launch (withDefaultFlavor config) imgName ami sg subnet)).
Proof.
  intros zone imgName. unfold CreateInstance.
  rewrite transcript_bind, result_bind.
  destruct (getAWSImages_run o h zone) as [Ht Hr].
  fold zone imgName. rewrite Ht, Hr. clear Ht Hr.
  set (r0 := o h (NewSession zone)).
  set (ans := o _ (DescribeImages _)).
  exists r0, ans. cbn [app].
  pose proof (@isLookup_isSetup) as Hweak.
  assert (Hweak' : forall t, Forall (fun e => isLookup (callOf e)) t ->
                             Forall (fun e => isSetup (callOf e)) t).
  { intros t. apply Forall_impl. intros a. apply Hweak. }
  destruct ans as [e | images] eqn:Hans.
  { exists [], []. cbn. stopped. }
  destruct (scanImages parse imgName images "" time.zero)
    as [[ami last] | e | m |] eqn:Hscan;
    try (exists [], []; cbn; stopped).
  destruct (String.eqb ami "") eqn:Hami.
  { exists [], []. cbn. stopped. }
  unfold call. cbn [bind transcript result].
  fold (withDefaultFlavor config).
  match goal with
  | |- context [transcript o (?h3 ++ [entry (NewSession zone) ?r])
                  (andThen (GetVPC config) _)] =>
      set (r3 := r); set (hv := h3 ++ [entry (NewSession zone) r3])
  end.
  rewrite transcript_andThen, result_andThen.
  pose proof (Issues_transcript _ _ o (GetVPC_issues config) hv) as Hv.
  pose proof (Issues_transcript _ _ o (GetVPC_issues_vpcs config) hv) as Hv'.
  remember (transcript o hv (GetVPC config)) as tv eqn:Etv in *.
  destruct (result o hv (GetVPC config)) as [vpc | e | m |] eqn:Hvpc;
    try (exists (entry (NewSession zone) r3 :: tv ++ [] ++ []), []; stopped).
  rewrite transcript_andThen, result_andThen.
  pose proof (Issues_transcript _ _ o
                (resolveSecurityGroup_issues config imgName vpc) (hv ++ tv))
    as Hg.
  pose proof (@resolveSecurityGroup_declared config imgName vpc o (hv ++ tv))
    as Hd.
  remember (transcript o (hv ++ tv)
              (resolveSecurityGroup config imgName vpc)) as tg eqn:Etg in *.
  destruct (result o (hv ++ tv) (resolveSecurityGroup config imgName vpc))
    as [sg | e | m |] eqn:Hsg;
    try (exists (entry (NewSession zone) r3 :: tv ++ tg ++ []), []; stopped).
  rewrite transcript_andThen, result_andThen.
  pose proof (Issues_transcript _ _ o (GetSubnet_issues config (ec2.VpcId vpc))
                ((hv ++ tv) ++ tg)) as Hs.
  pose proof (Issues_transcript _ _ o
                (GetSubnet_issues_subnets config (ec2.VpcId vpc))
                ((hv ++ tv) ++ tg)) as Hs'.
  remember (transcript o ((hv ++ tv) ++ tg)
              (GetSubnet config (ec2.VpcId vpc))) as ts eqn:Ets in *.
  destruct (result o ((hv ++ tv) ++ tg) (GetSubnet config (ec2.VpcId vpc)))
    as [subnet | e | m |] eqn:Hsub;
    try (exists (entry (NewSession zone) r3 :: tv ++ tg ++ ts), []; stopped).
  exists (entry (NewSession zone) r3 :: tv ++ tg ++ ts).
  exists (transcript o (((hv ++ tv) ++ tg) ++ ts)
            (launch (withDefaultFlavor config) imgName ami sg subnet)).
  split; [| split; [setup_calls | split; [setup_calls | split; [group_stage |]]]].
  - cbn [app]. rewrite <- !app_assoc. reflexivity.
  - right. exists images, ami, last, sg, subnet, (((hv ++ tv) ++ tg) ++ ts).
    repeat split; auto.
    intros D. apply (proj2 (Hd D)). reflexivity.
Qed.

(** ** The launch and the wait for a public address *)

Lemma pollPublicIp_issues (config : Config) (name : string) (n : nat) :
  Issues (isPollCall name) (pollPublicIp config name n).
Proof.
  induction n as [| n IH]; simpl; [constructor |].
  unfold GetInstanceByID, getAWSInstances, andThen. simpl.
  issues; try exact I; try reflexivity; exact IH.
Qed.


Lemma launch_run (config : Config) (imgName ami sg : string)
    (subnet : ec2.Subnet) (o : Oracle) (h : list Entry) :
  let now := o h Now in
  let tn :=
    parseToAWSTags (Tags (runConfig config))
      (imgName ++ "-" ++ strconv.Itoa (time.Unix now))%string in
  let input := runInstancesInput config ami sg subnet (fst tn) in
  let h1 := h ++ [entry Now now] in
  let ans := o h1 (RunInstances input) in
  let h2 := h1 ++ [entry (RunInstances input) ans] in
  let polls :=
    match ans with
    | inr (_ :: _) => negb (String.eqb (DomainName (runConfig config)) "")
    | _ => false
    end in
  transcript o h (launch config imgName ami sg subnet)
  = entry Now now :: entry (RunInstances input) ans
    :: (if polls
        then transcript o h2 (pollPublicIp config (snd tn) 60)
        else [])
  /\ result o h (launch config imgName ami sg subnet)
     = match ans with
       | inl e => Err (ErrSDK e)
       | inr [] => Panic
       | inr (_ :: _) =>
           if polls
           then result o h2 (pollPublicIp config (snd tn) 60)
           else Ok tt
       end.
Proof.
  unfold launch. cbn [bind call transcript result].
  destruct (parseToAWSTags _ _) as [tags name].
  cbn [bind call transcript result fst snd].
  destruct (o _ (RunInstances _)) as [e | [| i rest]];
    [split; reflexivity .. |].
  destruct (negb _); split; reflexivity.
Qed.

(** A property of entries holds of every entry of [launch] as soon as
    it holds of the reading of the clock, of the launch and of the calls
    of the wait, whatever these are answered. *)
Lemma launch_entries (config : Config) (imgName ami sg : string)
    (subnet : ec2.Subnet) (o : Oracle) (h : list Entry)
    (P : Entry -> Prop) :
  (forall r, P (entry Now r)) ->
  (forall tags r,
      P (entry (RunInstances (runInstancesInput config ami sg subnet tags))
           r)) ->
  (forall name c r, isPollCall name c -> P (existT Resp c r)) ->
  Forall P (transcript o h (launch config imgName ami sg subnet)).
Proof.
  intros HNow HRun HPoll.
  destruct (launch_run config imgName ami sg subnet o h) as [HtL _].
  cbv zeta in HtL. rewrite HtL. clear HtL.
  constructor; [apply HNow |]. constructor; [apply HRun |].
  match goal with
  | |- Forall _ (if ?b then _ else _) => destruct b; [| constructor]
  end.
  match goal with
  | |- Forall _ (transcript o ?hh (pollPublicIp ?cfg ?name ?n)) =>
      pose proof (Issues_transcript _ _ o (pollPublicIp_issues cfg name n) hh)
        as Hp
  end.
  revert Hp. apply Forall_impl. intros [c r] Hc. eapply HPoll. exact Hc.
Qed.

(** ** Image import *)

(** C1.  An import task that stays "active" uses up the 60 attempts of
    the waiter, which ends with its "exceeded wait attempts" error; yet
    [CreateImage], run on that task, deletes the staging blob, goes on to
    register an image and returns no error: the verdict of the waiter
    is not read. *)
Theorem CreateImage_drops_wait_timeout :
  result stalledImport []
    (request.WaitWithContext snapshotWaiter [Some "import-snap-1"])
  = Some (request.WaiterResourceNotReady "exceeded wait attempts")
  /\ count isDescribeTasks
       (transcript stalledImport []
          (request.WaitWithContext snapshotWaiter [Some "import-snap-1"]))
     = 60%nat
  /\ result stalledImport [] (CreateImage requestA) = Ok tt
  /\ count isDeleteFromBucket
       (transcript stalledImport [] (CreateImage requestA))
     = 1%nat
  /\ count isRegisterImage
       (transcript stalledImport [] (CreateImage requestA))
     = 1%nat.
Proof.
  split; [vm_compute; reflexivity |].
  split; [vm_compute; reflexivity |].
  split; [vm_compute; reflexivity |].
  split; vm_compute; reflexivity.
Qed.

(** C3.  When every step of the import succeeds but the last one, the
    tagging of the registered image, which the provider refuses,
    [CreateImage] still returns no error. *)
Theorem CreateImage_drops_image_tag_error :
  last (transcript imageTagRefused [] (CreateImage requestA))
    (entry Now 0)
  = entry (CreateTags [Some "ami-1"] [nameTag "img-v3"])
      (Some (AwsError "UnauthorizedOperation" "not authorized to tag"))
  /\ result imageTagRefused [] (CreateImage requestA) = Ok tt.
Proof.
  split; vm_compute; reflexivity.
Qed.

(** ** Subnet resolution *)


(** Without a subnet hint, the first listed subnet is returned, whatever
    the flags. *)
Lemma GetSubnet_without_hint (config : Config) (vpcID : string) (o : Oracle)
    (h : list Entry) (first : ec2.Subnet) (rest : list ec2.Subnet) :
  Subnet (runConfig config) = "" ->
  o h (DescribeSubnets [vpcFilter vpcID]) = inr (first :: rest) ->
  result o h (GetSubnet config vpcID) = Ok first.
Proof.
  intros Hhint Hans. unfold GetSubnet. rewrite Hhint. simpl.
  rewrite Hans. reflexivity.
Qed.

(** C5.  With no subnet hint and two subnets left in the network, the
    second of which is flagged default for its availability zone,
    [GetSubnet] returns the first one, which is not flagged. *)
Theorem GetSubnet_without_hint_skips_default :
  Subnet (runConfig requestA) = ""
  /\ transcript provider [] (GetSubnet requestA "vpc-1")
     = [entry (DescribeSubnets [vpcFilter "vpc-1"]) (inr [subnetA; subnetB])]
  /\ ec2.DefaultForAz subnetA = false
  /\ ec2.DefaultForAz subnetB = true
  /\ result provider [] (GetSubnet requestA "vpc-1") = Ok subnetA.
Proof.
  split; [reflexivity |].
  split; [vm_compute; reflexivity |].
  split; [reflexivity |].
  split; [reflexivity |].
  vm_compute; reflexivity.
Qed.

(** ** Calls of [CreateInstance] *)


Lemma launch_issues (config : Config) (imgName ami sg : string)
    (subnet : ec2.Subnet) (P : Call -> Prop) :
  P Now ->
  (forall input, P (RunInstances input)) ->
  (forall name c, isPollCall name c -> P c) ->
  Issues P (launch config imgName ami sg subnet).
Proof.
  intros HNow HRun HPoll. unfold launch.
  apply Issues_bind; [unfold call; issues; exact HNow |].
  intros now. destruct (parseToAWSTags _ _) as [tags name].
  apply Issues_bind; [unfold call; issues; apply HRun |].
  intros [e | [| i rest]]; try constructor.
  destruct (negb _); [| constructor].
  eapply Issues_impl; [apply HPoll | apply pollPublicIp_issues].
Qed.






(** Proves [Exists P t] for a transcript [t] that computes. *)
Ltac some_entry_from_here :=
  first [ apply Exists_cons_hd; cbv; solve [repeat eexists]
        | apply Exists_cons_tl; some_entry_from_here ].
Ltac some_entry := vm_compute; some_entry_from_here.



(** ** Security group *)


(** C4.  When the request declares a security group and a network, the
    validation of the group fails with a Conflict error when the one
    group fetched belongs to another network than the declared one, and
    with a NotFound error when no group is fetched.  [CreateInstance]
    then creates no security group and authorizes no ingress, any
    launch it issues puts the instance in the declared group, and when
    the group it fetched belongs to another network it returns the
    Conflict error and launches nothing. *)
Theorem declared_security_group_is_validated_and_reused
    (parse : string -> string -> option time.Time) (config : Config)
    (o : Oracle) (h : list Entry) :
  declaresGroup config ->
  let sg := SecurityGroup (runConfig config) in
  let vpc := VPC (runConfig config) in
  (forall g,
      o h (DescribeSecurityGroups [aws.String sg]) = inr [g] ->
      ec2.GroupVpcId g <> vpc ->
      result o h (CheckValidSecurityGroup config)
      = Err (ErrVpcMismatch sg vpc (ec2.GroupVpcId g))
      /\ kind (ErrVpcMismatch sg vpc (ec2.GroupVpcId g)) = Conflict
      /\ forall imgName network,
           result o h (resolveSecurityGroup config imgName network)
           = Err (ErrVpcMismatch sg vpc (ec2.GroupVpcId g)))
  /\ (o h (DescribeSecurityGroups [aws.String sg]) = inr [] ->
      result o h (CheckValidSecurityGroup config)
      = Err (ErrSecurityGroupNotFound sg)
      /\ kind (ErrSecurityGroupNotFound sg) = NotFound)
  /\ (forall g,
      o h (DescribeSecurityGroups [aws.String sg]) = inr [g] ->
      ec2.GroupVpcId g = vpc ->
      forall imgName network,
        result o h (resolveSecurityGroup config imgName network) = Ok sg)
  /\ Forall
       (fun e =>
          ~ isCreateSecurityGroup (callOf e)
          /\ ~ isAuthorizeIngress (callOf e)
          /\ launchesInGroup sg e)
       (transcript o h (CreateInstance parse config))
  /\ (forall g,
      Exists (describedGroups [g])
        (transcript o h (CreateInstance parse config)) ->
      ec2.GroupVpcId g <> vpc ->
      result o h (CreateInstance parse config)
      = Err (ErrVpcMismatch sg vpc (ec2.GroupVpcId g))
      /\ Forall (fun e => ~ isRunInstances (callOf e))
           (transcript o h (CreateInstance parse config))).
Proof.
  intros Hdecl sg vpc.
  destruct (CheckValidSecurityGroup_run config o h) as [_ Hcheck].
  cbv zeta in Hcheck. fold sg vpc in Hcheck.
  assert (Hresolve : forall imgName network,
             result o h (resolveSecurityGroup config imgName network)
             = match result o h (CheckValidSecurityGroup config) with
               | Ok _ => Ok sg
               | Err e => Err e
               | Exit m => Exit m
               | Panic => Panic
               end).
  { intros imgName network. unfold resolveSecurityGroup.
    destruct Hdecl as [Hsg Hvpc].
    apply String.eqb_neq in Hsg, Hvpc. rewrite Hsg, Hvpc. cbn [negb andb].
    rewrite result_andThen.
    destruct (result o h (CheckValidSecurityGroup config)); reflexivity. }
  split; [| split; [| split; [| split]]].
  - intros g Hans Hdiff. rewrite Hans in Hcheck.
    apply String.eqb_neq in Hdiff. rewrite Hdiff in Hcheck.
    split; [exact Hcheck | split; [reflexivity |]].
    intros imgName network. now rewrite Hresolve, Hcheck.
  - intros Hans. rewrite Hans in Hcheck. split; [exact Hcheck | reflexivity].
  - intros g Hans Hsame imgName network. rewrite Hans in Hcheck.
    apply String.eqb_eq in Hsame. rewrite Hsame in Hcheck.
    now rewrite Hresolve, Hcheck.
  - destruct (CreateInstance_shape parse config o h)
      as (r0 & ans & pre & tl & HT & _ & Hpre & _ & Hcases).
    cbv zeta in HT. rewrite HT. clear HT.
    specialize (Hpre Hdecl).
    constructor; [repeat split; auto |].
    constructor; [repeat split; auto |].
    apply Forall_app. split.
    + revert Hpre. apply Forall_impl. intros [c r] Hc.
      destruct c; simpl in *; try contradiction; repeat split; auto.
    + destruct Hcases as [[-> _] | Hrun]; [constructor |].
      destruct Hrun
        as (images & ami & last & sg' & subnet & hl & _ & _ & Hsg & -> & _).
      rewrite (Hsg Hdecl). fold sg.
      apply (Issues_transcript
               (fun c =>
                  ~ isCreateSecurityGroup c /\ ~ isAuthorizeIngress c
                  /\ match c with
                     | RunInstances input => ec2.SecurityGroupIds input = [sg]
                     | _ => True
                     end)).
      unfold launch.
      apply Issues_bind; [unfold call; issues; repeat split; auto |].
      intros now. destruct (parseToAWSTags _ _) as [tags name].
      apply Issues_bind; [unfold call; issues; repeat split; auto |].
      intros [e | [| i rest]]; try constructor.
      destruct (negb _); [| constructor].
      eapply Issues_impl; [| apply pollPublicIp_issues].
      intros c Hc. destruct c; simpl in *; try contradiction;
        repeat split; auto.
  - intros g HE Hdiff. unfold sg, vpc in *. clear sg vpc.
    destruct (CreateInstance_shape parse config o h)
      as (r0 & ans & pre & tl & HT & _ & Hpre & Hgroup & Hcases).
    cbv zeta in HT. rewrite HT in *. clear HT.
    specialize (Hpre Hdecl). specialize (Hgroup Hdecl).
    apply Exists_cons in HE. destruct HE as [[] | HE].
    apply Exists_cons in HE. destruct HE as [[] | HE].
    apply Exists_app in HE. destruct HE as [HE | HE].
    + destruct (Hgroup _ HE) as (hg & Hans & Hstop).
      destruct (CheckValidSecurityGroup_run config o hg) as [_ Hres].
      cbv zeta in Hres. rewrite Hans in Hres.
      apply String.eqb_neq in Hdiff. rewrite Hdiff in Hres.
      rewrite Hres in Hstop. destruct Hstop as [-> HR].
      split; [exact HR |].
      constructor; [intros [] |]. constructor; [intros [] |].
      rewrite app_nil_r. revert Hpre. apply Forall_impl.
      intros [c r] Hc. destruct c; simpl in *; tauto.
    + exfalso. destruct Hcases as [[-> _] | Hrun]; [inversion HE |].
      destruct Hrun
        as (images & ami & last & sg' & subnet & hl & _ & _ & _ & -> & _).
      revert HE.
      apply (Exists_Forall_absurd _
               (fun e => ~ isDescribeSecurityGroups (callOf e))).
      * apply (Issues_transcript
                 (fun c => ~ isDescribeSecurityGroups c)).
        apply launch_issues.
        -- intros [].
        -- intros input [].
        -- intros name c Hc. destruct c; simpl in *; tauto.
      * intros [c r] Hd Hn. destruct c; simpl in *; tauto.
Qed.




(** C9.  Of the images the provider lists, [CreateInstance] launches the
    last one in list order whose first tag value is the requested image
    name, whatever the creation dates. *)
Theorem CreateInstance_launches_last_listed_match
    (parse : string -> string -> option time.Time) (config : Config)
    (o : Oracle) (h : list Entry) (images : list ec2.Image) :
  Exists (describedImages images)
    (transcript o h (CreateInstance parse config)) ->
  Forall
    (launchesImage
       match lastMatchingImage (ImageName (cloudConfig config)) images with
       | Some image => aws.StringValue (ec2.ImageId image)
       | None => ""
       end)
    (transcript o h (CreateInstance parse config)).
Proof.
  intros HE.
  destruct (CreateInstance_shape parse config o h)
    as (r0 & ans & pre & tl & HT & Hpre & _ & _ & Hcases).
  cbv zeta in HT. rewrite HT in *. clear HT.
  assert (Hsetup : forall ami, Forall (launchesImage ami) pre).
  { intros ami. revert Hpre. apply Forall_impl.
    intros [c r] Hc. destruct c; simpl in *; tauto. }
  assert (Hnolist : ~ Exists (describedImages images) pre).
  { apply (Exists_Forall_absurd _ _ _ Hpre).
    intros [c r] Hd Hc. destruct c; simpl in *; tauto. }
  assert (Hnolist' : ~ Exists (describedImages images) tl).
  { destruct Hcases as [[-> _] | Hrun]; [intros HE'; inversion HE' |].
    destruct Hrun
      as (images' & ami & last & sg & subnet & hl & _ & _ & _ & -> & _).
    apply (Exists_Forall_absurd _ (fun e => ~ describedImages images e));
      [| tauto].
    apply launch_entries.
    - intros r [].
    - intros tags r [].
    - intros name c r Hc. destruct c; simpl in *; tauto. }
  apply Exists_cons in HE. destruct HE as [[] | HE].
  apply Exists_cons in HE. destruct HE as [HE | HE];
    [| apply Exists_app in HE; tauto].
  simpl in HE.
  constructor; [exact I |]. constructor; [exact I |].
  apply Forall_app. split; [apply Hsetup |].
  destruct Hcases as [[-> _] | Hrun]; [constructor |].
  destruct Hrun
    as (images' & ami & last & sg & subnet & hl & Hans & Hscan & _ & -> & _).
  rewrite Hans in HE. injection HE as <-.
  rewrite <- (scanImages_last parse _ images' "" time.zero ami last Hscan).
  apply launch_entries.
  - intros r. exact I.
  - intros tags r. reflexivity.
  - intros name c r Hc. destruct c; simpl in *; try tauto. exact I.
Qed.

(** ** The properties on the scenarios *)

Lemma formalizeAWSInstance_name_and_addresses_witness :
  find isNameTag (ec2.Tags instanceUntagged) = None
  /\ Name (formalizeAWSInstance instanceUntagged) = "unknown".
Proof.
  split; [reflexivity |].
  apply (proj1 (proj2
           (formalizeAWSInstance_name_and_addresses instanceUntagged))).
  reflexivity.
Defined.

Lemma GetVPC_resolution_witness :
  (VPC (runConfig requestWithGroup) <> ""
   /\ ((exists v,
          result provider [] (GetVPC requestWithGroup) = Ok v
          /\ In v [vpcSide; vpcMain]
          /\ ec2.VpcId v = VPC (runConfig requestWithGroup))
       \/ (exists e,
             result provider [] (GetVPC requestWithGroup) = Err e
             /\ kind e = NotFound)))
  /\ (VPC (runConfig requestA) = ""
      /\ [vpcSide; vpcMain] <> []
      /\ result provider [] (GetVPC requestA) = Ok vpcMain).
Proof.
  split.
  - split; [discriminate |].
    apply (proj1 (GetVPC_resolution requestWithGroup provider []
                    [vpcSide; vpcMain]));
      [discriminate | reflexivity].
  - split; [reflexivity |]. split; [discriminate |].
    apply (proj2 (proj2 (GetVPC_resolution requestA provider []
                           [vpcSide; vpcMain])
                    eq_refl eq_refl
                    (fun H => @nil_cons _ vpcSide [vpcMain] (eq_sym H)))
             [vpcSide] vpcMain []);
      [reflexivity | reflexivity | repeat constructor].
Defined.

Lemma declared_security_group_is_validated_and_reused_witness :
  (declaresGroup requestWithGroup
   /\ Forall
        (fun e =>
           ~ isCreateSecurityGroup (callOf e)
           /\ ~ isAuthorizeIngress (callOf e)
           /\ launchesInGroup "sg-web" e)
        (transcript provider [] (CreateInstance parseDates requestWithGroup)))
  /\ (declaresGroup requestOtherNetwork
      /\ provider [] (DescribeSecurityGroups [aws.String "sg-web"])
         = inr [groupWeb]
      /\ ec2.GroupVpcId groupWeb <> "vpc-2"
      /\ result provider [] (CheckValidSecurityGroup requestOtherNetwork)
         = Err (ErrVpcMismatch "sg-web" "vpc-2" "vpc-1"))
  /\ (declaresGroup requestUnknownGroup
      /\ provider [] (DescribeSecurityGroups [aws.String "sg-gone"]) = inr []
      /\ result provider [] (CheckValidSecurityGroup requestUnknownGroup)
         = Err (ErrSecurityGroupNotFound "sg-gone")).
Proof.
  assert (D1 : declaresGroup requestWithGroup) by (split; discriminate).
  assert (D2 : declaresGroup requestOtherNetwork) by (split; discriminate).
  assert (D3 : declaresGroup requestUnknownGroup) by (split; discriminate).
  split; [| split].
  - split; [exact D1 |].
    exact (proj1 (proj2 (proj2 (proj2
             (declared_security_group_is_validated_and_reused
                parseDates requestWithGroup provider [] D1))))).
  - split; [exact D2 |]. split; [reflexivity |]. split; [discriminate |].
    apply (proj1 (proj1
             (declared_security_group_is_validated_and_reused
                parseDates requestOtherNetwork provider [] D2)
             groupWeb eq_refl ltac:(discriminate))).
  - split; [exact D3 |]. split; [reflexivity |].
    apply (proj1 (proj1 (proj2
             (declared_security_group_is_validated_and_reused
                parseDates requestUnknownGroup provider [] D3))
             eq_refl)).
Defined.


Lemma CreateInstance_launches_last_listed_match_witness :
  Exists (describedImages [imageSeptember; imageJune])
    (transcript provider [] (CreateInstance parseDates requestA))
  /\ Forall (launchesImage "ami-june")
       (transcript provider [] (CreateInstance parseDates requestA))
  /\ Exists launched
       (transcript provider [] (CreateInstance parseDates requestA))
  /\ parseDates layout (aws.StringValue (ec2.CreationDate imageJune))
     = Some 1591005600000000000
  /\ parseDates layout (aws.StringValue (ec2.CreationDate imageSeptember))
     = Some 1598954400000000000.
Proof.
  assert (HE : Exists (describedImages [imageSeptember; imageJune])
                 (transcript provider []
                    (CreateInstance parseDates requestA)))
    by (apply Exists_cons_tl, Exists_cons_hd; reflexivity).
  split; [exact HE |].
  split; [exact (CreateInstance_launches_last_listed_match
                   parseDates requestA provider []
                   [imageSeptember; imageJune] HE) |].
  split; [some_entry |].
  split; reflexivity.
Defined.

(** * Further properties *)

(** ** Decimal rendering *)

Lemma Itoa_Atoi (i : Z) : strconv_facts.Atoi (strconv.Itoa i) = Some i.
Proof.
  unfold strconv_facts.Atoi, strconv.Itoa.
  rewrite NilZero.isi.
  - simpl. now rewrite DecimalZ.of_to.
  - destruct i as [| p | p]; simpl; try discriminate.
    intros [= H]. now apply DecimalPos.Unsigned.to_uint_nonnil in H.
  - destruct i as [| p | p]; simpl; try discriminate.
    intros [= H]. now apply DecimalPos.Unsigned.to_uint_nonnil in H.
Qed.

Lemma Itoa_injective (i j : Z) : strconv.Itoa i = strconv.Itoa j -> i = j.
Proof.
  intros H. apply (f_equal strconv_facts.Atoi) in H.
  rewrite !Itoa_Atoi in H. congruence.
Qed.

Lemma Itoa_nonempty (i : Z) : strconv.Itoa i <> "".
Proof.
  intros H. apply (f_equal strconv_facts.Atoi) in H.
  rewrite Itoa_Atoi in H. discriminate.
Qed.

Lemma append_injective (p s t : string) :
  (p ++ s)%string = (p ++ t)%string -> s = t.
Proof.
  induction p as [| a p IH]; simpl; [auto |].
  intros [= H]. auto.
Qed.

Lemma append_not_self (p s : string) : (p ++ s)%string = p -> s = "".
Proof.
  induction p as [| a p IH]; simpl; [auto |].
  intros [= H]. auto.
Qed.

(** ** Tags *)

(** X1.  Whatever tags are declared, the tags [parseToAWSTags] returns
    begin with the declared tags, in order, hold at most one tag more,
    and hold a "Name" tag whose value is the name returned with them. *)
Theorem parseToAWSTags_names_the_resource
    (configTags : list Tag) (defaultName : string) :
  let tags := fst (parseToAWSTags configTags defaultName) in
  let name := snd (parseToAWSTags configTags defaultName) in
  In (nameTag name) tags
  /\ firstn (length configTags) tags = map toAWSTag configTags
  /\ (length tags <= S (length configTags))%nat.
Proof.
  cbv zeta. rewrite parseToAWSTags_by_last_name.
  destruct (find declaresName (rev configTags)) as [tag |] eqn:Hfind;
    cbn [fst snd].
  - apply find_some in Hfind. destruct Hfind as [Hin Hname].
    apply in_rev in Hin. unfold declaresName in Hname.
    apply String.eqb_eq in Hname.
    split; [| split].
    + apply in_map_iff. exists tag. split; [| exact Hin].
      unfold toAWSTag, nameTag. now rewrite Hname.
    + rewrite <- (length_map toAWSTag configTags). apply firstn_all.
    + rewrite length_map. auto.
  - split; [| split].
    + apply in_or_app. right. now left.
    + rewrite <- (length_map toAWSTag configTags), firstn_app, firstn_all.
      rewrite Nat.sub_diag. simpl. apply app_nil_r.
    + rewrite length_app, length_map. simpl. lia.
Qed.

(** ** Network resolution, further *)

Lemma selectDefaultVpc_last (vpcs : list ec2.Vpc) :
  selectDefaultVpc vpcs = find ec2.IsDefault (rev vpcs).
Proof.
  unfold selectDefaultVpc.
  induction vpcs as [| v vpcs IH] using rev_ind; [reflexivity |].
  rewrite fold_left_app, rev_app_distr. simpl.
  destruct (ec2.IsDefault v); [reflexivity | exact IH].
Qed.

(** X2.  Without a network hint, [GetVPC] returns the last network, in
    the order of the listing, that is flagged default, and the first
    listed network when none is flagged. *)
Theorem GetVPC_without_hint_takes_last_default
    (config : Config) (o : Oracle) (h : list Entry)
    (first : ec2.Vpc) (rest : list ec2.Vpc) :
  VPC (runConfig config) = "" ->
  o h (DescribeVpcs None) = inr (first :: rest) ->
  result o h (GetVPC config)
  = Ok match find ec2.IsDefault (rev (first :: rest)) with
       | Some vpc => vpc
       | None => first
       end.
Proof.
  intros Hhint Hans. unfold GetVPC. rewrite Hhint. simpl negb. cbv iota.
  cbn [bind call result]. rewrite Hans, selectDefaultVpc_last.
  destruct (find ec2.IsDefault (rev (first :: rest))); reflexivity.
Qed.

Lemma GetVPC_without_hint_takes_last_default_witness :
  VPC (runConfig requestA) = ""
  /\ provider [] (DescribeVpcs None) = inr [vpcSide; vpcMain]
  /\ result provider [] (GetVPC requestA) = Ok vpcMain.
Proof.
  split; [reflexivity |]. split; [reflexivity |].
  exact (GetVPC_without_hint_takes_last_default requestA provider []
           vpcSide [vpcMain] eq_refl eq_refl).
Defined.

(** X3.  [GetVPC] issues one call, a listing of the networks, filtered
    by the hint when there is one.  It fails with the error of the
    listing when the call fails and with a NotFound error when nothing
    is listed; otherwise it returns one of the listed networks, and with
    a hint the first one, whose id and flag it does not look at. *)
Theorem GetVPC_reads_once (config : Config) (o : Oracle) (h : list Entry) :
  let hint := VPC (runConfig config) in
  let input :=
    if String.eqb hint "" then None else Some [vpcFilter hint] in
  transcript o h (GetVPC config)
  = [entry (DescribeVpcs input) (o h (DescribeVpcs input))]
  /\ match o h (DescribeVpcs input) with
     | inl e =>
         result o h (GetVPC config) = Err (ErrDescribeVpcs e)
     | inr [] =>
         exists e, result o h (GetVPC config) = Err e /\ kind e = NotFound
     | inr (first :: rest) =>
         exists vpc,
           result o h (GetVPC config) = Ok vpc
           /\ In vpc (first :: rest)
           /\ (hint <> "" -> vpc = first)
     end.
Proof.
  cbv zeta. unfold GetVPC.
  destruct (String.eqb (VPC (runConfig config)) "") eqn:Hhint;
    cbn [negb bind call transcript result];
    destruct (o h (DescribeVpcs _)) as [e | [| first rest]];
    try (destruct (selectDefaultVpc (first :: rest)) as [vpc |] eqn:Hsel);
    cbn [transcript result]; (split; [reflexivity |]).
  - reflexivity.
  - eexists. split; reflexivity.
  - apply String.eqb_eq in Hhint.
    exists vpc. split; [reflexivity |].
    split; [now apply selectDefaultVpc_In | congruence].
  - apply String.eqb_eq in Hhint.
    exists first. split; [reflexivity |]. split; [now left | congruence].
  - reflexivity.
  - eexists. split; reflexivity.
  - exists first. split; [reflexivity |]. split; [now left | reflexivity].
  - exists first. split; [reflexivity |]. split; [now left | reflexivity].
Qed.

Lemma GetVPC_reads_once_witness :
  VPC (runConfig requestWithGroup) <> ""
  /\ result provider [] (GetVPC requestWithGroup) = Ok vpcMain
  /\ length (transcript provider [] (GetVPC requestWithGroup)) = 1%nat.
Proof.
  split; [discriminate |].
  pose proof (GetVPC_reads_once requestWithGroup provider []) as [HT HR].
  split.
  - destruct HR as (vpc & Hres & _ & Hfirst).
    rewrite Hres. f_equal. apply Hfirst. discriminate.
  - rewrite HT. reflexivity.
Defined.

(** X4.  [GetSubnet] issues one call, a listing of the subnets of the
    given network, narrowed to the hinted subnet when there is a hint.
    It returns the error of the listing unchanged when the call fails,
    fails with a NotFound error when nothing is listed, and otherwise
    returns one of the listed subnets. *)
Theorem GetSubnet_reads_once (config : Config) (vpcID : string)
    (o : Oracle) (h : list Entry) :
  let hint := Subnet (runConfig config) in
  let filters :=
    if String.eqb hint "" then [vpcFilter vpcID]
    else [vpcFilter vpcID; subnetFilter hint] in
  transcript o h (GetSubnet config vpcID)
  = [entry (DescribeSubnets filters) (o h (DescribeSubnets filters))]
  /\ match o h (DescribeSubnets filters) with
     | inl e => result o h (GetSubnet config vpcID) = Err (ErrSDK e)
     | inr [] =>
         exists e,
           result o h (GetSubnet config vpcID) = Err e /\ kind e = NotFound
     | inr (first :: rest) =>
         exists subnet,
           result o h (GetSubnet config vpcID) = Ok subnet
           /\ In subnet (first :: rest)
     end.
Proof.
  cbv zeta. unfold GetSubnet.
  destruct (String.eqb (Subnet (runConfig config)) "") eqn:Hhint;
    cbn [negb app bind call transcript result];
    destruct (o h (DescribeSubnets _)) as [e | [| first rest]];
    try (destruct (find ec2.DefaultForAz (first :: rest))
           as [subnet |] eqn:Hf);
    cbn [transcript result]; (split; [reflexivity |]).
  - reflexivity.
  - eexists. split; reflexivity.
  - exists first. split; [reflexivity | now left].
  - exists first. split; [reflexivity | now left].
  - reflexivity.
  - eexists. split; reflexivity.
  - exists subnet. split; [reflexivity |]. apply find_some in Hf. tauto.
  - exists first. split; [reflexivity | now left].
Qed.



(** ** Security group, further *)

(** X6.  [CheckValidSecurityGroup] compares the network only when the
    lookup answers exactly one group: an answer of two groups or more
    passes the check whatever the networks of the groups.  When the
    lookup itself fails, the check fails with an error that names the
    group and keeps the cause. *)
Theorem CheckValidSecurityGroup_edge_answers
    (config : Config) (o : Oracle) (h : list Entry) :
  let sg := SecurityGroup (runConfig config) in
  (forall g1 g2 more,
      o h (DescribeSecurityGroups [aws.String sg]) = inr (g1 :: g2 :: more) ->
      result o h (CheckValidSecurityGroup config) = Ok tt)
  /\ (forall cause,
        o h (DescribeSecurityGroups [aws.String sg]) = inl cause ->
        result o h (CheckValidSecurityGroup config)
        = Err (ErrGetSecurityGroup sg cause))
  /\ length (transcript o h (CheckValidSecurityGroup config)) = 1%nat.
Proof.
  cbv zeta.
  destruct (CheckValidSecurityGroup_run config o h) as [HT HR].
  cbv zeta in HT, HR. rewrite HT, HR.
  split; [| split; [| reflexivity]].
  - intros g1 g2 more ->. reflexivity.
  - intros cause ->. reflexivity.
Qed.

Lemma CheckValidSecurityGroup_edge_answers_witness :
  listingTwoGroups [] (DescribeSecurityGroups [aws.String "sg-web"])
  = inr [ {| ec2.GroupId := Some "sg-web"; ec2.GroupVpcId := "vpc-9" |};
          groupWeb ]
  /\ VPC (runConfig requestWithGroup) = "vpc-1"
  /\ result listingTwoGroups [] (CheckValidSecurityGroup requestWithGroup)
     = Ok tt.
Proof.
  split; [reflexivity |]. split; [reflexivity |].
  exact (proj1 (CheckValidSecurityGroup_edge_answers requestWithGroup
                  listingTwoGroups [])
           _ _ _ eq_refl).
Defined.

Lemma CreateSG_run (config : Config) (imgName vpcID : string) (o : Oracle)
    (h : list Entry) :
  let now := o h Now in
  let create :=
    CreateSecurityGroup
      (imgName ++ strconv.FormatInt10 (time.UnixNano now))%string
      ("security group for " ++ imgName)%string vpcID in
  let h1 := h ++ [entry Now now] in
  let perms :=
    map (buildFirewallRule "tcp") (Ports (runConfig config))
    ++ map (buildFirewallRule "udp") (UDPPorts (runConfig config)) in
  match o h1 create with
  | inl err =>
      transcript o h (CreateSG config imgName vpcID)
      = [entry Now now; entry create (inl err)]
      /\ result o h (CreateSG config imgName vpcID)
         = Err match err with
               | AwsError code _ =>
                   if String.eqb code "InvalidVpcID.NotFound"
                   then ErrVpcIDNotFound vpcID
                   else if String.eqb code "InvalidGroup.Duplicate"
                   then ErrSecurityGroupExists imgName
                   else ErrCreateSecurityGroup imgName err
               | PlainError _ => ErrCreateSecurityGroup imgName err
               end
  | inr gid =>
      match perms with
      | [] =>
          transcript o h (CreateSG config imgName vpcID)
          = [entry Now now; entry create (inr gid)]
          /\ result o h (CreateSG config imgName vpcID)
             = Ok (aws.StringValue gid)
      | _ :: _ =>
          let authorize := AuthorizeSecurityGroupIngress gid perms in
          let ans := o (h1 ++ [entry create (inr gid)]) authorize in
          transcript o h (CreateSG config imgName vpcID)
          = [entry Now now; entry create (inr gid); entry authorize ans]
          /\ result o h (CreateSG config imgName vpcID)
             = match ans with
               | Some e => Err (ErrSecurityGroupIngress imgName e)
               | None => Ok (aws.StringValue gid)
               end
      end
  end.
Proof.
  cbv zeta. unfold CreateSG. cbn [bind call transcript result].
  destruct (o _ (CreateSecurityGroup _ _ _)) as [[code msg | msg] | gid].
  - destruct (String.eqb code "InvalidVpcID.NotFound");
      [| destruct (String.eqb code "InvalidGroup.Duplicate")];
      split; reflexivity.
  - split; reflexivity.
  - destruct (map _ _ ++ map _ _) as [| rule rules]; [split; reflexivity |].
    cbn [bind call transcript result].
    destruct (o _ (AuthorizeSecurityGroupIngress _ _)); split; reflexivity.
Qed.

(** X7.  When the provider refuses to create the security group,
    [CreateSG] authorizes no ingress and fails: with a NotFound error
    that names the network for the code "InvalidVpcID.NotFound", with an
    AlreadyExists error for the code "InvalidGroup.Duplicate", and with
    an error that keeps the cause for any other error. *)
Theorem CreateSG_refused (config : Config) (imgName vpcID : string)
    (o : Oracle) (h : list Entry) (err : sdkerr) :
  Exists (groupRefused err) (transcript o h (CreateSG config imgName vpcID)) ->
  Forall (fun e => ~ isAuthorizeIngress (callOf e))
    (transcript o h (CreateSG config imgName vpcID))
  /\ (forall msg, err = AwsError "InvalidVpcID.NotFound" msg ->
        result o h (CreateSG config imgName vpcID)
        = Err (ErrVpcIDNotFound vpcID)
        /\ kind (ErrVpcIDNotFound vpcID) = NotFound)
  /\ (forall msg, err = AwsError "InvalidGroup.Duplicate" msg ->
        result o h (CreateSG config imgName vpcID)
        = Err (ErrSecurityGroupExists imgName)
        /\ kind (ErrSecurityGroupExists imgName) = AlreadyExists)
  /\ ((forall msg, err <> AwsError "InvalidVpcID.NotFound" msg) ->
      (forall msg, err <> AwsError "InvalidGroup.Duplicate" msg) ->
      result o h (CreateSG config imgName vpcID)
      = Err (ErrCreateSecurityGroup imgName err)).
Proof.
  intros HE.
  pose proof (CreateSG_run config imgName vpcID o h) as Hrun.
  cbv zeta in Hrun.
  destruct (o _ (CreateSecurityGroup _ _ _)) as [err' | gid].
  - destruct Hrun as [HT HR]. rewrite HT in *. rewrite HR. clear HT HR.
    apply Exists_cons in HE. destruct HE as [[] | HE].
    apply Exists_cons in HE. destruct HE as [HE | HE]; [| inversion HE].
    simpl in HE. injection HE as ->.
    split; [repeat constructor; intros [] |].
    split; [intros msg ->; split; reflexivity |].
    split; [intros msg ->; split; reflexivity |].
    intros Hnf Hdup. destruct err as [code msg | msg]; [| reflexivity].
    destruct (String.eqb code "InvalidVpcID.NotFound") eqn:H1.
    { apply String.eqb_eq in H1. subst code. now elim (Hnf msg). }
    destruct (String.eqb code "InvalidGroup.Duplicate") eqn:H2.
    { apply String.eqb_eq in H2. subst code. now elim (Hdup msg). }
    reflexivity.
  - exfalso.
    destruct (map _ _ ++ map _ _) as [| rule rules];
      destruct Hrun as [HT _]; rewrite HT in HE;
      repeat (apply Exists_cons in HE; destruct HE as [HE | HE];
              [simpl in HE; try contradiction; discriminate |]);
      inversion HE.
Qed.

Lemma CreateSG_refused_witness :
  Exists (groupRefused (AwsError "InvalidGroup.Duplicate" "exists"))
    (transcript (refusingGroups (AwsError "InvalidGroup.Duplicate" "exists"))
       [] (CreateSG requestA "img-v3" "vpc-1"))
  /\ result (refusingGroups (AwsError "InvalidGroup.Duplicate" "exists")) []
       (CreateSG requestA "img-v3" "vpc-1")
     = Err (ErrSecurityGroupExists "img-v3").
Proof.
  assert (HE : Exists
                 (groupRefused (AwsError "InvalidGroup.Duplicate" "exists"))
                 (transcript
                    (refusingGroups
                       (AwsError "InvalidGroup.Duplicate" "exists"))
                    [] (CreateSG requestA "img-v3" "vpc-1")))
    by (apply Exists_cons_tl, Exists_cons_hd; reflexivity).
  split; [exact HE |].
  exact (proj1 (proj1 (proj2 (proj2
           (CreateSG_refused requestA "img-v3" "vpc-1"
              (refusingGroups (AwsError "InvalidGroup.Duplicate" "exists"))
              [] _ HE))) "exists" eq_refl)).
Defined.

Lemma declared_rules (tcp udp : list Z) :
  let perms :=
    map (buildFirewallRule "tcp") tcp ++ map (buildFirewallRule "udp") udp in
  map ec2.FromPort perms = tcp ++ udp
  /\ map ec2.IpProtocol perms
     = repeat "tcp" (length tcp) ++ repeat "udp" (length udp)
  /\ Forall
       (fun rule =>
          ec2.ToPort rule = ec2.FromPort rule
          /\ ec2.IpRanges rule = ["0.0.0.0/0"])
       perms.
Proof.
  cbv zeta. rewrite !map_app, !map_map. cbn [buildFirewallRule ec2.FromPort
    ec2.IpProtocol]. rewrite !map_id. split; [reflexivity |]. split.
  - f_equal; [induction tcp | induction udp]; simpl; congruence.
  - apply Forall_app. split; apply Forall_forall; intros rule Hin;
      apply in_map_iff in Hin; destruct Hin as (p & <- & _); split; reflexivity.
Qed.

(** X8.  [CreateSG] authorizes ingress at most once.  The rules it sends
    are one per declared port, those of the TCP ports first and in the
    declared order, each for its port alone and open to 0.0.0.0/0.  When
    the group is created and a port is declared, the rules are sent for
    the created group, and [CreateSG] returns the id of the group when
    they are accepted and an error that keeps the cause when they are
    refused. *)
Theorem CreateSG_authorizes_declared_ports
    (config : Config) (imgName vpcID : string) (o : Oracle)
    (h : list Entry) :
  Forall (authorizesDeclaredPorts config)
    (transcript o h (CreateSG config imgName vpcID))
  /\ (count isAuthorizeIngressCall
        (transcript o h (CreateSG config imgName vpcID)) <= 1)%nat
  /\ forall gid,
       Exists (createdGroup gid)
         (transcript o h (CreateSG config imgName vpcID)) ->
       Ports (runConfig config) ++ UDPPorts (runConfig config) <> [] ->
       exists perms ans,
         Exists (ingressAnswered gid perms ans)
           (transcript o h (CreateSG config imgName vpcID))
         /\ result o h (CreateSG config imgName vpcID)
            = match ans with
              | Some cause => Err (ErrSecurityGroupIngress imgName cause)
              | None => Ok (aws.StringValue gid)
              end.
Proof.
  pose proof (CreateSG_run config imgName vpcID o h) as Hrun.
  cbv zeta in Hrun.
  destruct (declared_rules (Ports (runConfig config))
              (UDPPorts (runConfig config))) as (Hports & Hprotos & Hrules).
  cbv zeta in Hports, Hprotos, Hrules.
  destruct (o _ (CreateSecurityGroup _ _ _)) as [err | gid'].
  - destruct Hrun as [HT _]. rewrite HT.
    split; [repeat constructor |]. split; [cbv; lia |].
    intros gid HE. exfalso.
    apply Exists_cons in HE. destruct HE as [[] | HE].
    apply Exists_cons in HE. destruct HE as [HE | HE];
      [discriminate HE | inversion HE].
  - destruct (map _ _ ++ map _ _) as [| rule rules] eqn:Hperms.
    + destruct Hrun as [HT _]. rewrite HT.
      split; [repeat constructor |]. split; [cbv; lia |].
      intros gid _ Hdeclared. exfalso. apply Hdeclared.
      rewrite <- Hports. reflexivity.
    + destruct Hrun as [HT HR]. rewrite HT, HR.
      split; [| split; [cbv; lia |]].
      * constructor; [exact I |]. constructor; [exact I |].
        constructor; [| constructor].
        unfold authorizesDeclaredPorts. cbn [callOf entry projT1].
        repeat split; auto. discriminate.
      * intros gid HE _.
        apply Exists_cons in HE. destruct HE as [[] | HE].
        apply Exists_cons in HE. destruct HE as [HE | HE].
        -- simpl in HE. injection HE as <-.
           eexists. eexists. split; [| reflexivity].
           apply Exists_cons_tl, Exists_cons_tl, Exists_cons_hd.
           simpl. auto.
        -- apply Exists_cons in HE. destruct HE as [[] | HE]. inversion HE.
Qed.

Lemma CreateSG_authorizes_declared_ports_witness :
  Exists (createdGroup (Some "sg-new"))
    (transcript provider [] (CreateSG requestA "img-v3" "vpc-1"))
  /\ Ports (runConfig requestA) ++ UDPPorts (runConfig requestA) <> []
  /\ exists perms ans,
       Exists (ingressAnswered (Some "sg-new") perms ans)
         (transcript provider [] (CreateSG requestA "img-v3" "vpc-1"))
       /\ result provider [] (CreateSG requestA "img-v3" "vpc-1")
          = match ans with
            | Some cause => Err (ErrSecurityGroupIngress "img-v3" cause)
            | None => Ok "sg-new"
            end.
Proof.
  assert (HE : Exists (createdGroup (Some "sg-new"))
                 (transcript provider []
                    (CreateSG requestA "img-v3" "vpc-1")))
    by (apply Exists_cons_tl, Exists_cons_hd; reflexivity).
  assert (Hp : Ports (runConfig requestA) ++ UDPPorts (runConfig requestA)
               <> []) by discriminate.
  split; [exact HE |]. split; [exact Hp |].
  exact (proj2 (proj2 (CreateSG_authorizes_declared_ports requestA
                         "img-v3" "vpc-1" provider []))
           (Some "sg-new") HE Hp).
Defined.

(** X9.  The security group [CreateSG] asks for is in the given network
    and is named by the image name followed by the decimal reading of
    the clock in nanoseconds: the name is never the bare image name, and
    two runs ask for the same name exactly when they read the same
    instant. *)
Theorem CreateSG_names_follow_the_clock
    (config : Config) (imgName vpcID : string)
    (o1 o2 : Oracle) (h1 h2 : list Entry)
    (name1 desc1 vpc1 name2 desc2 vpc2 : string) :
  In (CreateSecurityGroup name1 desc1 vpc1)
    (map callOf (transcript o1 h1 (CreateSG config imgName vpcID))) ->
  In (CreateSecurityGroup name2 desc2 vpc2)
    (map callOf (transcript o2 h2 (CreateSG config imgName vpcID))) ->
  vpc1 = vpcID
  /\ name1 <> imgName
  /\ (name1 = name2 <-> o1 h1 Now = o2 h2 Now).
Proof.
  assert (Hname : forall o h name desc vpc,
             In (CreateSecurityGroup name desc vpc)
               (map callOf (transcript o h (CreateSG config imgName vpcID))) ->
             name = (imgName ++ strconv.Itoa (o h Now))%string
             /\ vpc = vpcID).
  { intros o h name desc vpc Hin.
    pose proof (CreateSG_run config imgName vpcID o h) as Hrun.
    cbv zeta in Hrun.
    destruct (o _ (CreateSecurityGroup _ _ _)) as [err | gid];
      [| destruct (map _ _ ++ map _ _)];
      destruct Hrun as [HT _]; rewrite HT in Hin; simpl in Hin;
      repeat (destruct Hin as [Hin | Hin]; try discriminate Hin;
              try contradiction);
      injection Hin as <- _ <-; split; reflexivity. }
  intros H1 H2.
  destruct (Hname _ _ _ _ _ H1) as [-> ->].
  destruct (Hname _ _ _ _ _ H2) as [-> _].
  split; [reflexivity |]. split.
  - intros H. apply append_not_self in H. now apply Itoa_nonempty in H.
  - split.
    + intros H. apply append_injective in H. now apply Itoa_injective.
    + intros ->. reflexivity.
Qed.

Lemma CreateSG_names_follow_the_clock_witness :
  In (CreateSecurityGroup "img-v31600000000000000000"
        "security group for img-v3" "vpc-1")
    (map callOf (transcript provider [] (CreateSG requestA "img-v3" "vpc-1")))
  /\ In (CreateSecurityGroup "img-v31600000001000000000"
           "security group for img-v3" "vpc-1")
       (map callOf
          (transcript providerLater [] (CreateSG requestA "img-v3" "vpc-1")))
  /\ "img-v31600000000000000000" <> "img-v3".
Proof.
  assert (H1 : In (CreateSecurityGroup "img-v31600000000000000000"
                     "security group for img-v3" "vpc-1")
                 (map callOf
                    (transcript provider []
                       (CreateSG requestA "img-v3" "vpc-1"))))
    by (right; left; reflexivity).
  assert (H2 : In (CreateSecurityGroup "img-v31600000001000000000"
                     "security group for img-v3" "vpc-1")
                 (map callOf
                    (transcript providerLater []
                       (CreateSG requestA "img-v3" "vpc-1"))))
    by (right; left; reflexivity).
  split; [exact H1 |]. split; [exact H2 |].
  exact (proj1 (proj2 (CreateSG_names_follow_the_clock requestA
                         "img-v3" "vpc-1" provider providerLater [] []
                         _ _ _ _ _ _ H1 H2))).
Defined.

(** ** Image import, further *)

Lemma attempts_issues (w : request.Waiter)
    (taskFilter : list (option string)) (n : nat) :
  Issues isWaitCall (request.attempts w taskFilter n).
Proof.
  induction n as [| n IH]; simpl; [constructor |].
  unfold call. cbn [bind].
  constructor; [exact I |]. intros r.
  destruct (request.accept _ _); [constructor |].
  destruct n; [constructor |].
  cbn [bind]. constructor; [exact I |]. intros _. exact IH.
Qed.

Lemma waitSnapshotToBeReady_run (config : Config)
    (importTaskID : option string) (o : Oracle) (h : list Entry) :
  let session := NewSession (Zone (cloudConfig config)) in
  let describe := DescribeImportSnapshotTasks [importTaskID] in
  let h1 := h ++ [entry session (o h session)] in
  match o h session with
  | Some e =>
      transcript o h (waitSnapshotToBeReady config importTaskID)
      = [entry session (Some e)]
      /\ result o h (waitSnapshotToBeReady config importTaskID)
         = Err (ErrSDK e)
  | None =>
      match o h1 describe with
      | inl e =>
          transcript o h (waitSnapshotToBeReady config importTaskID)
          = [entry session None; entry describe (inl e)]
          /\ result o h (waitSnapshotToBeReady config importTaskID)
             = Err (ErrSDK e)
      | inr tasks =>
          exists mid hlast,
            transcript o h (waitSnapshotToBeReady config importTaskID)
            = entry session None :: entry describe (inr tasks)
              :: mid ++ [entry describe (o hlast describe)]
            /\ Forall (fun e => isWaitCall (callOf e)) mid
            /\ result o h (waitSnapshotToBeReady config importTaskID)
               = match o hlast describe with
                 | inl e => Err (ErrSDK e)
                 | inr [] => Panic
                 | inr (task :: _) =>
                     Ok (ec2.SnapshotId (ec2.SnapshotTaskDetail_ task))
                 end
      end
  end.
Proof.
  cbv zeta. unfold waitSnapshotToBeReady, getEc2Service, andThen, call.
  cbn [bind transcript result].
  destruct (o h (NewSession _)) as [e |]; [split; reflexivity |].
  cbn [bind transcript result].
  destruct (o _ (DescribeImportSnapshotTasks _)) as [e | tasks] eqn:Hfirst;
    [split; reflexivity |].
  cbn [bind transcript result].
  rewrite transcript_bind, result_bind.
  match goal with
  | |- context [transcript o (?h2 ++ [entry Now ?t1])
                  (request.WaitWithContext ?w ?f)] =>
      pose proof (Issues_transcript _ _ o
                    (attempts_issues w f (request.MaxAttempts w))
                    (h2 ++ [entry Now t1])
                  : Forall _ (transcript o (h2 ++ [entry Now t1])
                                (request.WaitWithContext w f)))
        as Hw;
      remember (transcript o (h2 ++ [entry Now t1])
                  (request.WaitWithContext w f)) as tw eqn:Etw;
      set (hw := h2 ++ [entry Now t1]) in *;
      set (now1 := t1) in *
  end.
  clear Hfirst. cbn [bind transcript result].
  set (now2 := o (hw ++ tw) Now).
  set (hlast := (hw ++ tw) ++ [entry Now now2]).
  exists (entry Now now1 :: tw ++ [entry Now now2]), hlast.
  split; [| split].
  - cbn [app]. rewrite <- app_assoc. cbn [app].
    destruct (o hlast (DescribeImportSnapshotTasks _))
      as [e | [| task more]]; reflexivity.
  - constructor; [exact I |]. apply Forall_app. split; [exact Hw |].
    constructor; [exact I | constructor].
  - destruct (o hlast (DescribeImportSnapshotTasks _))
      as [e | [| task more]]; reflexivity.
Qed.

Lemma stepRefused_or_not (e : Entry) :
  (exists err, stepRefused err e) \/ (forall err, ~ stepRefused err e).
Proof.
  destruct e as [c r]. destruct c; simpl in *;
    try solve [right; intros err []];
    destruct r as [err |]; try solve [left; exists err; reflexivity];
    right; intros err' H; discriminate H.
Qed.

Lemma Checked_sound {A : Type} (p : Prog (outcome A)) :
  Checked p ->
  forall o h e err,
    In e (transcript o h p) ->
    stepRefused err e ->
    (exists before, transcript o h p = before ++ [e])
    /\ result o h p = Err (ErrSDK err).
Proof.
  induction 1 as [r | c k Hstop Hgo IH]; intros o h e err Hin Hre;
    [inversion Hin |].
  cbn [transcript result] in *.
  destruct (stepRefused_or_not (entry c (o h c))) as [[err' Hr] | Hnot].
  - rewrite (Hstop _ _ Hr) in *. cbn [transcript result] in *.
    destruct Hin as [<- | []].
    split; [exists []; reflexivity |].
    destruct c; simpl in Hr, Hre; try contradiction; congruence.
  - destruct Hin as [<- | Hin]; [now elim (Hnot err) |].
    destruct (IH _ Hnot _ _ _ _ Hin Hre) as [[before Hb] Hres].
    split; [| exact Hres].
    exists (entry c (o h c) :: before). cbn [app]. now rewrite Hb.
Qed.

Lemma Checked_andThen {A B : Type} (p : Prog (outcome A))
    (f : A -> Prog (outcome B)) :
  Checked p -> (forall a, Checked (f a)) -> Checked (andThen p f).
Proof.
  intros Hp Hf. unfold andThen.
  induction Hp as [r | c k Hstop Hgo IH]; cbn [bind].
  - destruct r; [apply Hf | constructor ..].
  - constructor.
    + intros r err Hr. now rewrite (Hstop _ _ Hr).
    + intros r Hnot. now apply IH.
Qed.

Lemma Checked_after {A B : Type} (p : Prog B) (f : B -> Prog (outcome A)) :
  Issues (fun c => forall r err, ~ stepRefused err (entry c r)) p ->
  (forall b, Checked (f b)) ->
  Checked (bind p f).
Proof.
  intros Hp Hf. induction Hp as [b | c k Hc Hk IH]; cbn [bind]; [apply Hf |].
  constructor; [intros r err Hr; now elim (Hc r err) | intros r _; apply IH].
Qed.

Lemma Checked_waitSnapshotToBeReady (config : Config)
    (importTaskID : option string) :
  Checked (waitSnapshotToBeReady config importTaskID).
Proof.
  unfold waitSnapshotToBeReady.
  apply Checked_andThen.
  { unfold getEc2Service, call. cbn [bind]. constructor.
    - intros r err Hr. simpl in Hr. now rewrite Hr.
    - intros [e |] Hnot; [now elim (Hnot e) | constructor]. }
  intros _.
  apply Checked_after; [unfold call; apply Issues_Vis; [intros ? ? [] | intros; apply Issues_Ret] |].
  intros [e | tasks]; [constructor |].
  apply Checked_after; [unfold call; apply Issues_Vis; [intros ? ? [] | intros; apply Issues_Ret] |].
  intros _.
  apply Checked_after.
  { eapply Issues_impl; [| apply attempts_issues].
    intros c Hc r err Hr. destruct c; simpl in *; contradiction. }
  intros _.
  apply Checked_after; [unfold call; apply Issues_Vis; [intros ? ? [] | intros; apply Issues_Ret] |].
  intros _.
  apply Checked_after; [unfold call; apply Issues_Vis; [intros ? ? [] | intros; apply Issues_Ret] |].
  intros [e | [| task more]]; constructor.
Qed.

Lemma Checked_CreateImage (config : Config) : Checked (CreateImage config).
Proof.
  unfold CreateImage.
  apply Checked_andThen.
  { unfold getEc2Service, call. cbn [bind]. constructor.
    - intros r err Hr. simpl in Hr. now rewrite Hr.
    - intros [e |] Hnot; [now elim (Hnot e) | constructor]. }
  intros _. unfold call. cbn [bind]. constructor.
  { intros r err Hr. simpl in Hr. now rewrite Hr. }
  intros [e | importTaskId] Himport; [now elim (Himport e) |].
  apply Checked_andThen; [apply Checked_waitSnapshotToBeReady |].
  intros snapshotID. cbn [bind]. constructor.
  { intros r err Hr. simpl in Hr. now rewrite Hr. }
  intros [e |] Hdelete; [now elim (Hdelete e) |].
  cbn [bind]. constructor; [intros r err [] |].
  intros [e |] _; [constructor |].
  cbn [bind]. constructor; [intros r err [] |].
  intros now _. cbn [bind]. constructor.
  { intros r err Hr. simpl in Hr. now rewrite Hr. }
  intros [e | imageId] Hregister; [now elim (Hregister e) |].
  cbn [bind]. constructor; [intros r err [] |].
  intros r _. constructor.
Qed.

(** X10.  In [CreateImage], when the opening of a session, the
    submission of the import, the deletion of the staging blob or the
    registration of the image is refused, that call is the last one
    [CreateImage] issues and its error is the error [CreateImage]
    returns. *)
Theorem CreateImage_stops_at_refused_step (config : Config) (o : Oracle)
    (h : list Entry) (e : Entry) (err : sdkerr) :
  In e (transcript o h (CreateImage config)) ->
  stepRefused err e ->
  (exists before, transcript o h (CreateImage config) = before ++ [e])
  /\ result o h (CreateImage config) = Err (ErrSDK err).
Proof.
  apply Checked_sound. apply Checked_CreateImage.
Qed.

Lemma CreateImage_stops_at_refused_step_witness :
  transcript (refusingImport (AwsError "InvalidParameter" "no such bucket"))
    [] (CreateImage requestA)
  = [entry (NewSession "us-west-1") None]
    ++ [entry (ImportSnapshot "nanos-images" "img-v3")
          (inl (AwsError "InvalidParameter" "no such bucket"))]
  /\ result (refusingImport (AwsError "InvalidParameter" "no such bucket"))
       [] (CreateImage requestA)
     = Err (ErrSDK (AwsError "InvalidParameter" "no such bucket")).
Proof.
  split; [reflexivity |].
  apply (CreateImage_stops_at_refused_step requestA
           (refusingImport (AwsError "InvalidParameter" "no such bucket")) []
           (entry (ImportSnapshot "nanos-images" "img-v3")
              (inl (AwsError "InvalidParameter" "no such bucket")))).
  - right. left. reflexivity.
  - reflexivity.
Defined.

(** Closes a goal [Forall (fun e => ~ isRegisterImageCall (callOf e)) l]
    for a list [l] built from explicit entries and lists already known
    to hold no registration. *)
Ltac no_register :=
  repeat first
    [ assumption
    | apply Forall_nil
    | apply Forall_cons; [simpl; tauto |]
    | apply Forall_app; split ].

Ltac never_registered :=
  let Hex := fresh "Hex" in
  intros [Hex | ?]; [| discriminate];
  exfalso; revert Hex; apply Forall_Exists_neg; no_register.

(** X11.  [CreateImage] registers an image at most once, and only as
    the call that follows, in this order, a description of the import
    task that lists a task, the accepted deletion of the staging blob,
    the accepted name tag of the snapshot of the first listed task, and
    one reading of the clock.  The image is registered on that snapshot
    under the image key followed by the decimal nanoseconds of the
    reading, a name that differs from the key; when [CreateImage]
    returns without error the registration was accepted and the only
    call after it tags the registered image with the key. *)
Theorem CreateImage_registers_described_snapshot (config : Config)
    (o : Oracle) (h : list Entry) :
  let bucket := BucketName (cloudConfig config) in
  let key := ImageName (cloudConfig config) in
  Exists (fun e => isRegisterImageCall (callOf e))
    (transcript o h (CreateImage config))
  \/ result o h (CreateImage config) = Ok tt ->
  exists before id task more now answer after,
    let snapshot := ec2.SnapshotId (ec2.SnapshotTaskDetail_ task) in
    let amiName :=
      (key ++ strconv.FormatInt10 (time.UnixNano now))%string in
    transcript o h (CreateImage config)
    = before
      ++ [entry (DescribeImportSnapshotTasks [id]) (inr (task :: more));
          entry (DeleteFromBucket config key) None;
          entry (CreateTags [snapshot] [nameTag key]) None;
          entry Now now;
          entry (RegisterImage (registerImageInput amiName key snapshot))
            answer]
      ++ after
    /\ In (entry (ImportSnapshot bucket key) (inr id)) before
    /\ amiName <> key
    /\ Forall (fun e => ~ isRegisterImageCall (callOf e)) (before ++ after)
    /\ (result o h (CreateImage config) = Ok tt ->
        exists imageId tagged,
          answer = inr imageId
          /\ after = [entry (CreateTags [imageId] [nameTag key]) tagged]).
Proof.
  intros bucket key.
  unfold CreateImage. fold bucket key.
  rewrite transcript_andThen, result_andThen.
  unfold getEc2Service, call.
  cbn [bind transcript result app].
  destruct (o h (NewSession _)) as [e |] eqn:Hsession;
    cbn [bind transcript result app]; [never_registered |].
  destruct (o _ (ImportSnapshot bucket key)) as [e | id] eqn:Himport;
    cbn [bind transcript result app]; [never_registered |].
  rewrite transcript_andThen, result_andThen.
  match goal with
  | |- context [transcript o ?hw (waitSnapshotToBeReady config id)] =>
      pose proof (waitSnapshotToBeReady_run config id o hw) as Hrun;
      cbn zeta in Hrun;
      remember (transcript o hw (waitSnapshotToBeReady config id)) as tw
        eqn:Htw;
      remember (result o hw (waitSnapshotToBeReady config id)) as rw
        eqn:Hrw;
      remember hw as h2 eqn:Hh2
  end.
  destruct (o h2 (NewSession _)) as [e |].
  { destruct Hrun as [-> ->]. cbn [app]. never_registered. }
  destruct (o _ (DescribeImportSnapshotTasks [id])) as [e | tasks].
  { destruct Hrun as [-> ->]. cbn [app]. never_registered. }
  destruct Hrun as (mid & hlast & -> & Hmid & ->).
  assert (Hquiet : Forall (fun e => ~ isRegisterImageCall (callOf e)) mid).
  { eapply Forall_impl; [| exact Hmid].
    intros [c r] Hc. simpl in *. destruct c; simpl in *; tauto. }
  destruct (o hlast (DescribeImportSnapshotTasks [id]))
    as [e | [| task more]] eqn:Hlast.
  1, 2: cbn [app]; rewrite app_nil_r; never_registered.
  set (snapshot := ec2.SnapshotId (ec2.SnapshotTaskDetail_ task)).
  set (before :=
         [entry (NewSession (Zone (cloudConfig config))) None;
          entry (ImportSnapshot bucket key) (inr id);
          entry (NewSession (Zone (cloudConfig config))) None;
          entry (DescribeImportSnapshotTasks [id]) (inr tasks)] ++ mid).
  assert (Hbefore :
            Forall (fun e => ~ isRegisterImageCall (callOf e)) before).
  { unfold before. no_register. }
  assert (Himp : In (entry (ImportSnapshot bucket key) (inr id)) before).
  { unfold before. right. left. reflexivity. }
  cbn [bind transcript result app].
  match goal with
  | |- context [o ?hd (DeleteFromBucket config key)] =>
      destruct (o hd (DeleteFromBucket config key)) as [e |]
  end; cbn [bind transcript result app]; [never_registered |].
  match goal with
  | |- context [o ?ht (CreateTags [snapshot] [nameTag key])] =>
      destruct (o ht (CreateTags [snapshot] [nameTag key])) as [e |]
  end; cbn [bind transcript result app]; [never_registered |].
  match goal with
  | |- context [o ?hn Now] => set (now := o hn Now)
  end.
  match goal with
  | |- context [o ?hr (RegisterImage ?input)] =>
      set (answer := o hr (RegisterImage input))
  end.
  intros _.
  assert (Hname :
            (key ++ strconv.FormatInt10 (time.UnixNano now))%string <> key).
  { intros H. apply append_not_self in H. now apply Itoa_nonempty in H. }
  destruct answer as [e | imageId] eqn:Hanswer;
    cbn [bind transcript result app].
  - exists before, id, task, more, now, (inl e), [].
    cbn zeta. fold snapshot.
    split; [unfold before; cbn [app]; now rewrite <- app_assoc |].
    split; [exact Himp |]. split; [exact Hname |].
    split; [now rewrite app_nil_r |]. discriminate.
  - match goal with
    | |- context [o ?hl (CreateTags [imageId] [nameTag key])] =>
        set (tagged := o hl (CreateTags [imageId] [nameTag key]))
    end.
    exists before, id, task, more, now, (inr imageId),
      [entry (CreateTags [imageId] [nameTag key]) tagged].
    cbn zeta. fold snapshot.
    split; [unfold before; cbn [app]; now rewrite <- app_assoc |].
    split; [exact Himp |]. split; [exact Hname |].
    split; [no_register |].
    intros _. now exists imageId, tagged.
Qed.

Lemma CreateImage_registers_described_snapshot_witness :
  result provider [] (CreateImage requestA) = Ok tt
  /\ exists before id task more now answer after,
       transcript provider [] (CreateImage requestA)
       = before
         ++ [entry (DescribeImportSnapshotTasks [id]) (inr (task :: more));
             entry (DeleteFromBucket requestA "img-v3") None;
             entry (CreateTags
                      [ec2.SnapshotId (ec2.SnapshotTaskDetail_ task)]
                      [nameTag "img-v3"]) None;
             entry Now now;
             entry (RegisterImage
                      (registerImageInput
                         ("img-v3"
                          ++ strconv.FormatInt10 (time.UnixNano now))%string
                         "img-v3"
                         (ec2.SnapshotId (ec2.SnapshotTaskDetail_ task))))
               answer]
         ++ after
       /\ In (entry (ImportSnapshot "nanos-images" "img-v3") (inr id)) before
       /\ ("img-v3" ++ strconv.FormatInt10 (time.UnixNano now))%string
          <> "img-v3"
       /\ Forall (fun e => ~ isRegisterImageCall (callOf e))
            (before ++ after)
       /\ (result provider [] (CreateImage requestA) = Ok tt ->
           exists imageId tagged,
             answer = inr imageId
             /\ after
                = [entry (CreateTags [imageId] [nameTag "img-v3"]) tagged]).
Proof.
  split; [reflexivity |].
  apply (CreateImage_registers_described_snapshot requestA provider []).
  right. reflexivity.
Defined.

Lemma count_app (sort : Call -> bool) (a b : list Entry) :
  count sort (a ++ b) = (count sort a + count sort b)%nat.
Proof. unfold count. now rewrite filter_app, length_app. Qed.

Lemma sleptSeconds_app (a b : list Entry) :
  sleptSeconds (a ++ b) = sleptSeconds a + sleptSeconds b.
Proof.
  induction a as [| [c r] a IH]; [reflexivity |].
  cbn [app sleptSeconds fold_right] in *. fold (sleptSeconds (a ++ b)).
  fold (sleptSeconds a). rewrite IH. destruct c; simpl; lia.
Qed.

(** The waiter describes at most once per attempt and sleeps between
    two attempts only. *)
Lemma attempts_budget (w : request.Waiter) (f : list (option string))
    (o : Oracle) (n : nat) :
  0 <= request.Delay w ->
  forall h,
    (count isDescribeTasks (transcript o h (request.attempts w f n)) <= n)%nat
    /\ sleptSeconds (transcript o h (request.attempts w f n))
       <= request.Delay w * Z.of_nat (pred n).
Proof.
  intros Hd. induction n as [| n IH]; intros h; [cbn -[Z.mul Z.of_nat]; split; [lia | nia] |].
  cbn [request.attempts]. unfold call. cbn [bind transcript].
  destruct (request.accept _ _) as [verdict |].
  { cbn -[Z.mul Z.of_nat]. split; [lia | nia]. }
  destruct n as [| n]; [cbn -[Z.mul Z.of_nat]; split; [lia | nia] |].
  cbn [bind transcript].
  match goal with
  | |- context [transcript o ?hh (request.attempts w f (S n))] =>
      destruct (IH hh) as [Hc Hs];
      remember (transcript o hh (request.attempts w f (S n))) as t
  end.
  unfold count in *. cbn [filter callOf projT1 entry isDescribeTasks length].
  cbn [sleptSeconds fold_right callOf projT1 entry].
  fold (sleptSeconds t). cbn [pred] in *. split; [lia | nia].
Qed.

(** X12.  [waitSnapshotToBeReady] opens a session in the zone of the
    request, describes the import task it was given and no other, reads
    the clock, and sleeps 15 seconds at a time; it describes the task 62
    times at most and sleeps 885 seconds at most in all. *)
Theorem waitSnapshotToBeReady_budget (config : Config)
    (importTaskID : option string) (o : Oracle) (h : list Entry) :
  let t := transcript o h (waitSnapshotToBeReady config importTaskID) in
  Forall (fun e => isWaitCallFor config importTaskID (callOf e)) t
  /\ (count isDescribeTasks t <= 62)%nat
  /\ sleptSeconds t <= 885.
Proof.
  cbn zeta. split.
  { apply Issues_transcript. unfold waitSnapshotToBeReady, getEc2Service.
    apply Issues_andThen; [issues; reflexivity |]. intros _.
    apply Issues_bind; [issues; reflexivity |].
    intros [e | tasks]; [constructor |].
    apply Issues_bind; [issues; exact I |]. intros _.
    apply Issues_bind.
    { unfold request.WaitWithContext.
      generalize (request.MaxAttempts snapshotWaiter). intros n.
      induction n as [| n IH]; [constructor |].
      cbn [request.attempts]. apply Issues_bind; [issues; reflexivity |].
      intros r. destruct (request.accept _ _); [constructor |].
      destruct n; [constructor |].
      apply Issues_bind; [issues; reflexivity | intros _; exact IH]. }
    intros _. apply Issues_bind; [issues; exact I |]. intros _.
    apply Issues_bind; [issues; reflexivity |].
    intros [e | [| task more]]; constructor. }
  unfold waitSnapshotToBeReady. rewrite transcript_andThen.
  unfold getEc2Service, call. cbn [bind transcript result app].
  destruct (o h (NewSession _)) as [e |]; cbn [bind transcript result app];
    [cbn; split; lia |].
  destruct (o _ (DescribeImportSnapshotTasks _)) as [e | tasks];
    cbn [bind transcript result app]; [cbn; split; lia |].
  rewrite transcript_bind.
  match goal with
  | |- context [transcript o ?hw (request.WaitWithContext ?w ?f)] =>
      assert (Hd : 0 <= request.Delay w) by (cbn; lia);
      destruct (attempts_budget w f o (request.MaxAttempts w) Hd hw)
        as [Hc Hs];
      change (request.attempts w f (request.MaxAttempts w))
        with (request.WaitWithContext w f) in Hc, Hs;
      remember (transcript o hw (request.WaitWithContext w f)) as tw;
      remember (result o hw (request.WaitWithContext w f)) as rw
  end.
  cbn [bind transcript result app].
  change (request.Delay snapshotWaiter) with 15 in Hs.
  change (request.MaxAttempts snapshotWaiter) with 60%nat in Hc, Hs.
  change (Z.of_nat (pred 60)) with 59 in Hs.
  match goal with
  | |- context [tw ++ ?rest] => remember rest as tail eqn:Htail
  end.
  assert (Htl : (count isDescribeTasks tail <= 1)%nat
                /\ sleptSeconds tail = 0).
  { subst tail.
    match goal with
    | |- context [match ?d with inl _ => _ | inr _ => _ end] =>
        destruct d as [e | [| task more]]
    end; cbn; split; lia. }
  destruct Htl as [Htc Hts].
  split.
  - change (?a :: ?b :: ?c :: tw ++ tail)
      with ([a; b; c] ++ tw ++ tail).
    rewrite !count_app. cbn [count filter callOf projT1 entry
                              isDescribeTasks length]. lia.
  - change (?a :: ?b :: ?c :: tw ++ tail)
      with ([a; b; c] ++ tw ++ tail).
    rewrite !sleptSeconds_app.
    cbn [sleptSeconds fold_right callOf projT1 entry]. lia.
Qed.

(** ** The stages of a launch *)

(** A run of [CreateInstance] that launches, or that succeeds, went
    through every stage: the listing gave an image, [GetVPC] a network,
    the security group was resolved in it, [GetSubnet] gave a subnet of
    it, and the rest of the run is [launch] on these. *)
Lemma CreateInstance_stages
    (parse : string -> string -> option time.Time) (config : Config)
    (o : Oracle) (h : list Entry) :
  let zone := Zone (cloudConfig config) in
  let imgName := ImageName (cloudConfig config) in
  Exists (fun e => isRunInstances (callOf e))
    (transcript o h (CreateInstance parse config))
  \/ result o h (CreateInstance parse config) = Ok tt ->
  exists r0 images ami last r3 vpc sg subnet,
    let hv :=
      h ++ [entry (NewSession zone) r0;
            entry (DescribeImages [aws.String "self"]) (inr images);
            entry (NewSession zone) r3] in
    let tv := transcript o hv (GetVPC config) in
    let tg :=
      transcript o (hv ++ tv) (resolveSecurityGroup config imgName vpc) in
    let ts :=
      transcript o ((hv ++ tv) ++ tg) (GetSubnet config (ec2.VpcId vpc)) in
    let hl := ((hv ++ tv) ++ tg) ++ ts in
    let run := launch (withDefaultFlavor config) imgName ami sg subnet in
    scanImages parse imgName images "" time.zero = Ok (ami, last)
    /\ ami <> ""
    /\ result o hv (GetVPC config) = Ok vpc
    /\ result o (hv ++ tv) (resolveSecurityGroup config imgName vpc) = Ok sg
    /\ result o ((hv ++ tv) ++ tg) (GetSubnet config (ec2.VpcId vpc))
       = Ok subnet
    /\ transcript o h (CreateInstance parse config)
       = [entry (NewSession zone) r0;
          entry (DescribeImages [aws.String "self"]) (inr images);
          entry (NewSession zone) r3]
         ++ tv ++ tg ++ ts ++ transcript o hl run
    /\ result o h (CreateInstance parse config) = result o hl run.
Proof.
  intros zone imgName. unfold CreateInstance.
  rewrite transcript_bind, result_bind.
  destruct (getAWSImages_run o h zone) as [Ht Hr].
  fold zone imgName. rewrite Ht, Hr. clear Ht Hr.
  set (r0 := o h (NewSession zone)).
  set (ans := o _ (DescribeImages _)).
  assert (Hlookup : forall t : list Entry,
             Forall (fun e => isLookup (callOf e)) t ->
             Forall (fun e => ~ isRunInstances (callOf e)) t).
  { intros t. apply Forall_impl. intros [c r]. destruct c; simpl; tauto. }
  assert (Hsetup : forall t : list Entry,
             Forall (fun e => isSetup (callOf e)) t ->
             Forall (fun e => ~ isRunInstances (callOf e)) t).
  { intros t. apply Forall_impl. intros [c r]. destruct c; simpl; tauto. }
  destruct ans as [e | images] eqn:Hans; cbn [app transcript result].
  { intros [Hex | Hok]; [| discriminate]. exfalso. revert Hex.
    apply Forall_Exists_neg. repeat constructor; simpl; tauto. }
  destruct (scanImages parse imgName images "" time.zero)
    as [[ami last] | e | m |] eqn:Hscan; cbn [app transcript result];
    try (intros [Hex | Hok]; [| discriminate]; exfalso; revert Hex;
         apply Forall_Exists_neg; repeat constructor; simpl; tauto).
  destruct (String.eqb ami "") eqn:Hami; cbn [app transcript result].
  { intros [Hex | Hok]; [| discriminate]. exfalso. revert Hex.
    apply Forall_Exists_neg. repeat constructor; simpl; tauto. }
  apply String.eqb_neq in Hami.
  unfold call. cbn [bind transcript result].
  fold (withDefaultFlavor config).
  match goal with
  | |- context [transcript o (?h3 ++ [entry (NewSession zone) ?r])
                  (andThen (GetVPC config) _)] =>
      set (r3 := r); set (hv := h3 ++ [entry (NewSession zone) r3])
  end.
  rewrite transcript_andThen, result_andThen.
  pose proof (Hlookup _ (Issues_transcript _ _ o (GetVPC_issues config) hv))
    as Hv.
  remember (transcript o hv (GetVPC config)) as tv eqn:Etv in *.
  destruct (result o hv (GetVPC config)) as [vpc | e | m |] eqn:Hvpc;
    try (intros [Hex | Hok]; [| discriminate]; exfalso; revert Hex;
         apply Forall_Exists_neg; rewrite ?app_nil_r;
         repeat (apply Forall_cons; [simpl; tauto |]); exact Hv).
  rewrite transcript_andThen, result_andThen.
  pose proof (Hsetup _ (Issues_transcript _ _ o
                (resolveSecurityGroup_issues config imgName vpc) (hv ++ tv)))
    as Hg.
  remember (transcript o (hv ++ tv)
              (resolveSecurityGroup config imgName vpc)) as tg eqn:Etg in *.
  destruct (result o (hv ++ tv) (resolveSecurityGroup config imgName vpc))
    as [sg | e | m |] eqn:Hsg;
    try (intros [Hex | Hok]; [| discriminate]; exfalso; revert Hex;
         apply Forall_Exists_neg; rewrite ?app_nil_r;
         repeat (apply Forall_cons; [simpl; tauto |]);
         apply Forall_app; split; assumption).
  rewrite transcript_andThen, result_andThen.
  pose proof (Hlookup _ (Issues_transcript _ _ o
                (GetSubnet_issues config (ec2.VpcId vpc))
                ((hv ++ tv) ++ tg))) as Hs.
  remember (transcript o ((hv ++ tv) ++ tg)
              (GetSubnet config (ec2.VpcId vpc))) as ts eqn:Ets in *.
  destruct (result o ((hv ++ tv) ++ tg) (GetSubnet config (ec2.VpcId vpc)))
    as [subnet | e | m |] eqn:Hsub;
    try (intros [Hex | Hok]; [| discriminate]; exfalso; revert Hex;
         apply Forall_Exists_neg; rewrite ?app_nil_r;
         repeat (apply Forall_cons; [simpl; tauto |]);
         repeat (apply Forall_app; split; try assumption)).
  intros _.
  exists r0, images, ami, last, r3, vpc, sg, subnet. cbn zeta.
  assert (Ehv : h ++ [entry (NewSession zone) r0;
                      entry (DescribeImages [aws.String "self"]) (inr images);
                      entry (NewSession zone) r3] = hv).
  { unfold hv. rewrite <- app_assoc. reflexivity. }
  rewrite Ehv, <- Etv, <- Etg, <- Ets.
  repeat (split; [assumption || reflexivity |]).
  reflexivity.
Qed.

Lemma count_zero (sort : Call -> bool) (t : list Entry) :
  Forall (fun e => sort (callOf e) = false) t -> count sort t = 0%nat.
Proof.
  unfold count. induction 1 as [| e t He _ IH]; [reflexivity |].
  simpl. now rewrite He.
Qed.

Lemma GetVPC_listed (config : Config) (o : Oracle) (h : list Entry)
    (vpc : ec2.Vpc) :
  result o h (GetVPC config) = Ok vpc ->
  exists input vpcs,
    transcript o h (GetVPC config)
    = [entry (DescribeVpcs input) (inr vpcs)]
    /\ In vpc vpcs.
Proof.
  unfold GetVPC, call.
  destruct (negb (String.eqb (VPC (runConfig config)) ""));
    cbn [bind transcript result];
    destruct (o h (DescribeVpcs _)) as [e | [| first rest]] eqn:Hans;
    cbn [transcript result]; try discriminate.
  - intros [= <-]. do 2 eexists. split; [reflexivity | now left].
  - destruct (selectDefaultVpc (first :: rest)) as [v |] eqn:Hsel;
      cbn [transcript result]; intros [= <-]; do 2 eexists;
      (split; [reflexivity |]);
      [now apply selectDefaultVpc_In | now left].
Qed.

Lemma GetSubnet_listed (config : Config) (vpcID : string) (o : Oracle)
    (h : list Entry) (subnet : ec2.Subnet) :
  result o h (GetSubnet config vpcID) = Ok subnet ->
  exists filters subnets,
    transcript o h (GetSubnet config vpcID)
    = [entry (DescribeSubnets filters) (inr subnets)]
    /\ In (vpcFilter vpcID) filters
    /\ In subnet subnets.
Proof.
  unfold GetSubnet, call.
  destruct (negb (String.eqb (Subnet (runConfig config)) ""));
    cbn [app bind transcript result];
    destruct (o h (DescribeSubnets _)) as [e | [| first rest]] eqn:Hans;
    cbn [transcript result]; try discriminate.
  - destruct (find ec2.DefaultForAz (first :: rest)) as [s |] eqn:Hfind;
      cbn [transcript result]; intros [= <-]; do 2 eexists;
      (split; [reflexivity |]); (split; [now left |]);
      [apply find_some in Hfind; tauto | now left].
  - intros [= <-]. do 2 eexists.
    split; [reflexivity |]. split; now left.
Qed.

Lemma resolveSecurityGroup_created (config : Config) (imgName : string)
    (vpc : ec2.Vpc) (o : Oracle) (h : list Entry) (sg : string) :
  ~ declaresGroup config ->
  result o h (resolveSecurityGroup config imgName vpc) = Ok sg ->
  exists name gid,
    In (entry (CreateSecurityGroup name ("security group for " ++ imgName)
                 (ec2.VpcId vpc)) (inr gid))
      (transcript o h (resolveSecurityGroup config imgName vpc))
    /\ sg = aws.StringValue gid.
Proof.
  intros Hno. unfold resolveSecurityGroup.
  assert (Hb : negb (String.eqb (SecurityGroup (runConfig config)) "")
               && negb (String.eqb (VPC (runConfig config)) "") = false).
  { unfold declaresGroup in Hno.
    destruct (String.eqb_spec (SecurityGroup (runConfig config)) "");
      [reflexivity |].
    destruct (String.eqb_spec (VPC (runConfig config)) "");
      [reflexivity | tauto]. }
  rewrite Hb. intros Hres.
  pose proof (CreateSG_run config imgName (ec2.VpcId vpc) o h) as Hrun.
  cbv zeta in Hrun.
  match type of Hrun with
  | match o ?h1 (CreateSecurityGroup ?name _ _) with _ => _ end =>
      destruct (o h1 (CreateSecurityGroup name
                        ("security group for " ++ imgName)%string
                        (ec2.VpcId vpc)))
        as [err | gid];
      [destruct Hrun as [_ Hr]; rewrite Hr in Hres; discriminate |];
      exists name, gid
  end.
  destruct (map _ _ ++ map _ _) as [| perm perms].
  - destruct Hrun as [-> Hr]. rewrite Hr in Hres. injection Hres as <-.
    split; [right; left; reflexivity | reflexivity].
  - destruct Hrun as [-> Hr]. rewrite Hr in Hres.
    match type of Hres with
    | match ?a with Some _ => _ | None => _ end = _ =>
        destruct a; [discriminate |]
    end.
    injection Hres as <-.
    split; [right; left; reflexivity | reflexivity].
Qed.

(** X13.  [CreateInstance] launches at most once.  The launch asks for
    exactly one instance, of the flavor of the request or "t2.micro"
    when none is given, with one tag list for the instance and for its
    volume, in a subnet that the provider listed for the network
    [GetVPC] resolved, itself one of the listed networks; when the
    request does not declare both a security group and a network, the
    instance is put in the one group the run created in that network. *)
Theorem CreateInstance_launch_placement
    (parse : string -> string -> option time.Time) (config : Config)
    (o : Oracle) (h : list Entry)
    (input : ec2.RunInstancesInput) (r : Resp (RunInstances input)) :
  let t := transcript o h (CreateInstance parse config) in
  let imgName := ImageName (cloudConfig config) in
  In (entry (RunInstances input) r) t ->
  count isRunInstancesCall t = 1%nat
  /\ ec2.InstanceType input
     = (if String.eqb (Flavor (cloudConfig config)) "" then "t2.micro"
        else Flavor (cloudConfig config))
  /\ ec2.MinCount input = 1
  /\ ec2.MaxCount input = 1
  /\ (exists tags,
         ec2.TagSpecifications input
         = [ {| ec2.ResourceType := "instance"; ec2.SpecTags := tags |};
             {| ec2.ResourceType := "volume"; ec2.SpecTags := tags |} ])
  /\ exists filterV vpcs vpc filterS subnets subnet,
       In (entry (DescribeVpcs filterV) (inr vpcs)) t
       /\ In vpc vpcs
       /\ In (entry (DescribeSubnets filterS) (inr subnets)) t
       /\ In (vpcFilter (ec2.VpcId vpc)) filterS
       /\ In subnet subnets
       /\ ec2.RunSubnetId input = ec2.SubnetId subnet
       /\ (~ declaresGroup config ->
           exists name gid,
             In (entry (CreateSecurityGroup name
                          ("security group for " ++ imgName)
                          (ec2.VpcId vpc)) (inr gid)) t
             /\ ec2.SecurityGroupIds input = [aws.StringValue gid]).
Proof.
  intros t imgName Hin.
  assert (Hex : Exists (fun e => isRunInstances (callOf e)) t).
  { apply Exists_exists. eexists. split; [exact Hin | exact I]. }
  destruct (CreateInstance_stages parse config o h (or_introl Hex))
    as (r0 & images & ami & last & r3 & vpc & sg & subnet & Hst).
  cbv zeta in Hst.
  destruct Hst as (Hscan & Hami & Hvpc & Hsg & Hsub & Ht & _).
  fold imgName in Hsg, Hsub, Ht.
  match type of Hvpc with
  | result o ?hv0 _ = _ => set (hv := hv0) in *
  end.
  assert (Hquiet : forall P (p : Prog (outcome P)) hh,
             Issues isSetup p ->
             Forall (fun e => isRunInstancesCall (callOf e) = false)
               (transcript o hh p)).
  { intros P p hh Hp. eapply Forall_impl; [| apply Issues_transcript, Hp].
    intros [c a]. destruct c; simpl; tauto. }
  pose proof (Hquiet _ _ hv
                (Issues_impl _ _ _ isLookup_isSetup (GetVPC_issues config)))
    as Qv.
  pose proof (Hquiet _ _ (hv ++ transcript o hv (GetVPC config))
                (resolveSecurityGroup_issues config imgName vpc)) as Qg.
  pose proof (Hquiet _ _
                ((hv ++ transcript o hv (GetVPC config))
                 ++ transcript o (hv ++ transcript o hv (GetVPC config))
                      (resolveSecurityGroup config imgName vpc))
                (Issues_impl _ _ _ isLookup_isSetup
                   (GetSubnet_issues config (ec2.VpcId vpc)))) as Qs.
  destruct (GetVPC_listed config o hv vpc Hvpc)
    as (filterV & vpcs & Etv & Hinv).
  destruct (GetSubnet_listed config (ec2.VpcId vpc) o _ subnet Hsub)
    as (filterS & subnets & Ets & Hfs & Hins).
  remember (transcript o hv (GetVPC config)) as tv eqn:Htv in *.
  remember (transcript o (hv ++ tv) (resolveSecurityGroup config imgName vpc))
    as tg eqn:Htg in *.
  remember (transcript o ((hv ++ tv) ++ tg) (GetSubnet config (ec2.VpcId vpc)))
    as ts eqn:Hts in *.
  destruct (launch_run (withDefaultFlavor config) imgName ami sg subnet o
              (((hv ++ tv) ++ tg) ++ ts)) as [Hl _].
  cbv zeta in Hl.
  match type of Hl with
  | _ = entry Now ?n :: entry (RunInstances ?i) ?a :: ?tail =>
      remember tail as polls eqn:Hpolls;
      remember a as ans eqn:Hans;
      remember i as input0 eqn:Hinput0;
      remember n as now eqn:Hnow
  end.
  rewrite Hl in Ht. clear Hl.
  assert (Qp : Forall (fun e => isRunInstancesCall (callOf e) = false) polls).
  { subst polls.
    match goal with
    | |- Forall _ (if ?b then _ else _) => destruct b; [| constructor]
    end.
    eapply Forall_impl; [| apply Issues_transcript, pollPublicIp_issues].
    intros [c a] Hc. destruct c; simpl in *; tauto || reflexivity. }
  assert (Hinput : input = input0).
  { unfold t in Hin. rewrite Ht in Hin.
    assert (Hnot : forall l,
               Forall (fun e => isRunInstancesCall (callOf e) = false) l ->
               ~ In (entry (RunInstances input) r) l).
    { intros l Hl Hi. rewrite Forall_forall in Hl.
      specialize (Hl _ Hi). discriminate Hl. }
    apply in_app_or in Hin. destruct Hin as [Hin | Hin].
    { destruct Hin as [Hin | [Hin | [Hin | []]]];
        apply (f_equal callOf) in Hin; discriminate Hin. }
    apply in_app_or in Hin. destruct Hin as [Hin | Hin];
      [now elim (Hnot _ Qv Hin) |].
    apply in_app_or in Hin. destruct Hin as [Hin | Hin];
      [now elim (Hnot _ Qg Hin) |].
    apply in_app_or in Hin. destruct Hin as [Hin | Hin];
      [now elim (Hnot _ Qs Hin) |].
    destruct Hin as [Hin | [Hin | Hin]].
    - apply (f_equal callOf) in Hin. discriminate Hin.
    - apply (f_equal callOf) in Hin. simpl in Hin.
      injection Hin as Hin. first [exact Hin | symmetry; exact Hin].
    - now elim (Hnot _ Qp Hin). }
  subst input.
  split.
  { unfold t. rewrite Ht.
    change (entry Now now :: entry (RunInstances input0) ans :: polls)
      with ([entry Now now; entry (RunInstances input0) ans] ++ polls).
    rewrite !count_app.
    rewrite (count_zero _ _ Qv), (count_zero _ _ Qg), (count_zero _ _ Qs),
      (count_zero _ _ Qp).
    reflexivity. }
  split.
  { rewrite Hinput0. unfold runInstancesInput, withDefaultFlavor.
    cbn [ec2.InstanceType].
    destruct (String.eqb (Flavor (cloudConfig config)) ""); reflexivity. }
  split; [now rewrite Hinput0 |]. split; [now rewrite Hinput0 |].
  split; [rewrite Hinput0; eexists; reflexivity |].
  exists filterV, vpcs, vpc, filterS, subnets, subnet.
  unfold t. rewrite Ht.
  split.
  { apply in_or_app. right. apply in_or_app. left.
    rewrite Etv. left. reflexivity. }
  split; [exact Hinv |].
  split.
  { apply in_or_app. right. apply in_or_app. right. apply in_or_app. right.
    apply in_or_app. left. rewrite Ets. left. reflexivity. }
  split; [exact Hfs |]. split; [exact Hins |].
  split; [now rewrite Hinput0 |].
  intros Hno.
  destruct (resolveSecurityGroup_created config imgName vpc o _ sg Hno Hsg)
    as (name & gid & Hing & Hgid).
  exists name, gid. split; [| now rewrite Hinput0, Hgid].
  apply in_or_app. right. apply in_or_app. right. apply in_or_app. left.
  rewrite <- Htg in Hing. exact Hing.
Qed.

Lemma CreateInstance_launch_placement_witness :
  let input :=
    runInstancesInput (withFlavor requestA "t2.micro") "ami-june" "sg-new"
      subnetA (fst (parseToAWSTags [] "img-v3-1600000000")) in
  let t := transcript provider [] (CreateInstance parseDates requestA) in
  In (entry (RunInstances input) (inr [instanceWith None])) t
  /\ count isRunInstancesCall t = 1%nat
  /\ ec2.InstanceType input = "t2.micro"
  /\ exists vpc subnet name gid,
       In (entry (DescribeVpcs None) (inr [vpcSide; vpcMain])) t
       /\ In vpc [vpcSide; vpcMain]
       /\ In subnet [subnetA; subnetB]
       /\ ec2.RunSubnetId input = ec2.SubnetId subnet
       /\ In (entry (CreateSecurityGroup name "security group for img-v3"
                       (ec2.VpcId vpc)) (inr gid)) t
       /\ ec2.SecurityGroupIds input = [aws.StringValue gid].
Proof.
  cbv zeta.
  assert (Hin : In (entry
                      (RunInstances
                         (runInstancesInput (withFlavor requestA "t2.micro")
                            "ami-june" "sg-new" subnetA
                            (fst (parseToAWSTags [] "img-v3-1600000000"))))
                      (inr [instanceWith None]))
                  (transcript provider []
                     (CreateInstance parseDates requestA))).
  { do 9 right. left. reflexivity. }
  split; [exact Hin |].
  destruct (CreateInstance_launch_placement parseDates requestA provider []
              _ _ Hin)
    as (Hcount & Htype & _ & _ & _ & Hplace).
  split; [exact Hcount |]. split; [exact Htype |].
  exists vpcMain, subnetA, "img-v31600000000000000000"%string,
    (Some "sg-new"%string).
  split; [do 3 right; left; reflexivity |].
  split; [right; left; reflexivity |].
  split; [left; reflexivity |].
  split; [reflexivity |].
  split; [do 5 right; left; reflexivity | reflexivity].
Defined.



(** ** The listing of the images *)


Lemma scanImages_unreadable
    (parse : string -> string -> option time.Time) (imgName : string)
    (images : list ec2.Image) :
  Exists (fun image =>
            imageMatches imgName image = true
            /\ parse layout (aws.StringValue (ec2.CreationDate image)) = None)
    images ->
  forall ami last,
    exists image,
      In image images
      /\ imageMatches imgName image = true
      /\ scanImages parse imgName images ami last
         = Err (ErrTimeParse (aws.StringValue (ec2.CreationDate image))).
Proof.
  induction images as [| image images IH]; intros Hex ami last;
    [inversion Hex |].
  simpl.
  destruct (imageMatches imgName image) eqn:Hm.
  - destruct (parse layout (aws.StringValue (ec2.CreationDate image)))
      as [t |] eqn:Hp.
    + inversion Hex as [? ? [_ Hn] | ? ? Htl]; subst; [congruence |].
      destruct (IH Htl (aws.StringValue (ec2.ImageId image))
                  (if time.Before last t then t else last))
        as (bad & Hin & Hbad & Hscan).
      exists bad. auto.
    + exists image. auto.
  - inversion Hex as [? ? [Hy _] | ? ? Htl]; subst; [congruence |].
    destruct (IH Htl ami last) as (bad & Hin & Hbad & Hscan).
    exists bad. auto.
Qed.

Lemma scanImages_readable
    (parse : string -> string -> option time.Time) (imgName : string)
    (images : list ec2.Image) (ami0 ami : string) (last0 last : time.Time) :
  scanImages parse imgName images ami0 last0 = Ok (ami, last) ->
  Forall (fun image =>
            imageMatches imgName image = true ->
            parse layout (aws.StringValue (ec2.CreationDate image)) <> None)
    images.
Proof.
  intros Hscan. apply Forall_forall. intros image Hin Hm Hp.
  assert (Hex : Exists (fun image =>
                          imageMatches imgName image = true
                          /\ parse layout
                               (aws.StringValue (ec2.CreationDate image))
                             = None) images).
  { apply Exists_exists. exists image. auto. }
  destruct (scanImages_unreadable parse imgName images Hex ami0 last0)
    as (bad & _ & _ & Hbad).
  congruence.
Qed.

(** [CreateInstance] up to the scan of the listed images. *)
Lemma CreateInstance_listing
    (parse : string -> string -> option time.Time) (config : Config)
    (o : Oracle) (h : list Entry) :
  let zone := Zone (cloudConfig config) in
  let imgName := ImageName (cloudConfig config) in
  let r0 := o h (NewSession zone) in
  let ans :=
    o (h ++ [entry (NewSession zone) r0]) (DescribeImages [aws.String "self"]) in
  exists rest,
    transcript o h (CreateInstance parse config)
    = entry (NewSession zone) r0
      :: entry (DescribeImages [aws.String "self"]) ans :: rest
    /\ match ans with
       | inl _ =>
           rest = []
           /\ result o h (CreateInstance parse config) = Exit "Invalid zone"
       | inr images =>
           match scanImages parse imgName images "" time.zero with
           | Ok (ami, _) =>
               if String.eqb ami ""
               then rest = []
                    /\ result o h (CreateInstance parse config)
                       = Err ErrCantFindAmi
               else rest <> []
           | Err e =>
               rest = [] /\ result o h (CreateInstance parse config) = Err e
           | Exit m =>
               rest = [] /\ result o h (CreateInstance parse config) = Exit m
           | Panic =>
               rest = [] /\ result o h (CreateInstance parse config) = Panic
           end
       end.
Proof.
  intros zone imgName r0 ans. unfold CreateInstance.
  rewrite transcript_bind, result_bind.
  destruct (getAWSImages_run o h zone) as [Ht Hr].
  fold zone imgName. rewrite Ht, Hr. clear Ht Hr. cbv zeta.
  fold r0. fold ans. cbn [app].
  destruct ans as [e | images]; cbn [transcript result].
  { exists []. auto. }
  destruct (scanImages parse imgName images "" time.zero)
    as [[ami last] | e | m |]; cbn [transcript result];
    try (exists []; auto; fail).
  destruct (String.eqb ami ""); cbn [transcript result];
    [exists []; auto |].
  unfold call. cbn [bind transcript]. eexists. split; [reflexivity |].
  discriminate.
Qed.

(** X15.  [CreateInstance] issues a call beyond the two of the image
    listing, or succeeds, only when the listing was answered, one of the
    listed images carries the image name of the request as its first tag
    value, and the creation date of every such image can be read. *)
Theorem CreateInstance_goes_on_with_a_usable_image
    (parse : string -> string -> option time.Time) (config : Config)
    (o : Oracle) (h : list Entry) :
  let imgName := ImageName (cloudConfig config) in
  let t := transcript o h (CreateInstance parse config) in
  (2 < length t)%nat \/ result o h (CreateInstance parse config) = Ok tt ->
  exists r0 images rest,
    t = entry (NewSession (Zone (cloudConfig config))) r0
        :: entry (DescribeImages [aws.String "self"]) (inr images) :: rest
    /\ (exists image,
           lastMatchingImage imgName images = Some image
           /\ aws.StringValue (ec2.ImageId image) <> "")
    /\ Forall (fun image =>
                 imageMatches imgName image = true ->
                 parse layout (aws.StringValue (ec2.CreationDate image))
                 <> None)
         images.
Proof.
  intros imgName t Hon.
  destruct (CreateInstance_listing parse config o h) as (rest & Ht & Hcase).
  cbv zeta in Ht, Hcase. fold t in Ht. fold imgName in Hcase.
  assert (Hstop : rest = [] ->
                  result o h (CreateInstance parse config) <> Ok tt ->
                  False).
  { intros -> Hres. destruct Hon as [Hlen | Hok]; [| now elim Hres].
    rewrite Ht in Hlen. simpl in Hlen. lia. }
  destruct (o _ (DescribeImages _)) as [e | images].
  { exfalso. destruct Hcase as [Hrest Hres]. apply (Hstop Hrest).
    rewrite Hres. discriminate. }
  destruct (scanImages parse imgName images "" time.zero)
    as [[ami last] | e | m |] eqn:Hscan;
    try (exfalso; destruct Hcase as [Hrest Hres]; apply (Hstop Hrest);
         rewrite Hres; discriminate).
  destruct (String.eqb ami "") eqn:Hami.
  { exfalso. destruct Hcase as [Hrest Hres]. apply (Hstop Hrest).
    rewrite Hres. discriminate. }
  apply String.eqb_neq in Hami.
  exists (o h (NewSession (Zone (cloudConfig config)))), images, rest.
  split; [exact Ht |]. split.
  - pose proof (scanImages_last parse imgName images "" time.zero ami last
                  Hscan) as Hlast.
    destruct (lastMatchingImage imgName images) as [image |];
      [| congruence].
    exists image. split; [reflexivity | congruence].
  - exact (scanImages_readable parse imgName images "" ami time.zero last
             Hscan).
Qed.

Lemma CreateInstance_goes_on_with_a_usable_image_witness :
  exists r0 images rest,
    transcript provider [] (CreateInstance parseDates requestA)
    = entry (NewSession "us-west-1") r0
      :: entry (DescribeImages [aws.String "self"]) (inr images) :: rest
    /\ (exists image,
           lastMatchingImage "img-v3" images = Some image
           /\ aws.StringValue (ec2.ImageId image) <> "")
    /\ Forall (fun image =>
                 imageMatches "img-v3" image = true ->
                 parseDates layout (aws.StringValue (ec2.CreationDate image))
                 <> None)
         images.
Proof.
  apply (CreateInstance_goes_on_with_a_usable_image parseDates requestA
           provider []).
  right. reflexivity.
Defined.





(** ** The wait for a public address *)


Lemma flat_map_map_concat {A B : Type} (f : A -> B) (l : list (list A)) :
  flat_map (map f) l = map f (concat l).
Proof.
  induction l as [| x l IH]; [reflexivity |].
  simpl. now rewrite map_app, IH.
Qed.



(** When the wait creates a DNS record, it does so as its last call,
    right after a lookup, for the first public address of the first
    listed instance, and ends with the answer of that call. *)
Lemma pollPublicIp_record (config : Config) (name : string) (o : Oracle)
    (n : nat) :
  forall h,
    Exists (fun e => isCreateDNSRecord (callOf e) = true)
      (transcript o h (pollPublicIp config name n)) ->
    exists before reservations instance rest ip ips r,
      transcript o h (pollPublicIp config name n)
      = before
        ++ [entry (DescribeInstances [nameFilter name]) (inr reservations);
            entry (CreateDNSRecord config ip) r]
      /\ Forall (fun e => isCreateDNSRecord (callOf e) = false) before
      /\ concat reservations = instance :: rest
      /\ PublicIps (formalizeAWSInstance instance) = ip :: ips
      /\ result o h (pollPublicIp config name n)
         = match r with Some e => Err e | None => Ok tt end.
Proof.
  induction n as [| n IH]; intros h; [intros Hex; inversion Hex |].
  cbn [pollPublicIp].
  unfold GetInstanceByID, getAWSInstances, andThen, call.
  cbn [bind transcript result].
  match goal with
  | |- context [o ?hd (DescribeInstances ?f)] =>
      destruct (o hd (DescribeInstances f)) as [e | reservations]
  end; cbn [bind transcript result].
  { intros Hex. exfalso. revert Hex. apply Forall_Exists_neg.
    repeat constructor; simpl; discriminate. }
  rewrite flat_map_map_concat.
  destruct (concat reservations) as [| instance rest] eqn:Hflat;
    cbn [map bind transcript result].
  - intros Hex.
    do 3 (apply Exists_cons in Hex;
          destruct Hex as [Hex | Hex]; [discriminate Hex |]).
    destruct (IH _ Hex)
      as (before & rs & inst & more & ip & ips & r & Ht & Hb & Hf & Hp & Hr).
    rewrite Ht, Hr.
    match goal with
    | |- exists _ _ _ _ _ _ _, ?a :: ?b :: ?c :: _ ++ _ = _ /\ _ =>
        exists (a :: b :: c :: before), rs, inst, more, ip, ips, r
    end.
    split; [reflexivity |].
    split; [repeat (constructor; [reflexivity |]); exact Hb |].
    auto.
  - destruct (PublicIps (formalizeAWSInstance instance)) as [| ip ips] eqn:Hp;
      cbn [bind transcript result].
    { intros Hex. exfalso. revert Hex. apply Forall_Exists_neg.
      repeat constructor; simpl; discriminate. }
    intros _.
    match goal with
    | |- context [o ?hh (CreateDNSRecord config ip)] =>
        set (r := o hh (CreateDNSRecord config ip))
    end.
    match goal with
    | |- exists _ _ _ _ _ _ _, ?a :: ?b :: _ = _ /\ _ =>
        exists [a; b], reservations, instance, rest, ip, ips, r
    end.
    split; [destruct r; reflexivity |].
    split; [repeat constructor |].
    split; [exact Hflat |]. split; [exact Hp |].
    destruct r; reflexivity.
Qed.

(** X19.  When [CreateInstance] creates a DNS record, that call is its
    last one and directly follows a lookup by the name of the instance;
    the record is for the first public address of the first instance of
    the answer, in the order of the reservations; no earlier call
    creates a record; and [CreateInstance] returns the error of the call,
    or succeeds when the call does. *)
Theorem CreateInstance_binds_first_public_address
    (parse : string -> string -> option time.Time) (config : Config)
    (o : Oracle) (h : list Entry) :
  let t := transcript o h (CreateInstance parse config) in
  Exists (fun e => isCreateDNSRecord (callOf e) = true) t ->
  exists before name reservations instance rest ip ips r,
    t = before
        ++ [entry (DescribeInstances [nameFilter name]) (inr reservations);
            entry (CreateDNSRecord (withDefaultFlavor config) ip) r]
    /\ Forall (fun e => isCreateDNSRecord (callOf e) = false) before
    /\ concat reservations = instance :: rest
    /\ PublicIps (formalizeAWSInstance instance) = ip :: ips
    /\ result o h (CreateInstance parse config)
       = match r with Some e => Err e | None => Ok tt end.
Proof.
  intros t Hex.
  destruct (CreateInstance_shape parse config o h)
    as (r0 & ans & pre & tl & Ht & Hpre & _ & _ & Htl).
  cbv zeta in Ht. fold t in Ht.
  assert (Hquiet : Forall (fun e => isCreateDNSRecord (callOf e) = false) pre).
  { eapply Forall_impl; [| exact Hpre].
    intros [c a]. destruct c; simpl; tauto || reflexivity. }
  assert (Hhead : Forall (fun e => isCreateDNSRecord (callOf e) = false)
                    (entry (NewSession (Zone (cloudConfig config))) r0
                     :: entry (DescribeImages [aws.String "self"]) ans
                     :: pre)).
  { constructor; [reflexivity |]. constructor; [reflexivity | exact Hquiet]. }
  assert (Hsplit : t = (entry (NewSession (Zone (cloudConfig config))) r0
                        :: entry (DescribeImages [aws.String "self"]) ans
                        :: pre) ++ tl) by exact Ht.
  clear Ht. remember (_ :: _ :: pre) as head eqn:Ehead. clear Ehead.
  assert (Htlx : Exists (fun e => isCreateDNSRecord (callOf e) = true) tl).
  { rewrite Hsplit in Hex. apply Exists_app in Hex.
    destruct Hex as [Hex | Hex]; [| exact Hex].
    exfalso. revert Hex. apply Forall_Exists_neg.
    eapply Forall_impl; [| exact Hhead]. intros a Ha. now rewrite Ha. }
  destruct Htl as [[-> _] | Hgo]; [inversion Htlx |].
  destruct Hgo as (images & ami & last & sg & subnet & hl & _ & _ & _
                   & -> & Hres).
  destruct (launch_run (withDefaultFlavor config)
              (ImageName (cloudConfig config)) ami sg subnet o hl)
    as [Hl Hr].
  cbv zeta in Hl, Hr. rewrite Hres, Hr. rewrite Hl in Htlx, Hsplit.
  clear Hl Hr Hres.
  do 2 (apply Exists_cons in Htlx;
        destruct Htlx as [Htlx | Htlx]; [discriminate Htlx |]).
  destruct (o _ (RunInstances _)) as [e | [| i more]];
    try (inversion Htlx; fail).
  destruct (negb _); [| inversion Htlx].
  destruct (pollPublicIp_record _ _ o 60 _ Htlx)
    as (before & rs & inst & rest & ip & ips & r & Ht & Hb & Hf & Hp & Hpr).
  rewrite Ht in Hsplit. rewrite Hpr.
  match type of Hsplit with
  | t = head ++ ?a :: ?b :: before ++ _ =>
      exists (head ++ a :: b :: before)
  end.
  do 7 eexists. split.
  { rewrite Hsplit. rewrite <- app_assoc. cbn [app]. reflexivity. }
  split.
  { apply Forall_app. split; [exact Hhead |].
    constructor; [reflexivity |]. constructor; [reflexivity | exact Hb]. }
  split; [exact Hf |]. split; [exact Hp | reflexivity].
Qed.

Lemma CreateInstance_binds_first_public_address_witness :
  exists before name reservations instance rest ip ips r,
    transcript listedInSecondReservation []
      (CreateInstance parseDates requestWithDomain)
    = before
      ++ [entry (DescribeInstances [nameFilter name]) (inr reservations);
          entry (CreateDNSRecord (withDefaultFlavor requestWithDomain) ip) r]
    /\ Forall (fun e => isCreateDNSRecord (callOf e) = false) before
    /\ concat reservations = instance :: rest
    /\ PublicIps (formalizeAWSInstance instance) = ip :: ips
    /\ result listedInSecondReservation []
         (CreateInstance parseDates requestWithDomain)
       = match r with Some e => Err e | None => Ok tt end.
Proof.
  apply (CreateInstance_binds_first_public_address parseDates
           requestWithDomain listedInSecondReservation []).
  do 13 right. left. reflexivity.
Defined.

(** ** Listings *)


Section GetImagesFacts.

Variable image_State : ec2.Image -> option string.

Lemma eachImage_rows (images : list ec2.Image) :
  forall cimages rows,
    eachImage image_State images cimages = Ok rows ->
    exists added,
      rows = cimages ++ added
      /\ Forall2 (fun image row => cloudImageOf image_State image = Ok row)
           images added.
Proof.
  induction images as [| image images IH]; intros cimages rows H.
  - injection H as <-. exists []. split; [now rewrite app_nil_r | constructor].
  - simpl in H.
    destruct (cloudImageOf image_State image) as [row | e | m |] eqn:Hrow;
      try discriminate.
    destruct (IH _ _ H) as (added & -> & Hall).
    exists (row :: added). split; [now rewrite <- app_assoc |].
    constructor; assumption.
Qed.

Lemma eachImage_never_fails (images : list ec2.Image) :
  forall cimages e, eachImage image_State images cimages <> Err e.
Proof.
  induction images as [| image images IH]; intros cimages e; [discriminate |].
  simpl. unfold cloudImageOf at 1.
  destruct (ec2.ImageName image); [| discriminate].
  destruct (image_State image); [| discriminate].
  destruct (ec2.CreationDate image); [| discriminate].
  apply IH.
Qed.

End GetImagesFacts.

(** X21.  When [GetImages] returns a list, it has one row for each
    listed image, in the order of the listing.  The row shows the name
    of the machine image as its id, and as its name the value of the
    first tag of the image, the one [CreateInstance] compares with the
    image name of a request: an image that [CreateInstance] would match
    for a name is shown under that name, and an image without tags,
    which [CreateInstance] never matches, is shown as "n/a".  The only
    error [GetImages] returns is the one of the listing. *)
Theorem GetImages_shows_the_name_CreateInstance_matches
    (image_State : ec2.Image -> option string) (config : Config)
    (o : Oracle) (h : list Entry) (images : list ec2.Image) :
  let zone := Zone (cloudConfig config) in
  let session := entry (NewSession zone) (o h (NewSession zone)) in
  o (h ++ [session]) (DescribeImages [aws.String "self"]) = inr images ->
  (forall e, result o h (GetImages image_State config) <> Err e)
  /\ forall rows,
       result o h (GetImages image_State config) = Ok rows ->
       Forall2
         (fun image row =>
            ec2.ImageName image = Some (CloudImage.ID row)
            /\ (forall imgName,
                   imageMatches imgName image = true ->
                   CloudImage.Name row = imgName)
            /\ (ec2.ImageTags image = [] ->
                CloudImage.Name row = "n/a"
                /\ forall imgName, imageMatches imgName image = false))
         images rows.
Proof.
  intros zone session Hans. subst session zone.
  unfold GetImages. rewrite result_andThen.
  destruct (getAWSImages_run o h (Zone (cloudConfig config))) as [_ Hr].
  cbv zeta in Hr. rewrite Hans in Hr.
  rewrite Hr. cbn [result]. split; [apply eachImage_never_fails |].
  intros rows Hrows.
  destruct (eachImage_rows image_State images [] rows Hrows)
    as (added & -> & Hall).
  cbn [app]. eapply Forall2_impl; [| exact Hall].
  intros image row Hrow. unfold cloudImageOf in Hrow.
  destruct (ec2.ImageName image) as [id |]; [| discriminate].
  destruct (image_State image) as [status |]; [| discriminate].
  destruct (ec2.CreationDate image) as [created |]; [| discriminate].
  injection Hrow as <-. cbn [CloudImage.ID CloudImage.Name].
  split; [reflexivity |]. split.
  - intros imgName Hm. unfold imageMatches, imageTagName in Hm.
    destruct (ec2.ImageTags image) as [| tag tags]; [discriminate Hm |].
    apply andb_prop in Hm. destruct Hm as [_ Hm].
    apply String.eqb_eq in Hm. exact Hm.
  - intros Hno. rewrite Hno. split; [reflexivity |].
    intros imgName. unfold imageMatches, imageTagName. rewrite Hno.
    reflexivity.
Qed.

Lemma GetImages_shows_the_name_CreateInstance_matches_witness :
  (forall e, result provider [] (GetImages stateAvailable requestA) <> Err e)
  /\ forall rows,
       result provider [] (GetImages stateAvailable requestA) = Ok rows ->
       Forall2
         (fun image row =>
            ec2.ImageName image = Some (CloudImage.ID row)
            /\ (forall imgName,
                   imageMatches imgName image = true ->
                   CloudImage.Name row = imgName)
            /\ (ec2.ImageTags image = [] ->
                CloudImage.Name row = "n/a"
                /\ forall imgName, imageMatches imgName image = false))
         [imageSeptember; imageJune] rows.
Proof.
  apply (GetImages_shows_the_name_CreateInstance_matches stateAvailable
           requestA provider [] [imageSeptember; imageJune]).
  reflexivity.
Defined.

(** ** The DNS client *)

(** X22.  Once [getDNSService] has returned a client, every later call
    on the receiver it left returns that same client without opening a
    session, whatever configuration it is given; a call that fails
    leaves the receiver as it was, so that the next call tries again. *)
Theorem getDNSService_caches_the_first_client (p : AWS) (config : Config)
    (o : Oracle) (h : list Entry) :
  let p' := fst (result o h (getDNSService p config)) in
  (forall svc,
      snd (result o h (getDNSService p config)) = Ok svc ->
      forall config' o' h',
        transcript o' h' (getDNSService p' config') = []
        /\ result o' h' (getDNSService p' config') = (p', Ok svc))
  /\ (forall e,
         snd (result o h (getDNSService p config)) = Err e -> p' = p)
  /\ (dnsService p = None ->
      transcript o h (getDNSService p config)
      = [entry (NewSession (Zone (cloudConfig config)))
           (o h (NewSession (Zone (cloudConfig config))))]).
Proof.
  cbv zeta.
  assert (Hcached : forall q svc config' o' h',
             dnsService q = Some svc ->
             transcript o' h' (getDNSService q config') = []
             /\ result o' h' (getDNSService q config') = (q, Ok svc)).
  { intros q svc config' o' h' Hq. unfold getDNSService. rewrite Hq.
    split; reflexivity. }
  destruct (dnsService p) as [cached |] eqn:Hp.
  - destruct (Hcached p cached config o h Hp) as [_ Hr]. rewrite Hr.
    cbn [fst snd]. split.
    + intros svc [= <-] config' o' h'. now apply Hcached.
    + split; [discriminate | discriminate].
  - assert (Hrun : transcript o h (getDNSService p config)
                   = [entry (NewSession (Zone (cloudConfig config)))
                        (o h (NewSession (Zone (cloudConfig config))))]
                   /\ result o h (getDNSService p config)
                      = match o h (NewSession (Zone (cloudConfig config))) with
                        | Some e => (p, Err (ErrSDK e))
                        | None =>
                            ({| dnsService :=
                                  Some (Zone (cloudConfig config)) |},
                             Ok (Zone (cloudConfig config)))
                        end).
    { unfold getDNSService. rewrite Hp. unfold getAWSSession, call.
      cbn [bind transcript result].
      destruct (o h (NewSession _)); split; reflexivity. }
    destruct Hrun as [Ht Hr]. rewrite Hr, Ht.
    destruct (o h (NewSession _)) as [e |]; cbn [fst snd].
    + split; [discriminate |]. split; [reflexivity | reflexivity].
    + split; [| split; [discriminate | reflexivity]].
      intros svc [= <-] config' o' h'. now apply Hcached.
Qed.

(** ** Starting and stopping instances *)

(** Decides the four properties of [StartInstance] and [StopInstance]
    once the run is a list of explicit entries. *)
Ltac state_change_outcome :=
  split; [discriminate |];
  split; [first [tauto | intros _; split; reflexivity] |];
  split; [repeat constructor |];
  split;
  [ first
      [ discriminate
      | intros _;
        match goal with
        | |- exists before e, [?a; ?b] = _ /\ _ =>
            exists [a], b; split; [reflexivity | exact I]
        end ]
  | let before := fresh "before" in
    let last := fresh "last" in
    let Ht := fresh "Ht" in
    let He := fresh "He" in
    intros (before & last & Ht & He);
    first
      [ reflexivity
      | destruct before; discriminate Ht
      | exfalso;
        match type of Ht with
        | [?a] = _ =>
            change [a] with ([] ++ [a]) in Ht
        | [?a; ?b] = _ =>
            change [a; b] with ([a] ++ [b]) in Ht
        end;
        apply app_inj_tail in Ht; destruct Ht as [_ <-]; exact He ] ].

(** X23.  [StartInstance] never returns an error: it returns without
    error, leaves the process or panics.  Given an empty instance id it
    leaves the process without any call; otherwise it opens a session
    in the zone of the request and starts the instance with the given
    id and no other, and it returns exactly when its last call is a
    start that the provider answers with at least one instance. *)
Theorem StartInstance_outcomes (config : Config) (instanceID : string)
    (o : manage.Oracle) (h : list manage.Entry) :
  let t := manage.transcript o h (manage.StartInstance config instanceID) in
  let r := manage.result o h (manage.StartInstance config instanceID) in
  (forall e, r <> manage.Err e)
  /\ (instanceID = "" -> t = [] /\ r = manage.Exit "Enter Instance ID")
  /\ Forall (fun e =>
               match manage.callOf e with
               | manage.NewSession region => region = Zone (cloudConfig config)
               | manage.StartInstances ids => ids = [Some instanceID]
               | _ => False
               end) t
  /\ (r = manage.Ok tt <->
      exists before e, t = before ++ [e] /\ stateChangeAcknowledged e).
Proof.
  cbv zeta. unfold manage.StartInstance.
  destruct (String.eqb_spec instanceID "") as [-> | Hid];
    [cbn; state_change_outcome |].
  cbn [manage.transcript manage.result].
  destruct (o h (manage.NewSession _)) as [e |];
    cbn [manage.transcript manage.result]; [state_change_outcome |].
  destruct (o _ (manage.StartInstances _)) as [[code msg | msg] | [| i more]];
    cbn [manage.transcript manage.result manage.exitWithMessageOf];
    state_change_outcome.
Qed.

(** X24.  [StopInstance] never returns an error: it returns without
    error, leaves the process or panics.  Given an empty instance id it
    leaves the process without any call; otherwise it opens a session
    in the zone of the request and stops the instance with the given id
    and no other, and it returns exactly when its last call is a stop
    that the provider answers with at least one instance. *)
Theorem StopInstance_outcomes (config : Config) (instanceID : string)
    (o : manage.Oracle) (h : list manage.Entry) :
  let t := manage.transcript o h (manage.StopInstance config instanceID) in
  let r := manage.result o h (manage.StopInstance config instanceID) in
  (forall e, r <> manage.Err e)
  /\ (instanceID = "" -> t = [] /\ r = manage.Exit "Enter InstanceID")
  /\ Forall (fun e =>
               match manage.callOf e with
               | manage.NewSession region => region = Zone (cloudConfig config)
               | manage.StopInstances ids => ids = [Some instanceID]
               | _ => False
               end) t
  /\ (r = manage.Ok tt <->
      exists before e, t = before ++ [e] /\ stateChangeAcknowledged e).
Proof.
  cbv zeta. unfold manage.StopInstance.
  destruct (String.eqb_spec instanceID "") as [-> | Hid];
    [cbn; state_change_outcome |].
  cbn [manage.transcript manage.result].
  destruct (o h (manage.NewSession _)) as [e |];
    cbn [manage.transcript manage.result]; [state_change_outcome |].
  destruct (o _ (manage.StopInstances _)) as [[code msg | msg] | [| i more]];
    cbn [manage.transcript manage.result manage.exitWithMessageOf];
    state_change_outcome.
Qed.

(** ** Deleting an image *)

(** How [DeleteImage] runs, by the answer to the listing. *)
Lemma DeleteImage_run (config : Config) (imagename : string)
    (o : manage.Oracle) (h : list manage.Entry) :
  let session := manage.NewSession (Zone (cloudConfig config)) in
  let describe := manage.DescribeImages [manage.imageNameFilter imagename] in
  let h1 := h ++ [manage.entry session (o h session)] in
  let listing :=
    [manage.entry session (o h session);
     manage.entry describe (o h1 describe)] in
  let t := manage.transcript o h (manage.DeleteImage config imagename) in
  let r := manage.result o h (manage.DeleteImage config imagename) in
  match o h1 describe with
  | inl e => t = listing /\ r = manage.Err (manage.ErrSDK e)
  | inr [] => t = listing /\ r = manage.Err (manage.ErrImageNotFound imagename)
  | inr (image :: _) =>
      match manage.BlockDeviceMappings image with
      | [] => t = listing /\ r = manage.Panic
      | mapping :: _ =>
          match manage.Ebs mapping with
          | None => t = listing /\ r = manage.Panic
          | Some ebs =>
              let deregister :=
                manage.DeregisterImage
                  (Some (aws.StringValue (manage.ImageId image))) false in
              let h2 := h1 ++ [manage.entry describe (o h1 describe)] in
              match o h2 deregister with
              | Some e =>
                  t = listing ++ [manage.entry deregister (Some e)]
                  /\ r = manage.Err (manage.ErrDeregisterImage e)
              | None =>
                  let delete :=
                    manage.DeleteSnapshot
                      (Some (aws.StringValue (manage.SnapshotId ebs)))
                      false in
                  let h3 := h2 ++ [manage.entry deregister None] in
                  t = listing
                      ++ [manage.entry deregister None;
                          manage.entry delete (o h3 delete)]
                  /\ r = match o h3 delete with
                         | Some e => manage.Err (manage.ErrSnapshotDelete e)
                         | None => manage.Ok tt
                         end
              end
          end
      end
  end.
Proof.
  cbv zeta. unfold manage.DeleteImage.
  cbn [manage.transcript manage.result].
  destruct (o _ (manage.DescribeImages _)) as [e | [| image images]] eqn:Hd;
    cbn [manage.transcript manage.result]; try (split; reflexivity).
  destruct (manage.BlockDeviceMappings image) as [| mapping mappings];
    cbn [manage.transcript manage.result]; [split; reflexivity |].
  destruct (manage.Ebs mapping) as [ebs |];
    cbn [manage.transcript manage.result]; [| split; reflexivity].
  unfold aws.String.
  destruct (o _ (manage.DeregisterImage _ _)) as [e |] eqn:Hr;
    cbn [manage.transcript manage.result app]; [split; reflexivity |].
  destruct (o _ (manage.DeleteSnapshot _ _)) as [e |];
    split; reflexivity.
Qed.

(** X25.  [DeleteImage] deletes a snapshot only as its last call, right
    after the provider accepted the deregistration of the image the
    snapshot belongs to; that image is the first one the provider lists
    under the given name, the snapshot is the one of its first block
    device mapping, and nothing else is deregistered or deleted.
    [DeleteImage] then returns without error when the deletion is
    accepted and with an error about the snapshot otherwise; it returns
    without error in no other run. *)
Theorem DeleteImage_deletes_the_snapshot_of_the_deregistered_image
    (config : Config) (imagename : string)
    (o : manage.Oracle) (h : list manage.Entry) :
  let t := manage.transcript o h (manage.DeleteImage config imagename) in
  let r := manage.result o h (manage.DeleteImage config imagename) in
  Exists (fun e => manage.isDeleteSnapshot (manage.callOf e) = true) t
  \/ r = manage.Ok tt ->
  exists r0 image images mapping mappings ebs answer,
    manage.BlockDeviceMappings image = mapping :: mappings
    /\ manage.Ebs mapping = Some ebs
    /\ t = [manage.entry (manage.NewSession (Zone (cloudConfig config))) r0;
            manage.entry
              (manage.DescribeImages [manage.imageNameFilter imagename])
              (inr (image :: images));
            manage.entry
              (manage.DeregisterImage
                 (Some (aws.StringValue (manage.ImageId image))) false)
              None;
            manage.entry
              (manage.DeleteSnapshot
                 (Some (aws.StringValue (manage.SnapshotId ebs))) false)
              answer]
    /\ r = match answer with
           | Some e => manage.Err (manage.ErrSnapshotDelete e)
           | None => manage.Ok tt
           end.
Proof.
  cbv zeta. pose proof (DeleteImage_run config imagename o h) as Hrun.
  cbv zeta in Hrun.
  assert (Hno : forall l r,
             Forall (fun e => manage.isDeleteSnapshot (manage.callOf e) = false)
               l ->
             Exists (fun e => manage.isDeleteSnapshot (manage.callOf e) = true)
               l
             \/ manage.Err r = manage.Ok tt \/ manage.Panic = manage.Ok tt ->
             False).
  { intros l r Hl [Hex | [Hr | Hr]]; try discriminate.
    revert Hex. apply Forall_Exists_neg.
    eapply Forall_impl; [| exact Hl]. intros a Ha. now rewrite Ha. }
  destruct (o _ (manage.DescribeImages _)) as [e | [| image images]].
  1, 2: destruct Hrun as [-> ->]; intros H; exfalso;
    eapply Hno; [| destruct H as [H | H]; [left; exact H | right; left; exact H]];
    repeat constructor.
  destruct (manage.BlockDeviceMappings image) as [| mapping mappings] eqn:Hm.
  { destruct Hrun as [-> ->]. intros H. exfalso.
    eapply (Hno _ (manage.ErrSDK (PlainError "")));
      [| destruct H as [H | H]; [left; exact H | right; right; exact H]].
    repeat constructor. }
  destruct (manage.Ebs mapping) as [ebs |] eqn:He.
  2: { destruct Hrun as [-> ->]. intros H. exfalso.
       eapply (Hno _ (manage.ErrSDK (PlainError "")));
         [| destruct H as [H | H]; [left; exact H | right; right; exact H]].
       repeat constructor. }
  destruct (o _ (manage.DeregisterImage _ _)) as [e |].
  { destruct Hrun as [-> ->]. intros H. exfalso.
    eapply Hno;
      [| destruct H as [H | H]; [left; exact H | right; left; exact H]].
    repeat constructor. }
  destruct Hrun as [-> ->]. intros _.
  do 7 eexists. split; [exact Hm |]. split; [exact He |].
  split; reflexivity.
Qed.

Lemma DeleteImage_deletes_the_snapshot_of_the_deregistered_image_witness :
  exists r0 image images mapping mappings ebs answer,
    manage.BlockDeviceMappings image = mapping :: mappings
    /\ manage.Ebs mapping = Some ebs
    /\ manage.transcript manage.provider []
         (manage.DeleteImage requestA "img-v31600000000")
       = [manage.entry (manage.NewSession "us-west-1") r0;
          manage.entry
            (manage.DescribeImages
               [manage.imageNameFilter "img-v31600000000"])
            (inr (image :: images));
          manage.entry
            (manage.DeregisterImage
               (Some (aws.StringValue (manage.ImageId image))) false)
            None;
          manage.entry
            (manage.DeleteSnapshot
               (Some (aws.StringValue (manage.SnapshotId ebs))) false)
            answer]
    /\ manage.result manage.provider []
         (manage.DeleteImage requestA "img-v31600000000")
       = match answer with
         | Some e => manage.Err (manage.ErrSnapshotDelete e)
         | None => manage.Ok tt
         end.
Proof.
  apply (DeleteImage_deletes_the_snapshot_of_the_deregistered_image
           requestA "img-v31600000000" manage.provider []).
  right. reflexivity.
Defined.


